(** * py-lead-generate: the proxy pool, the link extractor and the page scraper

    A shallow embedding of [modules/proxy.py], [modules/scrapper.py],
    [modules/filter.py], [modules/search.py] and [utils/helpers.py],
    together with the properties the specification states about them and
    further properties of the code.

    Conventions of the embedding.
    - A Python [str] is a [string]; its characters stand for the code points
      below 256, so that [len] is [String.length].  [str.lower],
      [str.strip], [str.split] and case-insensitive matching are written out
      for that range.
    - A Python [int] is a [Z]; a length is a [nat].
    - A call that may raise returns an [outcome]; [try]/[except] is a match.
    - [self] of [ProxyManager] is the record [PM], threaded explicitly with
      the files the manager touches ([Files]) and the outbound requests it
      has issued.  Console output is not part of the model.
    - Library code (random, requests, csv quoting, bs4, urllib, float and int
      parsing, the backup copy of shutil) is an interface: an oracle
      argument or field, a section variable or a class, instantiated by
      small concrete models in the examples. *)

From stdpp Require Import gmap strings list fin_maps sorting.
From Stdlib Require Import ZArith Ascii String Lia.
From Stdlib Require DecimalString.

Open Scope string_scope.
Open Scope Z_scope.

(** ** Results and exceptions *)

(** The exceptions that [requests.get] raises in [ProxyManager.fetch]: the
    three that the first handler names, and any other. *)
Inductive request_exception :=
| ProxyError
| Timeout
| ConnectionError
| OtherException.

(** What went wrong in one attempt of [ProxyManager.fetch]: the value kept
    in [last_error]. *)
Inductive attempt_error :=
| HTTPStatus (code : Z)
| Blocked
| RequestFailed (e : request_exception).

Inductive exn :=
| AttributeError
| TypeError
| ValueError
| IndexError
| ParserError
| ProxyFailureError (url : string) (last_error : option attempt_error)
    (available total : nat) (no_proxy : bool).

Inductive outcome (A : Type) :=
| Returns (a : A)
| Raises (e : exn).
Arguments Returns {A} a.
Arguments Raises {A} e.

#[global] Instance outcome_ret : MRet outcome := fun A a => Returns a.
#[global] Instance outcome_bind : MBind outcome := fun A B k m =>
  match m with
  | Returns a => k a
  | Raises e => Raises e
  end.

Definition returned {A} (m : outcome A) : bool :=
  match m with Returns _ => true | Raises _ => false end.

(** ** Python strings *)

Module PyStr.

Definition code (c : ascii) : nat := nat_of_ascii c.

Definition between (lo hi n : nat) : bool := (lo <=? n)%nat && (n <=? hi)%nat.

(** Code points with an upper-case form: A-Z, and the Latin-1 capitals
    (U+00C0 to U+00DE except the multiplication sign). *)
Definition is_upper (c : ascii) : bool :=
  between 65 90 (code c)
  || (between 192 222 (code c) && negb (code c =? 215)%nat).

(** Code points that [str.islower] counts as lower-case. *)
Definition is_lower (c : ascii) : bool :=
  between 97 122 (code c)
  || (code c =? 170)%nat || (code c =? 181)%nat || (code c =? 186)%nat
  || (between 223 255 (code c) && negb (code c =? 247)%nat).

Definition lower_char (c : ascii) : ascii :=
  if is_upper c then ascii_of_nat (code c + 32) else c.

(** [s.lower()] *)
Fixpoint lower (s : string) : string :=
  match s with
  | EmptyString => EmptyString
  | String c s' => String (lower_char c) (lower s')
  end.

Fixpoint all_chars (p : ascii -> bool) (s : string) : bool :=
  match s with
  | EmptyString => true
  | String c s' => p c && all_chars p s'
  end.

Fixpoint any_char (p : ascii -> bool) (s : string) : bool :=
  match s with
  | EmptyString => false
  | String c s' => p c || any_char p s'
  end.

(** [s.islower()]: no upper-case character and at least one lower-case
    one. *)
Definition islower (s : string) : bool :=
  all_chars (fun c => negb (is_upper c)) s && any_char is_lower s.

(** White space as [str.strip] and [str.split] see it. *)
Definition is_space (c : ascii) : bool :=
  between 9 13 (code c) || between 28 32 (code c)
  || (code c =? 133)%nat || (code c =? 160)%nat.

Definition is_empty (s : string) : bool :=
  match s with EmptyString => true | _ => false end.

(** Truthiness of a [str]. *)
Definition truthy (s : string) : bool := negb (is_empty s).

Fixpoint lstrip (s : string) : string :=
  match s with
  | EmptyString => EmptyString
  | String c s' => if is_space c then lstrip s' else s
  end.

Fixpoint rstrip (s : string) : string :=
  match s with
  | EmptyString => EmptyString
  | String c s' =>
      let r := rstrip s' in
      if is_space c && is_empty r then EmptyString else String c r
  end.

(** [s.strip()] *)
Definition strip (s : string) : string := rstrip (lstrip s).

Fixpoint starts_with (p s : string) : bool :=
  match p, s with
  | EmptyString, _ => true
  | String a p', String b s' => if Ascii.eqb a b then starts_with p' s' else false
  | String _ _, EmptyString => false
  end.

(** [needle in hay] *)
Fixpoint contains (needle hay : string) : bool :=
  starts_with needle hay
  || match hay with
     | EmptyString => false
     | String _ hay' => contains needle hay'
     end.

(** [s.replace(old, new)] for a non-empty [old]: the occurrences are taken
    from the left and do not overlap; [skip] counts the characters of an
    occurrence still to be dropped. *)
Fixpoint replace_from (skip : nat) (old new s : string) : string :=
  match s with
  | EmptyString => EmptyString
  | String c s' =>
      match skip with
      | S k => replace_from k old new s'
      | O =>
          if starts_with old s
          then new ++ replace_from (Nat.pred (String.length old)) old new s'
          else String c (replace_from O old new s')
      end
  end.

Definition replace (old new s : string) : string := replace_from O old new s.

(** [s.split(sep)] for a one-character separator: the current piece is the
    head of the result. *)
Fixpoint split_on (sep : ascii) (s : string) : list string :=
  match s with
  | EmptyString => [EmptyString]
  | String c s' =>
      match split_on sep s' with
      | piece :: rest =>
          if Ascii.eqb c sep then EmptyString :: piece :: rest
          else String c piece :: rest
      | [] => [String c EmptyString]
      end
  end.

(** [s.split()]: the maximal runs of characters that are not white space.
    The head of the result of [words_from] is the run that starts at the
    current position, empty when the position holds white space. *)
Fixpoint words_from (s : string) : list string :=
  match s with
  | EmptyString => [EmptyString]
  | String c s' =>
      match words_from s' with
      | w :: rest =>
          if is_space c then EmptyString :: (if is_empty w then rest else w :: rest)
          else String c w :: rest
      | [] => [String c EmptyString]
      end
  end.

Definition split (s : string) : list string :=
  match words_from s with
  | w :: rest => if is_empty w then rest else w :: rest
  | [] => []
  end.

(** [sep.join(parts)] *)
Fixpoint join (sep : string) (parts : list string) : string :=
  match parts with
  | [] => EmptyString
  | [p] => p
  | p :: rest => p ++ sep ++ join sep rest
  end.

(** [s[:n]] for an [int] n: a negative n counts from the end. *)
Definition slice_to (n : Z) (s : string) : string :=
  if 0 <=? n then String.substring 0 (Z.to_nat n) s
  else String.substring 0 (String.length s - Z.to_nat (- n)) s.

Definition len (s : string) : Z := Z.of_nat (String.length s).

End PyStr.

(** ** utils/helpers.py and constants/config.py *)

Module Helpers.
Import PyStr.

Definition KEYWORDS : list string :=
  ["services"; "CEO"; "founder"; "clients"; "products"; "solutions"; "funding"].

Definition block_indicators : list string :=
  [ "unfortunately, bots use duckduckgo too";
    "please complete the following challenge";
    "select all squares containing a duck";
    "anomaly-modal__puzzle";
    "error-lite@duckduckgo.com";
    "cloudflare";
    "captcha" ].

(** [is_search_blocked(html)] for a [str] argument. *)
Definition is_search_blocked (html : string) : bool :=
  if is_empty html then false
  else
    let html_lower := lower html in
    existsb (fun i => contains i html_lower) block_indicators.

(** The copyright sign, code point 169. *)
Definition copyright_sign : string := String (ascii_of_nat 169) EmptyString.

(** The alternatives of the regular expression of
    [is_navigational_content]. *)
Definition navigational_phrases : list string :=
  [ "click here"; "privacy"; "terms"; "login"; "subscribe"; copyright_sign;
    "all rights reserved" ].

(** [re.search(r"(click here|...)", text, re.I)]: one of the alternatives
    occurs in [text], letters compared without regard to case. *)
Definition re_search_navigational (text : string) : bool :=
  existsb (fun p => contains p (lower text)) navigational_phrases.

Definition is_navigational_content (text : string) (min_words : Z) : bool :=
  if Z.of_nat (List.length (split text)) <? min_words then false
  else if re_search_navigational text then true
  else false.

(** [contains_keywords(text)] with the default [keywords=KEYWORDS]. *)
Definition contains_keywords (text : string) : bool :=
  let text_lower := if negb (islower text) then lower text else text in
  existsb (fun k => contains (lower k) text_lower) KEYWORDS.

End Helpers.

(** ** modules/scrapper.py *)

(** The part of bs4 that the scraper uses.  [get_text] is
    [tag.get_text(strip=True)], [tag_get] is [tag.get(name)]. *)
Class Bs4 := {
  Soup : Type;
  Tag : Type;
  BeautifulSoup : string -> outcome Soup;
  select : Soup -> string -> list Tag;
  tag_get : Tag -> string -> option string;
  get_text : Tag -> string;
  find_next : Tag -> string -> option Tag
}.

(** The part of urllib.parse that [extract_real_url] uses: [url_query] is
    [urlparse(link).query]. *)
Class Urllib := {
  url_query : string -> outcome string;
  parse_qs : string -> gmap string (list string);
  unquote : string -> string
}.

Module Scraper.
Import PyStr Helpers.

(** What [session.get(url, timeout=..., stream=True)] can do. *)
Inductive body_read :=
| Body (text : string)
| BodyTimeout
| BodyError.

Record PageResponse := {
  status_code : Z;
  content_length : option string;
  text : body_read
}.

Inductive get_result :=
| GotResponse (r : PageResponse)
| GetTimeout
| GetError.

Record Link := { url : string; title : string; snippet : string }.

Record ScrapedPage := {
  page_url : string;
  page_title : string;
  page_snippet : string;
  content : string
}.


Section WithLibraries.
Context `{Bs4} `{Urllib}.

(** [extract_real_url(duck_link)] of utils/helpers.py. *)
Definition extract_real_url (duck_link : string) : outcome string :=
  query ← url_query duck_link;
  match parse_qs query !! "uddg" with
  | Some (v :: _) => Returns (unquote v)
  | Some [] => Raises IndexError
  | None => Returns duck_link
  end.

(** The [for a in results] loop of [extract_links]; [out] is the list built
    so far. *)
Fixpoint collect_links (max_links : Z) (results : list Tag) (out : list Link)
  : outcome (list Link) :=
  match results with
  | [] => Returns out
  | a :: rest =>
      match tag_get a "href" with
      | None => collect_links max_links rest out
      | Some href =>
          if is_empty href then collect_links max_links rest out
          else
            real ← extract_real_url href;
            let title := get_text a in
            let snippet :=
              match find_next a "a" with
              | Some snippet_el => get_text snippet_el
              | None => EmptyString
              end in
            let out' := (out ++ [{| url := real; title := title; snippet := snippet |}])%list in
            if Z.of_nat (List.length out') >=? max_links then Returns out'
            else collect_links max_links rest out'
      end
  end.

Definition result_anchors (soup : Soup) : list Tag :=
  match select soup "a.result__a" with
  | [] => select soup ".result__body a.result__a"
  | results => results
  end.

Definition extract_links (html : string) (max_links : Z) : outcome (list Link) :=
  if is_empty html || is_search_blocked html then Returns []
  else
    soup ← BeautifulSoup html;
    collect_links max_links (result_anchors soup) [].

(** *** extract_relevant_content *)

Definition content_selectors : list string :=
  [ "main p, main div";
    "article p, article div";
    ".content p, .content div, .main-content p, .main-content div";
    "p, div" ].

Record Gathered := {
  useful_content : list string;
  seen_texts : gset string;
  total_length : Z
}.

Definition nothing_gathered : Gathered :=
  {| useful_content := []; seen_texts := ∅; total_length := 0 |}.

(** The two [continue] tests on the text of a node that precede the
    duplicate test: [true] when neither fires. *)
Definition qualifies (text : string) : bool :=
  if is_empty text || (len text <? 10) then false
  else
    let text_lower := lower text in
    if is_navigational_content text 5 || negb (contains_keywords text_lower)
    then false
    else true.

(** The [for p in paragraphs] loop. *)
Fixpoint scan_paragraphs (max_chars : Z) (paragraphs : list Tag) (g : Gathered)
  : Gathered :=
  match paragraphs with
  | [] => g
  | p :: rest =>
      let text := get_text p in
      if negb (qualifies text) then scan_paragraphs max_chars rest g
      else if bool_decide (text ∈ seen_texts g) then scan_paragraphs max_chars rest g
      else
        let g' := {| useful_content := (useful_content g ++ [text])%list;
                     seen_texts := {[text]} ∪ seen_texts g;
                     total_length := total_length g + len text |} in
        if total_length g' >=? max_chars then g'
        else scan_paragraphs max_chars rest g'
  end.

(** The [for selector in content_selectors] loop. *)
Fixpoint scan_selectors (max_chars : Z) (soup : Soup) (selectors : list string)
    (g : Gathered) : Gathered :=
  match selectors with
  | [] => g
  | selector :: rest =>
      if total_length g >=? max_chars then g
      else
        let g' := scan_paragraphs max_chars (select soup selector) g in
        if total_length g' >=? max_chars then g'
        else scan_selectors max_chars soup rest g'
  end.

Definition extract_relevant_content (html : string) (max_chars : Z)
  : outcome string :=
  if is_empty html then Returns EmptyString
  else
    soup ← BeautifulSoup html;
    let g := scan_selectors max_chars soup content_selectors nothing_gathered in
    let result := join " " (useful_content g) in
    Returns (if len result >? max_chars then slice_to max_chars result else result).

(** *** Fetching one page *)

Section WithNetwork.
(** [session_get url tier] is what the request of tier 0 (first try) or 1
    (retry) to [url] does; [py_int] is [int(text)], [None] for ValueError. *)
Variable session_get : string -> nat -> get_result.
Variable py_int : string -> option Z.

(** How the body of one [try] block ends. *)
Inductive tier_end :=
| TierReturn (s : string)
| TierFallsThrough
| TierTimeout
| TierOtherError.

(** From the response to the end of the block: the Content-Length guard,
    then the status test and the read of the body. *)
Definition read_response (r : PageResponse) : tier_end :=
  let read_body :=
    if status_code r =? 200 then
      match text r with
      | Body s => TierReturn s
      | BodyTimeout => TierTimeout
      | BodyError => TierOtherError
      end
    else TierFallsThrough in
  match content_length r with
  | Some cl =>
      if truthy cl then
        match py_int cl with
        | None => TierOtherError
        | Some n => if n >? 2000000 then TierReturn EmptyString else read_body
        end
      else read_body
  | None => read_body
  end.

Definition tier (url : string) (n : nat) : tier_end :=
  match session_get url n with
  | GotResponse r => read_response r
  | GetTimeout => TierTimeout
  | GetError => TierOtherError
  end.

Definition _fetch_with_session (url : string) : string :=
  match tier url 0 with
  | TierReturn s => s
  | TierFallsThrough => EmptyString
  | TierTimeout =>
      match tier url 1 with
      | TierReturn s => s
      | _ => EmptyString
      end
  | TierOtherError => EmptyString
  end.

(** [None] is Python's [None]. *)
Definition _scrape_single_link (link : Link) : option ScrapedPage :=
  let html := _fetch_with_session (url link) in
  if is_empty html then None
  else
    match extract_relevant_content html 2000 with
    | Returns content =>
        if truthy content then
          Some {| page_url := url link; page_title := title link;
                  page_snippet := snippet link; content := content |}
        else None
    | Raises _ => None
    end.

(** [as_completed workers futures] is the order in which the futures
    complete, a rearrangement of the submitted ones. *)
Variable as_completed :
  Z -> list (Link * option ScrapedPage) -> list (Link * option ScrapedPage).

(** The futures are keyed by the link they scrape: the pair holds the link
    and [future.result()]. *)
Definition scrape_links_content (links : list Link) (max_workers : Z)
  : outcome (list ScrapedPage) :=
  match links with
  | [] => Returns []
  | _ =>
      let max_workers := Z.min max_workers (Z.of_nat (List.length links)) in
      if max_workers <=? 0 then Raises ValueError
      else
        let future_to_link := map (fun link => (link, _scrape_single_link link)) links in
        Returns (omap snd (as_completed max_workers future_to_link))
  end.

Definition extract_and_scrape (search_html : string) (max_links : Z)
  : outcome (list ScrapedPage) :=
  links ← extract_links search_html max_links;
  scrape_links_content links 10.

End WithNetwork.
End WithLibraries.
End Scraper.

(** ** modules/proxy.py *)

(** Python's [float]: [float_of_str] is [float(text)] ([None] for
    ValueError), [float_lt] is [<] as [list.sort] uses it, [float_zero] is
    [float(0)]. *)
Class PyFloat := {
  Float : Type;
  float_zero : Float;
  float_of_str : string -> option Float;
  float_lt : Float -> Float -> bool
}.

Module Proxy.
Import PyStr Helpers.

(** *** The catalogue file and its rows *)

(** A value of a row [dict]: a [str] or [None]. *)
Abbreviation PyVal := (option string) (only parsing).

(** A row as [csv.DictReader] yields it: [cells] holds the named columns,
    [restkey] the values beyond the last column (stored by the reader under
    the key [None]). *)
Record Row := {
  cells : gmap string PyVal;
  restkey : option (list string)
}.

(** A csv file as the sequence of its records, the header first. *)
Abbreviation CsvContent := (list (list string)) (only parsing).

(** How a call of [shutil.copy2] onto the backup path ends: the copy is
    made, or the call raises and leaves the given content at that path. *)
Inductive copy_result :=
  | Copied
  | CopyFailed (left_behind : option CsvContent).

(** The three files of a manager: [csv_path], [csv_path + ".backup"] and
    [csv_path + ".tmp"]; [None] when the file does not exist.  With them
    goes what the file system will answer to the coming calls of
    [shutil.copy2] onto the backup path, the next call first. *)
Record Files := {
  csv_file : option CsvContent;
  backup_file : option CsvContent;
  temp_file : option CsvContent;
  backup_copies : nat -> copy_result
}.

(** [dict(pairs)]: a later pair overrides an earlier one with the same
    key. *)
Definition py_dict (pairs : list (string * PyVal)) : gmap string PyVal :=
  foldl (fun d kv => <[kv.1 := kv.2]> d) ∅ pairs.

(** One row of [csv.DictReader]: short records are padded with [None],
    the surplus of long ones goes under the rest key. *)
Definition dict_row (fieldnames record : list string) : Row :=
  let d := py_dict (zip fieldnames (Some <$> record)) in
  let lf := List.length fieldnames in
  let lr := List.length record in
  if (lf <? lr)%nat then {| cells := d; restkey := Some (drop lf record) |}
  else {| cells := foldl (fun d key => <[key := None]> d) d (drop lr fieldnames);
          restkey := None |}.

Definition is_blank (record : list string) : bool :=
  match record with [] => true | _ => false end.

(** [csv.DictReader(f)]: the first record names the columns, blank records
    are skipped. *)
Definition DictReader (content : list (list string)) : list Row :=
  match content with
  | [] => []
  | fieldnames :: records =>
      dict_row fieldnames <$> filter (fun r => negb (is_blank r)) records
  end.

Definition fieldnames : list string :=
  ["ip"; "port"; "country"; "city"; "isp"; "response_time_ms"; "status";
   "tested_at"].

(** [row.get(key, default)] *)
Definition row_get (row : Row) (key : string) (dflt : PyVal) : PyVal :=
  default dflt (cells row !! key).

(** [bool(row)] *)
Definition row_truthy (row : Row) : bool :=
  negb (bool_decide (cells row = ∅)) || bool_decide (is_Some (restkey row)).

(** [row['status'] = 'failed'] *)
Definition set_row_failed (row : Row) : Row :=
  {| cells := <["status" := Some "failed"]> (cells row); restkey := restkey row |}.

(** [csv.DictWriter(f, fieldnames).writerow(row)]: a key that is not a
    column raises ValueError, a missing column is written as the empty
    string, and so is [None]. *)
Definition writerow (row : Row) : outcome (list string) :=
  if bool_decide (is_Some (restkey row))
     || negb (bool_decide (dom (cells row) ⊆ list_to_set fieldnames))
  then Raises ValueError
  else Returns ((fun key => default EmptyString (row_get row key (Some EmptyString)))
                  <$> fieldnames).

(** [value.strip()] for a value read from a row. *)
Definition val_strip (v : PyVal) : outcome string :=
  match v with
  | Some s => Returns (strip s)
  | None => Raises AttributeError
  end.

Section WithFloat.
Context `{PyFloat}.

Record ProxyRecord := {
  url : string;
  ip : string;
  port : string;
  country : PyVal;
  city : PyVal;
  isp : PyVal;
  response_time_ms : Float;
  status : string;
  tested_at : PyVal;
  row : option Row
}.

(** [float(row.get('response_time_ms', 0))] *)
Definition row_response_time (r : Row) : outcome Float :=
  match cells r !! "response_time_ms" with
  | None => Returns float_zero
  | Some (Some s) =>
      match float_of_str s with
      | Some x => Returns x
      | None => Raises ValueError
      end
  | Some None => Raises TypeError
  end.

(** The body of the [for row in reader] loop of [_load_proxies]: the record
    appended for the row, if any. *)
Definition load_row (r : Row) : outcome (option ProxyRecord) :=
  ip ← val_strip (row_get r "ip" (Some EmptyString));
  port ← val_strip (row_get r "port" (Some EmptyString));
  status ← val_strip (row_get r "status" (Some "working"));
  if truthy ip && truthy port && String.eqb status "working" then
    rt ← row_response_time r;
    Returns (Some {| url := "socks5://" ++ ip ++ ":" ++ port;
                     ip := ip;
                     port := port;
                     country := row_get r "country" (Some "Unknown");
                     city := row_get r "city" (Some "Unknown");
                     isp := row_get r "isp" (Some "Unknown");
                     response_time_ms := rt;
                     status := status;
                     tested_at := row_get r "tested_at" (Some EmptyString);
                     row := Some r |})
  else Returns None.

(** The loop itself: the records appended, in the order of the rows, or the
    first exception. *)
Fixpoint load_rows (rows : list Row) : outcome (list ProxyRecord) :=
  match rows with
  | [] => Returns []
  | r :: rest =>
      loaded ← load_row r;
      more ← load_rows rest;
      Returns (match loaded with Some p => p :: more | None => more end)
  end.

(** [proxy_data.sort(key=lambda x: x['response_time_ms'])]: the stable sort
    by [<] on the keys, written as an insertion from the right.  [list.sort]
    computes this list whenever [<] orders the keys (no NaN among them). *)
Fixpoint insert_by_time (p : ProxyRecord) (l : list ProxyRecord) : list ProxyRecord :=
  match l with
  | [] => [p]
  | q :: l' =>
      if float_lt (response_time_ms q) (response_time_ms p)
      then q :: insert_by_time p l'
      else p :: l
  end.

Definition sort_by_response_time (l : list ProxyRecord) : list ProxyRecord :=
  foldr insert_by_time [] l.

Section WithFallback.
(** [constants.proxy.PROXIES], the built-in fallback list. *)
Variable PROXIES : list string.

Definition fallback_record (proxy_url : string) : option ProxyRecord :=
  match split_on ":" (replace "socks5://" EmptyString proxy_url) with
  | [host; prt] =>
      Some {| url := proxy_url;
              ip := host;
              port := prt;
              country := Some "Unknown";
              city := Some "Unknown";
              isp := Some "Unknown";
              response_time_ms := float_zero;
              status := "working";
              tested_at := Some EmptyString;
              row := None |}
  | _ => None
  end.

Definition _load_fallback_proxies : list ProxyRecord :=
  omap fallback_record PROXIES.

(** [_load_proxies]: every exception of the [try] block ends in the
    fallback list.  Reading an existing file is taken to succeed. *)
Definition _load_proxies (fs : Files) : list ProxyRecord :=
  match csv_file fs with
  | None => _load_fallback_proxies
  | Some file_content =>
      match load_rows (DictReader file_content) with
      | Raises _ => _load_fallback_proxies
      | Returns [] => _load_fallback_proxies
      | Returns proxy_data => sort_by_response_time proxy_data
      end
  end.

End WithFallback.

(** *** The manager *)

Record Stats := {
  total_requests : Z;
  successful_requests : Z;
  failed_requests : Z;
  proxies_marked_bad : Z
}.

Record PM := {
  max_retries : Z;
  min_proxies_threshold : Z;
  proxy_data : list ProxyRecord;
  proxies : list string;
  bad_proxies : gset string;
  using_csv : bool;
  stats : Stats
}.

Definition set_proxy_data (pd : list ProxyRecord) (s : PM) : PM :=
  {| max_retries := max_retries s; min_proxies_threshold := min_proxies_threshold s;
     proxy_data := pd; proxies := proxies s; bad_proxies := bad_proxies s;
     using_csv := using_csv s; stats := stats s |}.

Definition set_bad_proxies (b : gset string) (s : PM) : PM :=
  {| max_retries := max_retries s; min_proxies_threshold := min_proxies_threshold s;
     proxy_data := proxy_data s; proxies := proxies s; bad_proxies := b;
     using_csv := using_csv s; stats := stats s |}.

Definition set_stats (st : Stats) (s : PM) : PM :=
  {| max_retries := max_retries s; min_proxies_threshold := min_proxies_threshold s;
     proxy_data := proxy_data s; proxies := proxies s; bad_proxies := bad_proxies s;
     using_csv := using_csv s; stats := st |}.

Definition file_exists (f : option (list (list string))) : bool :=
  match f with Some _ => true | None => false end.

(** [ProxyManager.__init__] *)
Definition init (PROXIES : list string) (fs : Files)
    (max_retries min_proxies_threshold : Z) : PM :=
  let proxy_data := _load_proxies PROXIES fs in
  {| max_retries := max_retries;
     min_proxies_threshold := min_proxies_threshold;
     proxy_data := proxy_data;
     proxies := url <$> proxy_data;
     bad_proxies := ∅;
     using_csv := file_exists (csv_file fs);
     stats := {| total_requests := 0; successful_requests := 0;
                 failed_requests := 0; proxies_marked_bad := 0 |} |}.

(** [reload_proxies]: the new count and the manager. *)
Definition reload_proxies (PROXIES : list string) (s : PM) (fs : Files) : nat * PM :=
  let proxy_data := _load_proxies PROXIES fs in
  let s' :=
    {| max_retries := max_retries s;
       min_proxies_threshold := min_proxies_threshold s;
       proxy_data := proxy_data;
       proxies := url <$> proxy_data;
       bad_proxies := ∅;
       using_csv := file_exists (csv_file fs);
       stats := stats s |} in
  (List.length (proxies s'), s').

(** [proxy['row'] is not None] *)
Definition has_row (p : ProxyRecord) : bool :=
  match row p with Some _ => true | None => false end.

(** [proxy['status'] = 'failed'], and the same on its row when the row is
    truthy. *)
Definition set_failed (p : ProxyRecord) : ProxyRecord :=
  {| url := url p; ip := ip p; port := port p; country := country p;
     city := city p; isp := isp p; response_time_ms := response_time_ms p;
     status := "failed";
     tested_at := tested_at p;
     row := match row p with
            | Some r => Some (if row_truthy r then set_row_failed r else r)
            | None => None
            end |}.

(** The rows that the writing loop of [_save_proxies_to_csv] puts out, or
    the exception of the first row it cannot write. *)
Fixpoint write_rows (ps : list ProxyRecord) : outcome (list (list string)) :=
  match ps with
  | [] => Returns []
  | p :: rest =>
      match row p with
      | Some r =>
          if row_truthy r then
            line ← writerow r;
            more ← write_rows rest;
            Returns (line :: more)
          else write_rows rest
      | None => write_rows rest
      end
  end.

(** The backup step of [_save_proxies_to_csv]: when the catalogue exists
    it is copied onto the backup path; a copy that raises is reported and
    the save goes on.  The result is the backup file and the answers left
    for the calls to come. *)
Definition create_backup (fs : Files)
  : option CsvContent * (nat -> copy_result) :=
  if file_exists (csv_file fs) then
    (match backup_copies fs 0 with
     | Copied => csv_file fs
     | CopyFailed left_behind => left_behind
     end,
     fun n => backup_copies fs (S n))
  else (backup_file fs, backup_copies fs).

(** [_save_proxies_to_csv]: the returned flag, the manager (the statuses of
    the quarantined records are updated in place) and the files.  Opening
    and renaming are taken to succeed; the exception modelled is the
    ValueError of the writer, after which the temporary file is removed
    and the catalogue keeps its content. *)
Definition _save_proxies_to_csv (s : PM) (fs : Files) : bool * PM * Files :=
  match filter (fun p => has_row p = true) (proxy_data s) with
  | [] => (false, s, fs)
  | _ =>
      let updated :=
        (fun p => if has_row p && bool_decide (url p ∈ bad_proxies s)
                  then set_failed p else p) <$> proxy_data s in
      let s' := set_proxy_data updated s in
      let proxies_with_csv_data := filter (fun p => has_row p = true) updated in
      let backup := create_backup fs in
      match write_rows proxies_with_csv_data with
      | Returns lines =>
          (true, s',
           {| csv_file := Some (fieldnames :: lines);
              backup_file := backup.1;
              temp_file := None;
              backup_copies := backup.2 |})
      | Raises _ =>
          (false, s',
           {| csv_file := csv_file fs; backup_file := backup.1;
              temp_file := None; backup_copies := backup.2 |})
      end
  end.

(** [get_available_proxy_count] *)
Definition get_available_proxy_count (s : PM) : nat :=
  List.length (filter (fun p => p ∉ bad_proxies s) (proxies s)).

Definition get_proxy_count (s : PM) : nat := List.length (proxies s).

(** The randomness of one call of [get_proxy]: [coin] is
    [random.random() < 0.8], [pick] determines the element that
    [random.choice] takes (the one at [pick] modulo the length). *)
Record Dice := { coin : bool; pick : nat }.

(** [random.choice(seq)]; IndexError on an empty sequence. *)
Definition choice {A} (d : Dice) (seq : list A) : outcome A :=
  match seq !! (pick d mod List.length seq)%nat with
  | Some x => Returns x
  | None => Raises IndexError
  end.

(** [get_proxy]: the endpoint or [None], and the manager (the quarantine
    set is cleared when it covers the whole directory). *)
Definition get_proxy (d : Dice) (prefer_fast : bool) (s : PM)
  : outcome (option string) * PM :=
  match proxies s with
  | [] => (Returns None, s)
  | _ =>
      let available_proxies :=
        filter (fun p => url p ∉ bad_proxies s) (proxy_data s) in
      let '(s', available_proxies) :=
        match available_proxies with
        | [] => (set_bad_proxies ∅ s, proxy_data s)
        | _ => (s, available_proxies)
        end in
      let proxy_entry :=
        if prefer_fast then
          if coin d then
            let top_30_percent := Nat.max 1 (List.length available_proxies / 3) in
            choice d (take top_30_percent available_proxies)
          else choice d available_proxies
        else choice d available_proxies in
      (e ← proxy_entry; Returns (Some (url e)), s')
  end.

Definition add_marked_bad (st : Stats) : Stats :=
  {| total_requests := total_requests st;
     successful_requests := successful_requests st;
     failed_requests := failed_requests st;
     proxies_marked_bad := proxies_marked_bad st + 1 |}.

(** [mark_proxy_bad(proxy)] for a [str] argument. *)
Definition mark_proxy_bad (s : PM) (fs : Files) (proxy : string) : PM * Files :=
  if is_empty proxy || bool_decide (proxy ∈ bad_proxies s) then (s, fs)
  else
    let proxy_entry := list_find (fun p => url p = proxy) (proxy_data s) in
    let s1 := set_stats (add_marked_bad (stats s))
                (set_bad_proxies ({[proxy]} ∪ bad_proxies s) s) in
    match proxy_entry with
    | Some (i, p) =>
        let s2 := set_proxy_data (<[i := set_failed p]> (proxy_data s1)) s1 in
        if has_row p then
          let '(_, s3, fs') := _save_proxies_to_csv s2 fs in (s3, fs')
        else (s2, fs)
    | None => (s1, fs)
    end.

(** *** fetch *)

(** The response object of [requests.get]. *)
Record Response := { status_code : Z; text : string }.

Inductive get_result :=
| Got (r : Response)
| Failed (e : request_exception).

(** What the world does in one attempt of [fetch]: the randomness of the
    selection and the result of [requests.get(url, proxies=...)]. *)
Record Attempt := {
  dice : Dice;
  requests_get : string -> string -> get_result
}.

(** How a call of [fetch] ends: the value returned or the exception
    raised, the manager, the files, and the proxies through which a request
    was sent, in order. *)
Record FetchEnd := {
  returned_value : outcome (string * Response);
  manager : PM;
  files : Files;
  tried : list string
}.

Definition add_total (st : Stats) : Stats :=
  {| total_requests := total_requests st + 1;
     successful_requests := successful_requests st;
     failed_requests := failed_requests st;
     proxies_marked_bad := proxies_marked_bad st |}.

Definition add_successful (st : Stats) : Stats :=
  {| total_requests := total_requests st;
     successful_requests := successful_requests st + 1;
     failed_requests := failed_requests st;
     proxies_marked_bad := proxies_marked_bad st |}.

Definition add_failed (st : Stats) : Stats :=
  {| total_requests := total_requests st;
     successful_requests := successful_requests st;
     failed_requests := failed_requests st + 1;
     proxies_marked_bad := proxies_marked_bad st |}.

(** ["duckduckgo.com" in url.lower()] *)
Definition is_duckduckgo (url : string) : bool :=
  contains "duckduckgo.com" (lower url).

(** The classification of one attempt: the error that sends the loop on,
    or the response that ends it. *)
Definition classify (url : string) (g : get_result) : attempt_error + Response :=
  match g with
  | Got r =>
      if negb (status_code r =? 200) then inl (HTTPStatus (status_code r))
      else if is_duckduckgo url && is_search_blocked (text r) then inl Blocked
      else inr r
  | Failed e => inl (RequestFailed e)
  end.

(** The [for attempt in range(self.max_retries)] loop and what follows it:
    [budget] attempts remain, [attempt] is the loop variable. *)
Fixpoint attempts (world : nat -> Attempt) (url : string) (prefer_fast : bool)
    (budget attempt : nat) (last_error : option attempt_error)
    (s : PM) (fs : Files) (tried : list string) : FetchEnd :=
  match budget with
  | O =>
      let s' := set_stats (add_failed (stats s)) s in
      {| returned_value :=
           Raises (ProxyFailureError url last_error
                     (get_available_proxy_count s') (get_proxy_count s') false);
         manager := s'; files := fs; tried := tried |}
  | S budget' =>
      match get_proxy (dice (world attempt)) prefer_fast s with
      | (Raises e, s1) =>
          {| returned_value := Raises e; manager := s1; files := fs; tried := tried |}
      | (Returns proxy, s1) =>
          if truthy (default EmptyString proxy) then
            let proxy := default EmptyString proxy in
            let tried' := (tried ++ [proxy])%list in
            match classify url (requests_get (world attempt) url proxy) with
            | inl err =>
                let '(s2, fs2) := mark_proxy_bad s1 fs proxy in
                attempts world url prefer_fast budget' (S attempt) (Some err)
                  s2 fs2 tried'
            | inr r =>
                {| returned_value := Returns (text r, r);
                   manager := set_stats (add_successful (stats s1)) s1;
                   files := fs; tried := tried' |}
            end
          else
            let s' := set_stats (add_failed (stats s1)) s1 in
            {| returned_value :=
                 Raises (ProxyFailureError url None
                           (get_available_proxy_count s') (get_proxy_count s') true);
               manager := s'; files := fs; tried := tried |}
      end
  end.

Definition fetch (world : nat -> Attempt) (url : string) (prefer_fast : bool)
    (s : PM) (fs : Files) : FetchEnd :=
  attempts world url prefer_fast (Z.to_nat (max_retries s)) 0 None
    (set_stats (add_total (stats s)) s) fs [].

End WithFloat.
End Proxy.

(** ** utils/helpers.py: is_sufficient_content *)

Module Sufficiency.
Import PyStr.

(** [constants.config.MIN_CONTENT_WORDS]; the test below compares it with a
    number of characters. *)
Definition MIN_CONTENT_WORDS : Z := 20.

(** [is_sufficient_content(text)] for a [str] argument. *)
Definition is_sufficient_content (text : string) : bool :=
  if is_empty text then false
  else
    let clean_text := lower (strip text) in
    if len clean_text <? MIN_CONTENT_WORDS then false
    else if contains "no useful content" clean_text
            || contains "not found" clean_text then false
    else true.

End Sufficiency.

(** ** modules/filter.py *)

Module FilterModule.
Import PyStr Helpers Sufficiency.

(** The two exceptions of modules/exceptions that the filter raises, with
    their [topic]. *)
Inductive filter_error :=
| SearchBlockedError (topic : string)
| InsufficientContentError (topic : string).

(** [clean(text)]; [None] is Python's [None]. *)
Definition clean (text : string) : option string :=
  if is_empty text then None
  else
    let text := join " " (split text) in
    if len text <? 200 then None else Some text.

(** [filter_insufficient_and_blocked_content(content, topic)]: [inr true]
    is the returned [True]. *)
Definition filter_insufficient_and_blocked_content (content topic : string)
  : filter_error + bool :=
  if is_search_blocked content then inl (SearchBlockedError topic)
  else if negb (is_sufficient_content content) then inl (InsufficientContentError topic)
  else inr true.

(** The loop of [filter_page_contents]: the parts appended, in the order of
    the pages.  A page is a [dict]; [page.get("content", " ")] is a blank
    for a page without the key. *)
Fixpoint clean_parts (pages : list (gmap string string)) : list string :=
  match pages with
  | [] => []
  | page :: rest =>
      match clean (default " " (page !! "content")) with
      | Some cleaned => if truthy cleaned then cleaned :: clean_parts rest
                        else clean_parts rest
      | None => clean_parts rest
      end
  end.

Definition filter_page_contents (pages : list (gmap string string))
    (topic : string) : filter_error + string :=
  let content := join " " (clean_parts pages) in
  if negb (is_sufficient_content content) then inl (InsufficientContentError topic)
  else inr content.

End FilterModule.

(** ** modules/search.py and constants/searchTemplates.py *)

(** [urllib.parse.quote_plus] *)
Class UrllibQuote := { quote_plus : string -> string }.

Module Search.
Import PyStr Proxy.

Definition SEARCH_TEMPLATES : gmap string (list string) :=
  list_to_map
    [ ("lead", [ "{topic} company profile";
                 "{topic} services";
                 "{topic} CEO founder";
                 "hiring";
                 "{topic} LinkedIn";
                 "Instagram";
                 "Facebook" ]);
      ("research", [ "What is {topic}";
                     "{topic} latest advancements";
                     "{topic} benefits and challenges";
                     "{topic} statistics" ]);
      ("general", [ "{topic} about";
                    "{topic} latest news";
                    "{topic} key updates" ]) ].

Definition DUCK_SEARCH_BASE : string := "https://duckduckgo.com/html/".

(** [_build_queries(topic, mode)]; a [mode] of [None] is no key of the
    table. *)
Definition _build_queries (topic : string) (mode : option string) : string :=
  let fallback := default [] (SEARCH_TEMPLATES !! "general") in
  let templates :=
    match mode with
    | Some m => default fallback (SEARCH_TEMPLATES !! m)
    | None => fallback
    end in
  let queries := (fun t => replace "{topic}" topic t) <$> templates in
  join " + " queries.

(** [str(n)] for an [int]. *)
Definition str_of_int (n : Z) : string :=
  DecimalString.NilZero.string_of_int (Z.to_int n).

Section WithQuote.
Context `{UrllibQuote} `{PyFloat}.

(** [_format_search_url(q, offset)] *)
Definition _format_search_url (q : string) (offset : Z) : string :=
  DUCK_SEARCH_BASE ++ "?q=" ++ quote_plus q ++ "&s=" ++ str_of_int offset.

(** [_fetch(url)]: [proxy.fetch(url)] on the manager of the module, with
    the default [prefer_fast=True]. *)
Definition _fetch (world : nat -> Attempt) (url : string) (s : PM) (fs : Files)
  : FetchEnd :=
  fetch world url true s fs.

(** How [search] ends: the content or the exception, the manager, the
    files and the proxies tried. *)
Record SearchEnd := {
  search_result : outcome string;
  search_manager : PM;
  search_files : Files;
  search_tried : list string
}.

(** [search(topic, mode)]: a ProxyFailureError is raised again with the
    topic in the place of the URL and the text of the first one in its
    message; any other exception passes. *)
Definition search (world : nat -> Attempt) (topic : string) (mode : option string)
    (s : PM) (fs : Files) : SearchEnd :=
  let query := _build_queries topic mode in
  let url := _format_search_url query 0 in
  let e := _fetch world url s fs in
  {| search_result :=
       match returned_value e with
       | Returns (content, resp) => Returns content
       | Raises (ProxyFailureError _ last_error available total no_proxy) =>
           Raises (ProxyFailureError topic last_error available total no_proxy)
       | Raises other => Raises other
       end;
     search_manager := manager e;
     search_files := files e;
     search_tried := tried e |}.

End WithQuote.
End Search.

(** ** utils/helpers.py: the request headers, and constants/userAgents.py *)

Module Headers.
Import PyStr.

Definition USER_AGENTS : list string :=
  [ "Mozilla/5.0 (Windows NT 10.0; Win64; x64) AppleWebKit/537.36 Chrome/122.0 Safari/537.36";
    "Mozilla/5.0 (Windows NT 10.0; Win64; x64) AppleWebKit/537.36 Chrome/120.0 Safari/537.36";
    "Mozilla/5.0 (Macintosh; Intel Mac OS X 13_3) AppleWebKit/537.36 Chrome/122.0 Safari/537.36";
    "Mozilla/5.0 (Windows NT 10.0; Win64; x64; rv:123.0) Gecko/20100101 Firefox/123.0";
    "Mozilla/5.0 (Windows NT 10.0; rv:118.0) Gecko/20100101 Firefox/118.0";
    "Mozilla/5.0 (Macintosh; Intel Mac OS X 12_6) AppleWebKit/605.1.15 Version/16.1 Safari/605.1.15";
    "Mozilla/5.0 (Linux; Android 13; Pixel 7) AppleWebKit/537.36 Chrome/121.0 Mobile Safari/537.36";
    "Mozilla/5.0 (iPhone; CPU iPhone OS 17_0 like Mac OS X) AppleWebKit/605.1.15 Version/17.0 Mobile/15E148 Safari/604.1" ].

(** The randomness of one call: [picks n] determines the element taken by
    the n-th call of [random.choice] (the one at [picks n] modulo the
    length), [flips n] is the outcome of the n-th test
    [random.random() < threshold]. *)
Record Rng := { picks : nat -> nat; flips : nat -> bool }.

(** [random.choice(seq)] for a sequence that is not empty; the default is
    never reached. *)
Definition choose {A} (pick : nat) (seq : list A) (dflt : A) : A :=
  nth (pick mod List.length seq) seq dflt.

(** [choose_ua()] and [choose_lang()], for the n-th call of
    [random.choice]. *)
Definition choose_ua (rng : Rng) (n : nat) : string :=
  choose (picks rng n) USER_AGENTS EmptyString.

Definition choose_lang (rng : Rng) (n : nat) : string :=
  choose (picks rng n)
    [ "en-US,en;q=0.9"; "en-GB,en;q=0.8"; "en-CA,en;q=0.8"; "en-AU,en;q=0.8";
      "en-IN,en;q=0.8" ] EmptyString.

(** [search_headers(block_resources)]: the values of the dict are [str] or
    [None] until the last line removes the entries that are [None]. *)
Definition search_headers (rng : Rng) (block_resources : bool)
  : gmap string string :=
  let ua := choose_ua rng 0 in
  let lang := choose_lang rng 1 in
  let '(accept_header, n) :=
    if block_resources
    then ("text/html,application/xhtml+xml,application/xml;q=0.9,text/plain;q=0.8", 2%nat)
    else (choose (picks rng 2)
            [ "text/html,application/xhtml+xml,application/xml;q=0.9,*/*;q=0.8";
              "text/html,application/xml;q=0.9,image/webp,*/*;q=0.8" ] EmptyString,
          3%nat) in
  let headers : gmap string (option string) :=
    list_to_map
      [ ("User-Agent", Some ua);
        ("Accept-Language", Some lang);
        ("Accept", Some accept_header);
        ("Cache-Control",
         Some (choose (picks rng n) ["max-age=0"; "no-cache"; "no-store"] EmptyString));
        ("Accept-Encoding",
         Some (choose (picks rng (n + 1)) ["gzip, deflate, br"; "gzip, deflate"]
                 EmptyString));
        ("Upgrade-Insecure-Requests",
         choose (picks rng (n + 2)) [Some "1"; None] None);
        ("Sec-Fetch-Site",
         Some (choose (picks rng (n + 3)) ["same-origin"; "none"; "cross-site"]
                 EmptyString));
        ("Sec-Fetch-Mode",
         Some (choose (picks rng (n + 4)) ["navigate"; "no-cors"] EmptyString));
        ("Sec-Fetch-User", choose (picks rng (n + 5)) [Some "?1"; None] None);
        ("Sec-Fetch-Dest",
         Some (choose (picks rng (n + 6)) ["document"; "empty"] EmptyString));
        ("Connection",
         Some (choose (picks rng (n + 7)) ["keep-alive"; "close"] EmptyString)) ] in
  let n := (n + 8)%nat in
  let '(headers, n) :=
    if flips rng 0
    then (<["Referer" :=
             Some (choose (picks rng n)
                     [ "https://duckduckgo.com/"; "https://www.google.com/";
                       "https://www.bing.com/"; "https://search.brave.com/" ]
                     EmptyString)]> headers, S n)
    else (headers, n) in
  let headers :=
    if flips rng 1
    then <["DNT" := Some (choose (picks rng n) ["1"; "0"] EmptyString)]> headers
    else headers in
  let headers :=
    if flips rng 2 then <["Pragma" := Some "no-cache"]> headers else headers in
  let headers :=
    if flips rng 3 then <["TE" := Some "trailers"]> headers else headers in
  omap id headers.

End Headers.

(** ** Small concrete models of the library interfaces

    They serve the examples: a parser that knows a few documents by name, a
    float type restricted to whole numbers, a urllib that finds no query. *)

Module Models.
Import PyStr.

(** A tag: its attributes, its stripped text and the text of the anchor
    that follows it in the document, if any. *)
Record ToyTag := {
  attributes : list (string * string);
  inner_text : string;
  next_anchor : option string
}.

Definition attribute (t : ToyTag) (name : string) : option string :=
  snd <$> List.find (fun kv => String.eqb (fst kv) name) (attributes t).

Definition anchor (href text next : string) : ToyTag :=
  {| attributes := [("class", "result__a"); ("href", href)];
     inner_text := text; next_anchor := Some next |}.

Definition paragraph (text : string) : ToyTag :=
  {| attributes := []; inner_text := text; next_anchor := None |}.

(** A parsed document: the tags that each selector matches. *)
Definition ToySoup : Type := string -> list ToyTag.

(** A results page with two result anchors. *)
Definition results_page : ToySoup := fun selector =>
  if String.eqb selector "a.result__a" then
    [ anchor "https://one.example/" "One" "first snippet";
      anchor "https://two.example/" "Two" "second snippet" ]
  else [].

(** A page whose only text node is a short fragment with a boilerplate
    word and a topical keyword. *)
Definition short_page : ToySoup := fun selector =>
  if String.eqb selector "p, div" then [ paragraph "login services" ] else [].

Definition empty_page : ToySoup := fun _ => [].

#[global] Instance toy_bs4 : Bs4 := {|
  Soup := ToySoup;
  Tag := ToyTag;
  BeautifulSoup := fun html =>
    if String.eqb html "RESULTS" then Returns results_page
    else if String.eqb html "SHORT" then Returns short_page
    else if String.eqb html "BROKEN" then Raises ParserError
    else Returns empty_page;
  select := fun soup selector => soup selector;
  tag_get := attribute;
  get_text := inner_text;
  find_next := fun t _ => paragraph <$> next_anchor t
|}.

#[global] Instance toy_urllib : Urllib := {|
  url_query := fun _ => Returns EmptyString;
  parse_qs := fun _ => ∅;
  unquote := fun s => s
|}.

(** Floats restricted to the whole numbers written in decimal digits. *)
Definition digit (c : ascii) : option Z :=
  if between 48 57 (code c) then Some (Z.of_nat (code c) - 48) else None.

Fixpoint digits (acc : Z) (s : string) : option Z :=
  match s with
  | EmptyString => Some acc
  | String c s' =>
      match digit c with
      | Some d => digits (10 * acc + d) s'
      | None => None
      end
  end.

Definition whole_number (s : string) : option Z :=
  if is_empty s then None else digits 0 s.

#[global] Instance whole_floats : PyFloat := {|
  Float := Z;
  float_zero := 0;
  float_of_str := whole_number;
  float_lt := Z.ltb
|}.

(** A network for the scraper: one page that answers, one that times out
    twice, one that answers with an error status. *)
Definition toy_session_get (url : string) (tier : nat) : Scraper.get_result :=
  if String.eqb url "https://one.example/" then
    Scraper.GotResponse
      {| Scraper.status_code := 200; Scraper.content_length := Some "5";
         Scraper.text := Scraper.Body "SHORT" |}
  else if String.eqb url "https://two.example/" then Scraper.GetTimeout
  else
    Scraper.GotResponse
      {| Scraper.status_code := 404; Scraper.content_length := None;
         Scraper.text := Scraper.Body "RESULTS" |}.

Definition toy_links : list Scraper.Link :=
  [ {| Scraper.url := "https://two.example/"; Scraper.title := "Two";
       Scraper.snippet := "second snippet" |};
    {| Scraper.url := "https://one.example/"; Scraper.title := "One";
       Scraper.snippet := "first snippet" |} ].

(** A catalogue with three working rows, and one with a row that failed
    earlier. *)
Definition catalogue_row (host latency state : string) : list string :=
  [host; "1080"; "NL"; "Amsterdam"; "ExampleNet"; latency; state;
   "2025-01-01 00:00:00"].

Definition three_working : list (list string) :=
  [ Proxy.fieldnames;
    catalogue_row "10.0.0.1" "30" "working";
    catalogue_row "10.0.0.2" "10" "working";
    catalogue_row "10.0.0.3" "20" "working" ].

Definition two_working_one_failed : list (list string) :=
  [ Proxy.fieldnames;
    catalogue_row "10.0.0.1" "30" "working";
    catalogue_row "10.0.0.9" "5" "failed";
    catalogue_row "10.0.0.2" "10" "working" ].

(** A catalogue whose only working row lacks its host. *)
Definition working_without_host : list (list string) :=
  [ Proxy.fieldnames; catalogue_row "" "30" "working" ].

(** Files on a file system where every backup copy is made. *)
Definition only_catalogue (content : list (list string)) : Proxy.Files :=
  {| Proxy.csv_file := Some content; Proxy.backup_file := None;
     Proxy.temp_file := None; Proxy.backup_copies := fun _ => Proxy.Copied |}.

Definition no_files : Proxy.Files :=
  {| Proxy.csv_file := None; Proxy.backup_file := None; Proxy.temp_file := None;
     Proxy.backup_copies := fun _ => Proxy.Copied |}.

Definition endpoint (host : string) : string := "socks5://" ++ host ++ ":1080".

(** Every attempt takes the first of the fastest candidates. *)
Definition first_fastest : Proxy.Dice := {| Proxy.coin := true; Proxy.pick := 0 |}.

(** A world in which every proxy answers with the same response. *)
Definition always (status : Z) (body : string) (attempt : nat) : Proxy.Attempt :=
  {| Proxy.dice := first_fastest;
     Proxy.requests_get := fun _ _ =>
       Proxy.Got {| Proxy.status_code := status; Proxy.text := body |} |}.

(** A world in which only 10.0.0.1 gets through; the others answer 503. *)
Definition only_first_host (attempt : nat) : Proxy.Attempt :=
  {| Proxy.dice := first_fastest;
     Proxy.requests_get := fun _ proxy =>
       if String.eqb proxy (endpoint "10.0.0.1")
       then Proxy.Got {| Proxy.status_code := 200; Proxy.text := "<html>results</html>" |}
       else Proxy.Got {| Proxy.status_code := 503; Proxy.text := EmptyString |} |}.

(** The manager of the module: [ProxyManager(max_retries=3,
    min_proxies_threshold=10)] over the given files. *)
Definition manager_over (PROXIES : list string) (fs : Proxy.Files) : Proxy.PM :=
  Proxy.init PROXIES fs 3 10.

Definition three_files : Proxy.Files := only_catalogue three_working.
Definition three_manager : Proxy.PM := manager_over [] three_files.

Definition mixed_files : Proxy.Files := only_catalogue two_working_one_failed.
Definition mixed_manager : Proxy.PM := manager_over [] mixed_files.

(** The three endpoints of [three_manager], all quarantined. *)
Definition all_quarantined : Proxy.PM :=
  Proxy.set_bad_proxies
    {[ endpoint "10.0.0.1"; endpoint "10.0.0.2"; endpoint "10.0.0.3" ]}
    three_manager.

Definition search_url : string := "https://duckduckgo.com/html/?q=acme&s=0".
Definition about_url : string := "https://example.org/about".

End Models.

(** ** Further concrete models: a text with irregular white space, a
    [quote_plus] that knows the space, a manager over the built-in list *)

Module MoreModels.
Import PyStr Models.

Definition wordy_text : string :=
  Eval cbv in
    "  Acme  Robotics  builds  warehouse  automation  for  region"
    ++ "al  distributors  and  offers integration   services   to   "
    ++ "clients   across   three   countries   while   its   founder"
    ++ "   keeps   leading   product   design   and   the   company "
    ++ "  reports   steady   funding   from   two   investors   sinc"
    ++ "e   the   spring   of   last   year   ".

Definition tidy_text : string :=
  Eval cbv in
    "Acme Robotics builds warehouse automation for regional distr"
    ++ "ibutors and offers integration services to clients across th"
    ++ "ree countries while its founder keeps leading product design"
    ++ " and the company reports steady funding from two investors s"
    ++ "ince the spring of last year".

(** Two scraped pages, as the dicts of [_scrape_single_link]: one with
    enough content, one with a few words. *)
Definition wordy_page : gmap string string :=
  list_to_map [ ("url", "https://one.example/"); ("title", "One");
                ("snippet", "first snippet"); ("content", wordy_text) ].

Definition thin_page : gmap string string :=
  list_to_map [ ("url", "https://two.example/"); ("title", "Two");
                ("snippet", "second snippet"); ("content", "login services") ].

#[global] Instance toy_quote : UrllibQuote := {|
  quote_plus := replace " " "+"
|}.

Definition builtin_endpoint : string := "socks5://198.51.100.7:1080".

(** The record that the built-in list gives for its endpoint. *)
Definition builtin_record : Proxy.ProxyRecord :=
  {| Proxy.url := builtin_endpoint;
     Proxy.ip := "198.51.100.7";
     Proxy.port := "1080";
     Proxy.country := Some "Unknown";
     Proxy.city := Some "Unknown";
     Proxy.isp := Some "Unknown";
     Proxy.response_time_ms := 0;
     Proxy.status := "working";
     Proxy.tested_at := Some EmptyString;
     Proxy.row := None |}.

(** A catalogue with a working row and a line that stops after the host. *)
Definition working_and_short : list (list string) :=
  [ Proxy.fieldnames; catalogue_row "10.0.0.1" "30" "working"; ["10.0.0.5"] ].

(** A catalogue with the columns of host and port alone. *)
Definition without_status_column : list (list string) :=
  [ ["ip"; "port"]; ["10.0.0.1"; "1080"] ].

(** A catalogue with a working row and a row whose status has a space
    before it. *)
Definition working_and_padded : list (list string) :=
  [ Proxy.fieldnames;
    catalogue_row "10.0.0.1" "30" "working";
    catalogue_row "10.0.0.2" "10" " working" ].

(** A catalogue with white space around the host and the status, and the
    record made from its row. *)
Definition padded_catalogue : list (list string) :=
  [ Proxy.fieldnames; catalogue_row " 10.0.0.2 " "10" " working" ].

Definition padded_record : Proxy.ProxyRecord :=
  {| Proxy.url := endpoint "10.0.0.2";
     Proxy.ip := "10.0.0.2";
     Proxy.port := "1080";
     Proxy.country := Some "NL";
     Proxy.city := Some "Amsterdam";
     Proxy.isp := Some "ExampleNet";
     Proxy.response_time_ms := 10;
     Proxy.status := "working";
     Proxy.tested_at := Some "2025-01-01 00:00:00";
     Proxy.row :=
       Some (Proxy.dict_row Proxy.fieldnames
               (catalogue_row " 10.0.0.2 " "10" " working")) |}.

(** The three working proxies on a file system that refuses the first
    backup copy and leaves the backup path empty. *)
Definition three_files_no_backup : Proxy.Files :=
  {| Proxy.csv_file := Some three_working; Proxy.backup_file := None;
     Proxy.temp_file := None;
     Proxy.backup_copies := fun n =>
       match n with
       | O => Proxy.CopyFailed None
       | S _ => Proxy.Copied
       end |}.

(** The manager of the module when no catalogue exists. *)
Definition builtin_manager : Proxy.PM := manager_over [builtin_endpoint] no_files.

(** A generator that takes the elements in turn and lets every second
    test succeed. *)
Definition turn_by_turn : Headers.Rng :=
  {| Headers.picks := fun n => n; Headers.flips := Nat.even |}.

End MoreModels.

(** * The vocabulary of the properties *)

Section ScraperVocabulary.
Import PyStr Helpers Scraper.
Context `{Bs4} `{Urllib}.

(** The link that the loop of [extract_links] appends for an anchor, when it
    appends one. *)
Definition link_of (a : Tag) : option Link :=
  match tag_get a "href" with
  | None => None
  | Some href =>
      if is_empty href then None
      else
        match extract_real_url href with
        | Returns real =>
            Some {| url := real; title := get_text a;
                    snippet := match find_next a "a" with
                               | Some snippet_el => get_text snippet_el
                               | None => EmptyString
                               end |}
        | Raises _ => None
        end
  end.

End ScraperVocabulary.

Section ProxyVocabulary.
Import PyStr Helpers Proxy.
Context `{PyFloat}.

(** The invariant that [__init__] and [reload_proxies] establish and that
    no method breaks: [proxies] lists the endpoints of [proxy_data]. *)
Definition directory_ok (s : PM) : Prop := proxies s = url <$> proxy_data s.

(** The candidates of [get_proxy] and the manager it leaves. *)
Definition candidates (s : PM) : list ProxyRecord :=
  match filter (fun p => url p ∉ bad_proxies s) (proxy_data s) with
  | [] => proxy_data s
  | available => available
  end.

Definition after_selection (s : PM) : PM :=
  match filter (fun p => url p ∉ bad_proxies s) (proxy_data s) with
  | [] => set_bad_proxies ∅ s
  | _ => s
  end.

(** The manager between the bookkeeping of [mark_proxy_bad] and its call
    of [_save_proxies_to_csv]. *)
Definition quarantined (s : PM) (proxy : string) : PM :=
  let s1 := set_stats (add_marked_bad (stats s))
              (set_bad_proxies ({[proxy]} ∪ bad_proxies s) s) in
  match list_find (fun p => url p = proxy) (proxy_data s) with
  | Some (i, p) => set_proxy_data (<[i := set_failed p]> (proxy_data s1)) s1
  | None => s1
  end.

(** The record that [mark_proxy_bad] finds has a row: the record has
    catalogue provenance. *)
Definition from_catalogue (s : PM) (proxy : string) : Prop :=
  exists i p r, list_find (fun q => url q = proxy) (proxy_data s) = Some (i, p)
                /\ row p = Some r.

(** p is not slower than q, as the sort sees it: not [q < p]. *)
Definition time_le (p q : ProxyRecord) : Prop :=
  float_lt (response_time_ms q) (response_time_ms p) = false.

(** [<] orders the given keys: it is asymmetric and its complement is
    transitive on them.  Floats other than NaN are ordered so. *)
Definition orders (keys : list Float) : Prop :=
  (forall a b, a ∈ keys -> b ∈ keys ->
     float_lt a b = true -> float_lt b a = false)
  /\ (forall a b c, a ∈ keys -> b ∈ keys -> c ∈ keys ->
        float_lt b a = false -> float_lt c b = false -> float_lt c a = false).

(** A row that the loop of [_load_proxies] turns into a record: host and
    port are there and the status is "working", all after trimming. *)
Definition eligible (r : Row) : bool :=
  match row_get r "ip" (Some EmptyString),
        row_get r "port" (Some EmptyString),
        row_get r "status" (Some "working") with
  | Some host, Some prt, Some state =>
      truthy (strip host) && truthy (strip prt) && String.eqb (strip state) "working"
  | _, _, _ => false
  end.

(** A row that the loop reads without an exception: the three fields are
    strings, and if the row is eligible its latency parses. *)
Definition readable (r : Row) : Prop :=
  is_Some (row_get r "ip" (Some EmptyString))
  /\ is_Some (row_get r "port" (Some EmptyString))
  /\ is_Some (row_get r "status" (Some "working"))
  /\ (eligible r = true -> exists x, row_response_time r = Returns x).

(** The record of a row, when the row yields one. *)
Definition record_of (r : Row) : option ProxyRecord :=
  match load_row r with
  | Returns o => o
  | Raises _ => None
  end.



(** The status update of [_save_proxies_to_csv] for the quarantine set b. *)
Definition persisted (b : gset string) (p : ProxyRecord) : ProxyRecord :=
  if has_row p && bool_decide (url p ∈ b) then set_failed p else p.



(** A check of [readable] that computes. *)
Definition readableb (r : Row) : bool :=
  bool_decide (is_Some (row_get r "ip" (Some EmptyString)))
  && bool_decide (is_Some (row_get r "port" (Some EmptyString)))
  && bool_decide (is_Some (row_get r "status" (Some "working")))
  && (negb (eligible r) || returned (row_response_time r)).

End ProxyVocabulary.


(** * Further vocabulary *)

Section MoreScraperVocabulary.
Import PyStr Helpers Scraper.
Context `{Bs4} `{Urllib}.

(** The nodes that the cascade of [extract_relevant_content] may look at. *)
Definition selected_texts (soup : Soup) : list string :=
  get_text <$> List.concat ((fun selector => select soup selector) <$> content_selectors).

(** What has been gathered is consistent: the fragments qualify, no
    fragment occurs twice, the set of seen texts is the set of the
    fragments, and the total is the sum of their lengths. *)
Definition gathered_ok (g : Gathered) : Prop :=
  Forall (fun t => qualifies t = true) (useful_content g)
  /\ NoDup (useful_content g)
  /\ (forall t, t ∈ seen_texts g <-> t ∈ useful_content g)
  /\ total_length g = foldr (fun t n => len t + n) 0 (useful_content g).

End MoreScraperVocabulary.

Section MoreStringVocabulary.
Import PyStr.

(** A word of [str.split]: not empty, no white space in it. *)
Definition is_word (w : string) : Prop :=
  w <> EmptyString /\ all_chars (fun c => negb (is_space c)) w = true.

(** A text that [clean] lets through: words separated by one space, at
    least 200 characters in all. *)
Definition cleaned_text (t : string) : Prop :=
  exists ws, ws <> [] /\ Forall is_word ws /\ t = join " " ws /\ 200 <= len t.

End MoreStringVocabulary.

Section MoreProxyVocabulary.
Import PyStr Helpers Proxy.
Context `{PyFloat}.

(** The directory lists the endpoints of its records, none of them
    empty. *)
Definition listed_ok (s : PM) : Prop :=
  directory_ok s /\ Forall (fun u => u <> EmptyString) (proxies s).

(** The record p is the one that the loop of [_load_proxies] makes from
    the row r: its host, port and status are the values of the row with the
    white space around them removed, the status of a row counting as
    "working" when the catalogue has no status column. *)
Definition made_from (p : ProxyRecord) (r : Row) : Prop :=
  exists host prt state,
    row_get r "ip" (Some EmptyString) = Some host
    /\ row_get r "port" (Some EmptyString) = Some prt
    /\ row_get r "status" (Some "working") = Some state
    /\ ip p = strip host /\ ip p <> EmptyString
    /\ port p = strip prt /\ port p <> EmptyString
    /\ status p = strip state /\ status p = "working"
    /\ url p = "socks5://" ++ ip p ++ ":" ++ port p
    /\ row_response_time r = Returns (response_time_ms p)
    /\ row p = Some r.

(** The case in which [_load_proxies] takes the catalogue: the file
    exists, every row can be read and at least one is eligible. *)
Definition catalogue_usable (fs : Files) : Prop :=
  exists file_content,
    csv_file fs = Some file_content
    /\ Forall readable (DictReader file_content)
    /\ Exists (fun r => eligible r = true) (DictReader file_content).

End MoreProxyVocabulary.

Section HeaderVocabulary.
Import PyStr Headers.

(** The names that a header dict can hold. *)
Definition header_names : gset string :=
  list_to_set
    [ "User-Agent"; "Accept-Language"; "Accept"; "Cache-Control";
      "Accept-Encoding"; "Upgrade-Insecure-Requests"; "Sec-Fetch-Site";
      "Sec-Fetch-Mode"; "Sec-Fetch-User"; "Sec-Fetch-Dest"; "Connection";
      "Referer"; "DNT"; "Pragma"; "TE" ].

(** The names that every header dict holds. *)
Definition fixed_header_names : list string :=
  [ "User-Agent"; "Accept-Language"; "Accept"; "Cache-Control";
    "Accept-Encoding"; "Sec-Fetch-Site"; "Sec-Fetch-Mode"; "Sec-Fetch-Dest";
    "Connection" ].

End HeaderVocabulary.

(** * Properties *)

(** ** Strings *)

Section StringFacts.
Import PyStr.

Lemma substring_length_le (n : nat) (s : string) :
  (String.length (String.substring 0 n s) <= n)%nat.
Proof.
  revert s; induction n as [|n IH]; intros [|c s]; simpl; try lia.
  specialize (IH s); lia.
Qed.

Lemma slice_to_len (n : Z) (s : string) :
  0 <= n -> len (slice_to n s) <= n.
Proof.
  intros Hn. unfold slice_to, len.
  destruct (0 <=? n) eqn:E; [|lia].
  pose proof (substring_length_le (Z.to_nat n) s). lia.
Qed.

Lemma is_empty_true (s : string) : is_empty s = true -> s = EmptyString.
Proof. destruct s; simpl; congruence. Qed.

Lemma lower_char_not_upper (c : ascii) : is_upper c = false -> lower_char c = c.
Proof. unfold lower_char. intros ->. reflexivity. Qed.

(** A string without upper-case characters is its own lower-case form, so
    both branches of [contains_keywords] look at [text.lower()]. *)
Lemma lower_no_upper (s : string) :
  all_chars (fun c => negb (is_upper c)) s = true -> lower s = s.
Proof.
  induction s as [|c s IH]; simpl; [reflexivity|].
  intros Hall. apply andb_prop in Hall as [Hc Hs].
  rewrite lower_char_not_upper, IH; auto.
  destruct (is_upper c); simpl in Hc; congruence.
Qed.

Lemma contains_keywords_lower (text : string) :
  Helpers.contains_keywords text
  = existsb (fun k => contains (lower k) (lower text)) Helpers.KEYWORDS.
Proof.
  unfold Helpers.contains_keywords.
  destruct (islower text) eqn:E; simpl; [|reflexivity].
  unfold islower in E. apply andb_prop in E as [E _].
  rewrite (lower_no_upper _ E). reflexivity.
Qed.

End StringFacts.

(** ** The link extractor and the page scraper *)

Section ScraperFacts.
Import PyStr Helpers Scraper.
Context `{Bs4} `{Urllib}.

(** Document order and short-circuit: what the loop returns is what it had,
    followed by the links of an initial segment of the anchors; when anchors
    remain after that segment the loop has stopped at the cap, and what
    follows the segment does not matter. *)
Lemma collect_links_prefix (max_links : Z) (results : list Tag) :
  forall out out',
    collect_links max_links results out = Returns out' ->
    exists visited rest,
      results = (visited ++ rest)%list
      /\ out' = (out ++ omap link_of visited)%list
      /\ (rest <> [] ->
          forall rest', collect_links max_links (visited ++ rest')%list out
                        = Returns out').
Proof.
  induction results as [|a results IH]; intros out out' Hrun; simpl in Hrun.
  - inversion Hrun; subst. exists [], []. simpl.
    rewrite app_nil_r. repeat split; auto. congruence.
  - assert (Hskip : link_of a = None ->
              collect_links max_links results out = Returns out' ->
              (forall rest', collect_links max_links (a :: rest') out
                             = collect_links max_links rest' out) ->
              exists visited rest,
                a :: results = (visited ++ rest)%list
                /\ out' = (out ++ omap link_of visited)%list
                /\ (rest <> [] ->
                    forall rest', collect_links max_links (visited ++ rest')%list out
                                  = Returns out')).
    { intros Hnone Hrest Hstep.
      destruct (IH _ _ Hrest) as (visited & rest & -> & -> & Hcut).
      exists (a :: visited), rest. simpl. rewrite Hnone.
      repeat split; auto.
      intros Hne rest'. rewrite <- (Hcut Hne rest'). apply Hstep. }
    unfold link_of in Hskip.
    destruct (tag_get a "href") as [href|] eqn:Hhref;
      [|apply Hskip; auto; intros; simpl; rewrite Hhref; reflexivity].
    destruct (is_empty href) eqn:Hempty;
      [apply Hskip; auto; intros; simpl; rewrite Hhref, Hempty; reflexivity|].
    clear Hskip.
    destruct (extract_real_url href) as [real|e] eqn:Hreal; simpl in Hrun;
      [|discriminate].
    set (l := {| url := real; title := get_text a;
                 snippet := match find_next a "a" with
                            | Some snippet_el => get_text snippet_el
                            | None => EmptyString
                            end |}) in *.
    assert (Hl : link_of a = Some l).
    { unfold link_of. rewrite Hhref, Hempty, Hreal. reflexivity. }
    destruct (Z.of_nat (List.length (out ++ [l])) >=? max_links) eqn:Hcap.
    + inversion Hrun; subst out'.
      exists [a], results. simpl. rewrite Hl. repeat split; auto.
      intros _ rest'. rewrite Hhref, Hempty, Hreal. simpl.
      fold l. rewrite Hcap. reflexivity.
    + destruct (IH _ _ Hrun) as (visited & rest & -> & -> & Hcut).
      exists (a :: visited), rest. simpl. rewrite Hl.
      rewrite <- app_assoc. repeat split; auto.
      intros Hne rest'. rewrite Hhref, Hempty, Hreal. simpl.
      fold l. rewrite Hcap. rewrite (Hcut Hne rest'), <- app_assoc. reflexivity.
Qed.

(** The cap holds when it is at least one. *)
Lemma collect_links_cap (max_links : Z) (results : list Tag) :
  forall out out',
    Z.of_nat (List.length out) < max_links ->
    collect_links max_links results out = Returns out' ->
    Z.of_nat (List.length out') <= max_links.
Proof.
  induction results as [|a results IH]; intros out out' Hlt Hrun; simpl in Hrun.
  - inversion Hrun; subst; lia.
  - destruct (tag_get a "href") as [href|]; [|eauto].
    destruct (is_empty href); [eauto|].
    destruct (extract_real_url href) as [real|e]; simpl in Hrun; [|discriminate].
    match type of Hrun with
    | (if ?c then _ else _) = _ => destruct c eqn:Hcap
    end.
    + inversion Hrun; subst out'.
      rewrite length_app. simpl List.length. lia.
    + rewrite Z.geb_leb in Hcap. apply Z.leb_gt in Hcap.
      apply (IH _ _ Hcap Hrun).
Qed.

Lemma extract_links_cap (html : string) (max_links : Z) (out : list Link) :
  1 <= max_links ->
  extract_links html max_links = Returns out ->
  Z.of_nat (List.length out) <= max_links.
Proof.
  unfold extract_links. intros Hpos Hrun.
  destruct (is_empty html || is_search_blocked html).
  - inversion Hrun; subst; simpl; lia.
  - destruct (BeautifulSoup html) as [soup|e]; simpl in Hrun; [|discriminate].
    apply (collect_links_cap max_links (result_anchors soup) [] out);
      [simpl; lia | exact Hrun].
Qed.

Lemma extract_links_document_order (html : string) (max_links : Z) (out : list Link) :
  extract_links html max_links = Returns out ->
  out = []
  \/ exists soup visited rest,
       BeautifulSoup html = Returns soup
       /\ result_anchors soup = (visited ++ rest)%list
       /\ out = omap link_of visited.
Proof.
  unfold extract_links. intros Hrun.
  destruct (is_empty html || is_search_blocked html).
  - left. congruence.
  - destruct (BeautifulSoup html) as [soup|e] eqn:Hsoup; simpl in Hrun; [|discriminate].
    destruct (collect_links_prefix _ _ _ _ Hrun) as (visited & rest & Hres & Hout & _).
    right. exists soup, visited, rest. auto.
Qed.

(** The budget of [extract_relevant_content]. *)
Lemma extract_relevant_content_budget (html : string) (max_chars : Z) (c : string) :
  0 <= max_chars ->
  extract_relevant_content html max_chars = Returns c ->
  len c <= max_chars.
Proof.
  unfold extract_relevant_content. intros Hpos Hrun.
  destruct (is_empty html).
  - inversion Hrun; subst. unfold len; simpl. lia.
  - destruct (BeautifulSoup html) as [soup|e]; simpl in Hrun; [|discriminate].
    inversion Hrun as [Hc]; clear Hrun.
    match goal with
    | |- context [if ?c then _ else _] => destruct c eqn:Hgt
    end.
    + apply slice_to_len; assumption.
    + lia.
Qed.

(** The scan only appends to what has been gathered. *)
Lemma scan_paragraphs_extends (max_chars : Z) (paragraphs : list Tag) :
  forall g, exists more,
    useful_content (scan_paragraphs max_chars paragraphs g)
    = (useful_content g ++ more)%list.
Proof.
  induction paragraphs as [|p rest IH]; intros g; simpl.
  - exists []. rewrite app_nil_r. reflexivity.
  - destruct (negb (qualifies (get_text p))); [apply IH|].
    destruct (bool_decide (get_text p ∈ seen_texts g)); [apply IH|].
    match goal with
    | |- context [if ?c then _ else _] => destruct c
    end.
    + exists [get_text p]. reflexivity.
    + match goal with
      | |- context [scan_paragraphs _ _ ?g'] => destruct (IH g') as [more Hmore]
      end.
      exists (get_text p :: more). rewrite Hmore. simpl.
      rewrite <- app_assoc. reflexivity.
Qed.

(** C10.  A text of fewer than five white-space separated words is never
    navigational, whatever phrase it contains.  For such a text the two
    filters of [extract_relevant_content] that precede the duplicate test
    come down to the ten-character minimum and the keyword test, and a node
    with such a text that passes both and was not seen before is appended
    to the extracted content. *)
Theorem short_fragment_not_navigational (text : string) :
  (List.length (split text) < 5)%nat ->
  is_navigational_content text 5 = false
  /\ (qualifies text = true
      <-> 10 <= len text /\ contains_keywords (lower text) = true)
  /\ (forall (p : Tag) (rest : list Tag) (g : Gathered) (max_chars : Z),
        get_text p = text ->
        10 <= len text -> contains_keywords (lower text) = true ->
        text ∉ seen_texts g ->
        exists more,
          useful_content (scan_paragraphs max_chars (p :: rest) g)
          = (useful_content g ++ text :: more)%list).
Proof.
  intros Hwords.
  assert (Hnav : is_navigational_content text 5 = false).
  { unfold is_navigational_content.
    destruct (Z.of_nat (List.length (split text)) <? 5) eqn:E; [reflexivity|].
    apply Z.ltb_ge in E. lia. }
  assert (Hq : qualifies text = true
               <-> 10 <= len text /\ contains_keywords (lower text) = true).
  { unfold qualifies. rewrite Hnav. simpl.
    destruct (is_empty text) eqn:Hempty; simpl.
    - apply is_empty_true in Hempty. subst text. unfold len; simpl.
      split; [discriminate | intros [Hlen _]; lia].
    - destruct (len text <? 10) eqn:Hlen;
        [apply Z.ltb_lt in Hlen | apply Z.ltb_ge in Hlen].
      + split; [discriminate | intros [Hge _]; lia].
      + destruct (contains_keywords (lower text)); simpl;
          split; auto; intros [_ Habs]; discriminate. }
  repeat split; try apply Hq; auto.
  intros p rest g max_chars Hp Hlen Hkw Hseen. simpl. rewrite Hp.
  assert (Hqt : qualifies text = true) by (apply Hq; auto).
  rewrite Hqt. simpl.
  rewrite bool_decide_eq_false_2 by exact Hseen.
  match goal with
  | |- context [if ?c then _ else _] => destruct c
  end.
  - exists []. reflexivity.
  - match goal with
    | |- context [scan_paragraphs _ _ ?g'] =>
        destruct (scan_paragraphs_extends max_chars rest g') as [more Hmore]
    end.
    exists more. rewrite Hmore. simpl. rewrite <- app_assoc. reflexivity.
Qed.

Section Batch.
Variable session_get : string -> nat -> get_result.
Variable py_int : string -> option Z.
Variable as_completed :
  Z -> list (Link * option ScrapedPage) -> list (Link * option ScrapedPage).

Local Abbreviation scrape_one := (_scrape_single_link session_get py_int).

Lemma scrape_single_link_page (link : Link) (pg : ScrapedPage) :
  scrape_one link = Some pg ->
  page_url pg = url link /\ len (content pg) <= 2000 /\ content pg <> EmptyString.
Proof.
  unfold _scrape_single_link. intros Hrun.
  destruct (is_empty (_fetch_with_session session_get py_int (url link))); [discriminate|].
  destruct (extract_relevant_content _ 2000) as [c|e] eqn:Hc; [|discriminate].
  destruct (truthy c) eqn:Ht; [|discriminate].
  inversion Hrun; subst; simpl. repeat split.
  - eapply extract_relevant_content_budget; [lia | exact Hc].
  - intros ->. discriminate.
Qed.

(** A page whose fetch yields nothing, or whose extraction raises or yields
    nothing, produces [None]. *)
Lemma scrape_single_link_failure (link : Link) :
  let html := _fetch_with_session session_get py_int (url link) in
  html = EmptyString
  \/ (exists e, extract_relevant_content html 2000 = Raises e)
  \/ extract_relevant_content html 2000 = Returns EmptyString ->
  scrape_one link = None.
Proof.
  unfold _scrape_single_link. intros [Hh | [[e He] | He]].
  - rewrite Hh. reflexivity.
  - rewrite He. destruct (is_empty _); reflexivity.
  - rewrite He. destruct (is_empty _); reflexivity.
Qed.

Lemma omap_snd_scraped (links : list Link) :
  omap snd (map (fun link => (link, scrape_one link)) links)
  = omap scrape_one links.
Proof.
  induction links as [|l links IH]; [reflexivity|].
  cbn. destruct (scrape_one l); cbn; [f_equal|]; exact IH.
Qed.

(** C9.  Whatever the links and the worker count, and whatever the order
    in which the futures complete: when [scrape_links_content] returns, its
    pages are exactly the pages of the links that [_scrape_single_link]
    could scrape, in some order, so every page has the URL of an input link
    and a content of at most 2000 characters, and a link whose fetch or
    extraction fails contributes nothing.  It returns whenever there is no
    link or the worker count is positive; the only exception it can raise
    is the ValueError of a pool of size zero or less, which no page
    causes. *)
Theorem scrape_links_content_subset_bounded
    (links : list Link) (max_workers : Z) :
  (forall w futures, as_completed w futures ≡ₚ futures) ->
  match scrape_links_content session_get py_int as_completed links max_workers with
  | Returns out =>
      out ≡ₚ omap scrape_one links
      /\ Forall (fun pg => page_url pg ∈ url <$> links
                           /\ len (content pg) <= 2000
                           /\ exists link, link ∈ links
                                           /\ scrape_one link = Some pg) out
  | Raises e => e = ValueError /\ links <> [] /\ max_workers <= 0
  end
  /\ (links = [] \/ 0 < max_workers ->
      returned (scrape_links_content session_get py_int as_completed
                  links max_workers) = true).
Proof.
  intros Hperm. unfold scrape_links_content.
  destruct links as [|l0 links].
  { simpl. repeat split; auto. }
  set (all := l0 :: links).
  destruct (Z.min max_workers (Z.of_nat (List.length all)) <=? 0) eqn:Hw.
  { split.
    - repeat split; [discriminate|].
      apply Z.leb_le in Hw. subst all. simpl List.length in Hw. lia.
    - intros [Hnil | Hpos]; [discriminate|].
      apply Z.leb_le in Hw. subst all. simpl List.length in Hw. lia. }
  split; [|reflexivity].
  assert (Hout : omap snd (as_completed (Z.min max_workers (Z.of_nat (List.length all)))
                             (map (fun link => (link, scrape_one link)) all))
                 ≡ₚ omap scrape_one all).
  { rewrite <- omap_snd_scraped. apply omap_Permutation, Hperm. }
  assert (Hfrom : forall pg,
            pg ∈ omap scrape_one all ->
            exists link, link ∈ all /\ scrape_one link = Some pg).
  { intros pg Hin. apply list_elem_of_omap in Hin. exact Hin. }
  repeat split.
  - exact Hout.
  - apply Forall_forall. intros pg Hin. rewrite Hout in Hin.
    destruct (Hfrom pg Hin) as (link & Hlink & Hpg).
    destruct (scrape_single_link_page _ _ Hpg) as (Hurl & Hlen & _).
    split; [|split; [exact Hlen | exists link; auto]].
    rewrite Hurl. apply list_elem_of_fmap. exists link. auto.
Qed.

End Batch.
End ScraperFacts.

(** ** The scraper on the concrete models *)

Section ScraperExamples.
Import PyStr Helpers Scraper Models.

(** C4.  With a cap of zero, or a negative one, [extract_links] returns one
    entry for a results page with two result anchors: the cap is tested
    only after an entry has been appended. *)
Theorem extract_links_zero_cap :
  extract_links "RESULTS" 0
  = Returns [ {| url := "https://one.example/"; title := "One";
                 snippet := "first snippet" |} ]
  /\ extract_links "RESULTS" (-3)
     = Returns [ {| url := "https://one.example/"; title := "One";
                    snippet := "first snippet" |} ].
Proof. split; reflexivity. Qed.

Example extract_links_cap_one :
  extract_links "RESULTS" 1
  = Returns [ {| url := "https://one.example/"; title := "One";
                 snippet := "first snippet" |} ].
Proof. reflexivity. Qed.

Example extract_links_blocked_page :
  extract_links "Please solve this CAPTCHA" 5 = Returns [].
Proof. reflexivity. Qed.

(** The theorem at the fragment "login services". *)
Lemma short_fragment_not_navigational_witness :
  (List.length (split "login services") < 5)%nat
  /\ is_navigational_content "login services" 5 = false
  /\ qualifies "login services" = true.
Proof.
  assert (Hw : (List.length (split "login services") < 5)%nat)
    by (vm_compute; lia).
  destruct (short_fragment_not_navigational "login services" Hw)
    as (Hnav & Hq & _).
  split; [exact Hw|]. split; [exact Hnav|].
  apply Hq. split; [vm_compute; discriminate | reflexivity].
Defined.

(** The phrase is there, and with five words the same phrase makes the
    text navigational. *)
Example short_fragment_is_extracted :
  re_search_navigational "login services" = true
  /\ is_navigational_content "please login to our services" 5 = true
  /\ extract_relevant_content "SHORT" 2000 = Returns "login services".
Proof. repeat split; reflexivity. Qed.

(** The theorem at two links, one of which times out twice. *)
Lemma scrape_links_content_witness :
  (forall (w : Z) (futures : list (Link * option ScrapedPage)),
      (fun _ l => l) w futures ≡ₚ futures)
  /\ scrape_links_content toy_session_get whole_number (fun _ l => l) toy_links 10
     = Returns [ {| page_url := "https://one.example/"; page_title := "One";
                    page_snippet := "first snippet";
                    content := "login services" |} ]
  /\ returned (scrape_links_content toy_session_get whole_number (fun _ l => l)
                 toy_links 10) = true.
Proof.
  assert (Hperm : forall (w : Z) (futures : list (Link * option ScrapedPage)),
             (fun _ l => l) w futures ≡ₚ futures) by (intros; reflexivity).
  split; [exact Hperm|].
  split; [reflexivity|].
  apply (scrape_links_content_subset_bounded toy_session_get whole_number
           (fun _ l => l) toy_links 10 Hperm).
  right. lia.
Defined.

Example scrape_links_content_no_workers :
  scrape_links_content toy_session_get whole_number (fun _ l => l) toy_links 0
  = Raises ValueError.
Proof. reflexivity. Qed.

End ScraperExamples.

(** ** The proxy manager *)

Section ProxyFacts.
Import PyStr Helpers Proxy.
Context `{PyFloat}.

Lemma directory_ok_init (PROXIES : list string) (fs : Files) (r t : Z) :
  directory_ok (init PROXIES fs r t).
Proof. reflexivity. Qed.

Lemma directory_ok_reload (PROXIES : list string) (s : PM) (fs : Files) :
  directory_ok (reload_proxies PROXIES s fs).2.
Proof. reflexivity. Qed.

(** *** Selection *)

Lemma choice_member {A} (d : Dice) (l : list A) :
  l <> [] -> exists x, choice d l = Returns x /\ x ∈ l.
Proof.
  intros Hne. unfold choice.
  assert (Hlt : (pick d mod List.length l < List.length l)%nat).
  { apply Nat.mod_upper_bound. destruct l; [congruence | simpl; lia]. }
  destruct (lookup_lt_is_Some_2 l _ Hlt) as [x Hx].
  rewrite Hx. exists x. split; [reflexivity|].
  eapply list_elem_of_lookup_2, Hx.
Qed.

Lemma take_top_nonempty {A} (l : list A) :
  l <> [] -> take (Nat.max 1 (List.length l / 3)) l <> [].
Proof.
  destruct l as [|x l]; [congruence|]. intros _.
  destruct (Nat.max 1 (List.length (x :: l) / 3)) eqn:E; [lia|].
  simpl. congruence.
Qed.

Lemma candidates_nonempty (s : PM) : proxy_data s <> [] -> candidates s <> [].
Proof.
  unfold candidates. intros Hne.
  destruct (filter _ (proxy_data s)); [exact Hne | congruence].
Qed.

Lemma candidates_subset (s : PM) (p : ProxyRecord) :
  p ∈ candidates s -> p ∈ proxy_data s.
Proof.
  unfold candidates.
  destruct (filter _ (proxy_data s)) as [|q l] eqn:E; [auto|].
  rewrite <- E. intros Hin. apply list_elem_of_filter in Hin. tauto.
Qed.

Lemma get_proxy_selects (d : Dice) (prefer_fast : bool) (s : PM) :
  directory_ok s -> proxies s <> [] ->
  exists p, p ∈ candidates s
            /\ get_proxy d prefer_fast s
               = (Returns (Some (url p)), after_selection s).
Proof.
  intros Hok Hne. unfold get_proxy, candidates, after_selection.
  destruct (proxies s) as [|u us] eqn:Hp; [congruence|].
  assert (Hdata : proxy_data s <> []).
  { intros Hnil. rewrite Hok, Hnil in Hp. discriminate. }
  set (available := filter (fun p => url p ∉ bad_proxies s) (proxy_data s)).
  assert (Hsel : forall l : list ProxyRecord, l <> [] ->
            exists p, p ∈ l
              /\ (if prefer_fast then
                    if coin d then
                      choice d (take (Nat.max 1 (List.length l / 3)) l)
                    else choice d l
                  else choice d l) = Returns p).
  { intros l Hl.
    destruct prefer_fast; [destruct (coin d)|].
    - destruct (choice_member d _ (take_top_nonempty l Hl)) as (x & Hx & Hin).
      exists x. split; [|exact Hx].
      eapply subseteq_take, Hin.
    - destruct (choice_member d l Hl) as (x & Hx & Hin). eauto.
    - destruct (choice_member d l Hl) as (x & Hx & Hin). eauto. }
  destruct available as [|q l] eqn:Hav.
  - destruct (Hsel _ Hdata) as (p & Hin & Hch).
    exists p. split; [exact Hin|]. rewrite Hch. reflexivity.
  - destruct (Hsel (q :: l) ltac:(congruence)) as (p & Hin & Hch).
    exists p. split; [exact Hin|]. rewrite Hch. reflexivity.
Qed.

(** C1.  In a directory whose [proxies] list mirrors [proxy_data],
    [get_proxy] returns [None] exactly when the list is empty; otherwise it
    returns one of the listed endpoints, and when every record is
    quarantined it empties the quarantine set first. *)
Theorem get_proxy_none_iff_empty (d : Dice) (prefer_fast : bool) (s : PM) :
  directory_ok s ->
  ((get_proxy d prefer_fast s).1 = Returns None <-> proxies s = [])
  /\ (proxies s <> [] ->
      exists u, (get_proxy d prefer_fast s).1 = Returns (Some u)
                /\ u ∈ proxies s)
  /\ (proxies s <> [] ->
      Forall (fun p => url p ∈ bad_proxies s) (proxy_data s) ->
      bad_proxies (get_proxy d prefer_fast s).2 = ∅).
Proof.
  intros Hok.
  assert (Hsome : proxies s <> [] ->
            exists p, p ∈ candidates s
              /\ get_proxy d prefer_fast s
                 = (Returns (Some (url p)), after_selection s))
    by (apply get_proxy_selects; assumption).
  split; [|split].
  - split.
    + intros Hnone. destruct (proxies s) as [|u us] eqn:Hp; [reflexivity|].
      destruct Hsome as (p & _ & Hget); [congruence|].
      rewrite Hget in Hnone. discriminate.
    + intros Hnil. unfold get_proxy. rewrite Hnil. reflexivity.
  - intros Hne. destruct (Hsome Hne) as (p & Hin & Hget).
    exists (url p). rewrite Hget. split; [reflexivity|].
    rewrite Hok. apply list_elem_of_fmap. exists p.
    split; [reflexivity | apply candidates_subset, Hin].
  - intros Hne Hall. destruct (Hsome Hne) as (p & _ & Hget).
    rewrite Hget. simpl. unfold after_selection.
    destruct (filter _ (proxy_data s)) as [|q l] eqn:E; [reflexivity|].
    assert (Hq : q ∈ filter (fun p => url p ∉ bad_proxies s) (proxy_data s))
      by (rewrite E; left).
    apply list_elem_of_filter in Hq as [Hnot Hin].
    rewrite Forall_forall in Hall. destruct (Hnot (Hall q Hin)).
Qed.

(** *** Quarantine and persistence *)

Lemma url_set_failed (p : ProxyRecord) : url (set_failed p) = url p.
Proof. reflexivity. Qed.


Lemma urls_after_update (b : gset string) (l : list ProxyRecord) :
  url <$> ((fun p => if has_row p && bool_decide (url p ∈ b)
                     then set_failed p else p) <$> l)
  = url <$> l.
Proof.
  induction l as [|p l IH]; [reflexivity|].
  rewrite !fmap_cons, IH. f_equal.
  destruct (has_row p && bool_decide (url p ∈ b)); reflexivity.
Qed.

(** What [_save_proxies_to_csv] leaves alone. *)
Lemma save_frame (s : PM) (fs : Files) :
  let s' := (_save_proxies_to_csv s fs).1.2 in
  proxies s' = proxies s
  /\ bad_proxies s' = bad_proxies s
  /\ stats s' = stats s
  /\ max_retries s' = max_retries s
  /\ url <$> proxy_data s' = url <$> proxy_data s.
Proof.
  unfold _save_proxies_to_csv.
  destruct (filter _ (proxy_data s)); [simpl; auto|].
  destruct (write_rows _); simpl; repeat split; apply urls_after_update.
Qed.


Lemma mark_proxy_bad_cases (s : PM) (fs : Files) (proxy : string) :
  (proxy = EmptyString \/ proxy ∈ bad_proxies s) /\ mark_proxy_bad s fs proxy = (s, fs)
  \/ (proxy <> EmptyString /\ (proxy ∉ bad_proxies s) /\ from_catalogue s proxy
      /\ mark_proxy_bad s fs proxy
         = ((_save_proxies_to_csv (quarantined s proxy) fs).1.2,
            (_save_proxies_to_csv (quarantined s proxy) fs).2))
  \/ (proxy <> EmptyString /\ (proxy ∉ bad_proxies s) /\ ~ from_catalogue s proxy
      /\ mark_proxy_bad s fs proxy = (quarantined s proxy, fs)).
Proof.
  unfold mark_proxy_bad, quarantined, from_catalogue.
  destruct (is_empty proxy) eqn:Hempty; simpl.
  { left. split; [left; apply is_empty_true, Hempty | reflexivity]. }
  assert (Hne : proxy <> EmptyString) by (intros ->; discriminate).
  destruct (bool_decide (proxy ∈ bad_proxies s)) eqn:Hbad.
  { left. apply bool_decide_eq_true in Hbad. auto. }
  apply bool_decide_eq_false in Hbad. right.
  destruct (list_find _ (proxy_data s)) as [[i p]|] eqn:Hfind.
  - destruct (has_row p) eqn:Hrow.
    + left. repeat split; auto.
      * unfold has_row in Hrow. destruct (row p) as [r|] eqn:Hr; [|discriminate].
        exists i, p, r. auto.
      * destruct (_save_proxies_to_csv _ fs) as [[b s3] fs']. reflexivity.
    + right. repeat split; auto.
      intros (i' & p' & r & Heq & Hr). inversion Heq; subst.
      unfold has_row in Hrow. rewrite Hr in Hrow. discriminate.
  - right. repeat split; auto.
    intros (i' & p' & r & Heq & _). discriminate.
Qed.

Lemma quarantined_frame (s : PM) (proxy : string) :
  let s' := quarantined s proxy in
  proxies s' = proxies s
  /\ bad_proxies s' = {[proxy]} ∪ bad_proxies s
  /\ stats s' = add_marked_bad (stats s)
  /\ max_retries s' = max_retries s
  /\ url <$> proxy_data s' = url <$> proxy_data s.
Proof.
  unfold quarantined.
  destruct (list_find _ (proxy_data s)) as [[i p]|] eqn:Hfind; simpl;
    repeat split.
  apply list_find_Some in Hfind as (Hi & _ & _).
  rewrite list_fmap_insert, url_set_failed.
  apply list_insert_id. rewrite list_lookup_fmap, Hi. reflexivity.
Qed.

(** What [mark_proxy_bad] does to the parts of the manager that selection
    and accounting read. *)
Lemma mark_proxy_bad_frame (s : PM) (fs : Files) (proxy : string) :
  let s' := (mark_proxy_bad s fs proxy).1 in
  proxies s' = proxies s
  /\ max_retries s' = max_retries s
  /\ url <$> proxy_data s' = url <$> proxy_data s
  /\ total_requests (stats s') = total_requests (stats s)
  /\ successful_requests (stats s') = successful_requests (stats s)
  /\ failed_requests (stats s') = failed_requests (stats s)
  /\ (proxy <> EmptyString -> proxy ∈ bad_proxies s').
Proof.
  pose proof (quarantined_frame s proxy) as (Hq1 & Hq2 & Hq3 & Hq4 & Hq5).
  pose proof (save_frame (quarantined s proxy) fs) as (Hs1 & Hs2 & Hs3 & Hs4 & Hs5).
  destruct (mark_proxy_bad_cases s fs proxy)
    as [[Hskip Heq] | [(Hne & Hfresh & _ & Heq) | (Hne & Hfresh & _ & Heq)]];
    rewrite Heq; simpl.
  - repeat split; auto. intros Hne. destruct Hskip; [congruence | assumption].
  - rewrite Hs1, Hs2, Hs3, Hs4, Hs5, Hq1, Hq2, Hq3, Hq4, Hq5.
    repeat split; auto. intros _. apply elem_of_union_l, elem_of_singleton. reflexivity.
  - rewrite Hq1, Hq2, Hq3, Hq4, Hq5.
    repeat split; auto. intros _. apply elem_of_union_l, elem_of_singleton. reflexivity.
Qed.

Lemma mark_proxy_bad_ok (s : PM) (fs : Files) (proxy : string) :
  directory_ok s -> directory_ok (mark_proxy_bad s fs proxy).1.
Proof.
  unfold directory_ok. intros Hok.
  pose proof (mark_proxy_bad_frame s fs proxy) as (Hp & _ & Hu & _).
  rewrite Hp, Hu. exact Hok.
Qed.

(** C6.  A second [mark_proxy_bad] of the same endpoint changes neither the
    manager nor the files.  The first one, for a non-empty endpoint that is
    not yet quarantined, adds the endpoint to the quarantine set and one to
    the counter; for an endpoint that is already quarantined it changes
    nothing.  The files change only when the record found for the endpoint
    has a row, and in that case [_save_proxies_to_csv] has run on the
    updated manager. *)
Theorem mark_proxy_bad_idempotent (s : PM) (fs : Files) (proxy : string) :
  let once := mark_proxy_bad s fs proxy in
  mark_proxy_bad once.1 once.2 proxy = once
  /\ (proxy <> EmptyString -> proxy ∈ bad_proxies once.1)
  /\ (proxy <> EmptyString -> proxy ∉ bad_proxies s ->
      bad_proxies once.1 = {[proxy]} ∪ bad_proxies s
      /\ proxies_marked_bad (stats once.1) = proxies_marked_bad (stats s) + 1)
  /\ (proxy ∈ bad_proxies s -> once = (s, fs))
  /\ (once.2 <> fs -> from_catalogue s proxy)
  /\ (proxy <> EmptyString -> proxy ∉ bad_proxies s -> from_catalogue s proxy ->
      once = ((_save_proxies_to_csv (quarantined s proxy) fs).1.2,
              (_save_proxies_to_csv (quarantined s proxy) fs).2)).
Proof.
  intros once.
  pose proof (mark_proxy_bad_frame s fs proxy) as (_ & _ & _ & _ & _ & _ & Hin).
  fold once in Hin.
  pose proof (quarantined_frame s proxy) as (_ & Hq2 & Hq3 & _).
  pose proof (save_frame (quarantined s proxy) fs) as (_ & Hs2 & Hs3 & _).
  assert (Hagain : mark_proxy_bad once.1 once.2 proxy = once).
  { destruct (mark_proxy_bad_cases once.1 once.2 proxy)
      as [[_ Heq] | [(Hne & Hfresh & _) | (Hne & Hfresh & _)]].
    - rewrite Heq. destruct once; reflexivity.
    - destruct (Hfresh (Hin Hne)).
    - destruct (Hfresh (Hin Hne)). }
  split; [exact Hagain|]. split; [exact Hin|].
  subst once.
  destruct (mark_proxy_bad_cases s fs proxy)
    as [[Hskip Heq] | [(Hne & Hfresh & Hcat & Heq) | (Hne & Hfresh & Hcat & Heq)]];
    rewrite Heq; simpl.
  - split; [intros Hne Hfresh; destruct Hskip; congruence|].
    split; [reflexivity|].
    split; [congruence|].
    intros Hne Hfresh. destruct Hskip; congruence.
  - rewrite Hs2, Hs3, Hq2, Hq3.
    split; [intros _ _; split; reflexivity|].
    split; [intros Hbad; destruct (Hfresh Hbad)|].
    split; [intros _; exact Hcat|].
    reflexivity.
  - rewrite Hq2, Hq3.
    split; [intros _ _; split; reflexivity|].
    split; [intros Hbad; destruct (Hfresh Hbad)|].
    split; [congruence|].
    intros _ _ Habs. destruct (Hcat Habs).
Qed.

(** *** fetch *)

Lemma get_proxy_ok (d : Dice) (prefer_fast : bool) (s : PM) :
  directory_ok s ->
  exists proxy,
    (get_proxy d prefer_fast s).1 = Returns proxy
    /\ directory_ok (get_proxy d prefer_fast s).2
    /\ stats (get_proxy d prefer_fast s).2 = stats s
    /\ max_retries (get_proxy d prefer_fast s).2 = max_retries s.
Proof.
  intros Hok. destruct (proxies s) as [|u us] eqn:Hp.
  - exists None. unfold get_proxy. rewrite Hp. simpl. auto.
  - destruct (get_proxy_selects d prefer_fast s Hok ltac:(congruence))
      as (p & _ & Hget).
    exists (Some (url p)). rewrite Hget. simpl.
    unfold after_selection.
    destruct (filter _ (proxy_data s)); simpl; auto.
Qed.

(** One turn of the loop, for a chosen endpoint. *)
Lemma attempts_step (world : nat -> Attempt) (target : string) (prefer_fast : bool)
    (budget attempt : nat) (last_error : option attempt_error)
    (s s1 : PM) (fs : Files) (done_so_far : list string) (p : string) :
  get_proxy (dice (world attempt)) prefer_fast s = (Returns (Some p), s1) ->
  p <> EmptyString ->
  attempts world target prefer_fast (S budget) attempt last_error s fs done_so_far
  = match classify target (requests_get (world attempt) target p) with
    | inl err =>
        attempts world target prefer_fast budget (S attempt) (Some err)
          (mark_proxy_bad s1 fs p).1 (mark_proxy_bad s1 fs p).2
          (done_so_far ++ [p])%list
    | inr r =>
        {| returned_value := Returns (text r, r);
           manager := set_stats (add_successful (stats s1)) s1;
           files := fs;
           tried := (done_so_far ++ [p])%list |}
    end.
Proof.
  intros Hget Hne. simpl. rewrite Hget. simpl.
  destruct p as [|c p]; [congruence|]. simpl.
  destruct (classify target _); [|reflexivity].
  destruct (mark_proxy_bad s1 fs (String c p)). reflexivity.
Qed.

(** C2, as the code has it.  In a turn of the loop of [fetch] in which the
    endpoint p was chosen and answered: a response with status 200 that is
    not blocked ends the call at once, with the body as the value, the
    success counter one higher and p the last endpoint tried, whatever
    budget remains; a response with any other status quarantines p and the
    loop goes on with the next attempt. *)
Theorem fetch_attempt_by_status (world : nat -> Attempt) (target : string)
    (prefer_fast : bool) (budget attempt : nat)
    (last_error : option attempt_error) (s s1 : PM) (fs : Files)
    (done_so_far : list string) (p : string) (r : Response) :
  get_proxy (dice (world attempt)) prefer_fast s = (Returns (Some p), s1) ->
  p <> EmptyString ->
  requests_get (world attempt) target p = Got r ->
  (status_code r = 200 ->
   is_duckduckgo target && is_search_blocked (text r) = false ->
   attempts world target prefer_fast (S budget) attempt last_error s fs done_so_far
   = {| returned_value := Returns (text r, r);
        manager := set_stats (add_successful (stats s1)) s1;
        files := fs;
        tried := (done_so_far ++ [p])%list |})
  /\ (status_code r <> 200 ->
      p ∈ bad_proxies (mark_proxy_bad s1 fs p).1
      /\ attempts world target prefer_fast (S budget) attempt last_error s fs
           done_so_far
         = attempts world target prefer_fast budget (S attempt)
             (Some (HTTPStatus (status_code r)))
             (mark_proxy_bad s1 fs p).1 (mark_proxy_bad s1 fs p).2
             (done_so_far ++ [p])%list).
Proof.
  intros Hget Hne Hreply.
  pose proof (attempts_step world target prefer_fast budget attempt last_error
                s s1 fs done_so_far p Hget Hne) as Hstep.
  rewrite Hreply in Hstep. unfold classify in Hstep.
  split.
  - intros Hcode Hfree. rewrite Hstep, Hcode, Hfree. reflexivity.
  - intros Hcode. split.
    + apply mark_proxy_bad_frame, Hne.
    + rewrite Hstep. apply Z.eqb_neq in Hcode. rewrite Hcode. reflexivity.
Qed.

Lemma lower_empty (a : string) : is_empty (lower a) = is_empty a.
Proof. destruct a; reflexivity. Qed.

Lemma lower_lower_char (c : ascii) : lower_char (lower_char c) = lower_char c.
Proof.
  destruct c as [[] [] [] [] [] [] [] []]; reflexivity.
Qed.

Lemma lower_lower (a : string) : lower (lower a) = lower a.
Proof.
  induction a as [|c a IH]; simpl; [reflexivity|].
  rewrite lower_lower_char, IH. reflexivity.
Qed.

(** The block test does not see the case of the letters. *)
Lemma is_search_blocked_lower (body : string) :
  is_search_blocked (lower body) = is_search_blocked body.
Proof.
  unfold is_search_blocked. rewrite lower_empty, lower_lower. reflexivity.
Qed.

(** C3, as the code has it.  In a turn of the loop of [fetch] in which the
    endpoint p answered with status 200 and a body that matches the block
    indicators, letters compared without regard to case: when the URL
    contains duckduckgo.com, p is quarantined and the loop goes on with the
    next attempt; for any other URL the body is returned as a success. *)
Theorem fetch_attempt_blocked (world : nat -> Attempt) (target : string)
    (prefer_fast : bool) (budget attempt : nat)
    (last_error : option attempt_error) (s s1 : PM) (fs : Files)
    (done_so_far : list string) (p : string) (r : Response) :
  get_proxy (dice (world attempt)) prefer_fast s = (Returns (Some p), s1) ->
  p <> EmptyString ->
  requests_get (world attempt) target p = Got r ->
  status_code r = 200 ->
  is_search_blocked (lower (text r)) = true ->
  (is_duckduckgo target = true ->
   p ∈ bad_proxies (mark_proxy_bad s1 fs p).1
   /\ attempts world target prefer_fast (S budget) attempt last_error s fs
        done_so_far
      = attempts world target prefer_fast budget (S attempt) (Some Blocked)
          (mark_proxy_bad s1 fs p).1 (mark_proxy_bad s1 fs p).2
          (done_so_far ++ [p])%list)
  /\ (is_duckduckgo target = false ->
      attempts world target prefer_fast (S budget) attempt last_error s fs
        done_so_far
      = {| returned_value := Returns (text r, r);
           manager := set_stats (add_successful (stats s1)) s1;
           files := fs;
           tried := (done_so_far ++ [p])%list |}).
Proof.
  intros Hget Hne Hreply Hcode Hblocked.
  rewrite is_search_blocked_lower in Hblocked.
  pose proof (attempts_step world target prefer_fast budget attempt last_error
                s s1 fs done_so_far p Hget Hne) as Hstep.
  rewrite Hreply in Hstep. unfold classify in Hstep.
  rewrite Hcode, Hblocked in Hstep. simpl in Hstep.
  split; intros Hddg; rewrite Hddg in Hstep; simpl in Hstep.
  - split; [apply mark_proxy_bad_frame, Hne | exact Hstep].
  - exact Hstep.
Qed.

(** The counters over the loop. *)
Lemma attempts_counters (world : nat -> Attempt) (target : string)
    (prefer_fast : bool) (budget : nat) :
  forall attempt last_error s fs done_so_far,
    directory_ok s ->
    let e := attempts world target prefer_fast budget attempt last_error s fs
               done_so_far in
    total_requests (stats (manager e)) = total_requests (stats s)
    /\ ((exists body r, returned_value e = Returns (body, r)
          /\ successful_requests (stats (manager e))
             = successful_requests (stats s) + 1
          /\ failed_requests (stats (manager e)) = failed_requests (stats s))
        \/ (exists cause available total no_proxy,
              returned_value e
              = Raises (ProxyFailureError target cause available total no_proxy)
              /\ successful_requests (stats (manager e))
                 = successful_requests (stats s)
              /\ failed_requests (stats (manager e))
                 = failed_requests (stats s) + 1)).
Proof.
  induction budget as [|budget IH]; intros attempt last_error s fs done_so_far Hok.
  - simpl. split; [reflexivity|]. right. eauto 10.
  - cbn [attempts].
    destruct (get_proxy_ok (dice (world attempt)) prefer_fast s Hok)
      as (proxy & Hret & Hok1 & Hstats & _).
    destruct (get_proxy (dice (world attempt)) prefer_fast s) as [res s1].
    simpl in Hret, Hok1, Hstats. subst res.
    destruct (truthy (default EmptyString proxy)) eqn:Htruthy.
    + destruct (classify target _) as [err|r].
      * pose proof (mark_proxy_bad_frame s1 fs (default EmptyString proxy))
          as (_ & _ & _ & Ht & Hs & Hf & _).
        pose proof (mark_proxy_bad_ok s1 fs (default EmptyString proxy) Hok1) as Hok2.
        destruct (mark_proxy_bad s1 fs (default EmptyString proxy)) as [s2 fs2].
        simpl in Ht, Hs, Hf, Hok2.
        specialize (IH (S attempt) (Some err) s2 fs2
                      (done_so_far ++ [default EmptyString proxy])%list Hok2).
        simpl in IH. rewrite Ht, Hs, Hf, Hstats in IH. exact IH.
      * simpl. rewrite Hstats. split; [reflexivity|]. left. eauto.
    + simpl. rewrite Hstats. split; [reflexivity|]. right. eauto 10.
Qed.

(** The invariant survives the loop, so it holds before every call. *)
Lemma attempts_ok (world : nat -> Attempt) (target : string)
    (prefer_fast : bool) (budget : nat) :
  forall attempt last_error s fs done_so_far,
    directory_ok s ->
    directory_ok
      (manager (attempts world target prefer_fast budget attempt last_error s fs
                  done_so_far)).
Proof.
  induction budget as [|budget IH]; intros attempt last_error s fs done_so_far Hok.
  - exact Hok.
  - cbn [attempts].
    destruct (get_proxy_ok (dice (world attempt)) prefer_fast s Hok)
      as (proxy & Hret & Hok1 & _).
    destruct (get_proxy (dice (world attempt)) prefer_fast s) as [res s1].
    simpl in Hret, Hok1. subst res.
    destruct (truthy (default EmptyString proxy)); [|exact Hok1].
    destruct (classify target _) as [err|r]; [|exact Hok1].
    pose proof (mark_proxy_bad_ok s1 fs (default EmptyString proxy) Hok1) as Hok2.
    destruct (mark_proxy_bad s1 fs (default EmptyString proxy)) as [s2 fs2].
    apply IH, Hok2.
Qed.

Lemma fetch_ok (world : nat -> Attempt) (target : string) (prefer_fast : bool)
    (s : PM) (fs : Files) :
  directory_ok s -> directory_ok (manager (fetch world target prefer_fast s fs)).
Proof. intros Hok. unfold fetch. apply attempts_ok. exact Hok. Qed.

(** C5.  Every call of [fetch] on a directory whose [proxies] list mirrors
    [proxy_data] adds one to the total-request counter, and either returns
    and adds one to the success counter alone, or raises ProxyFailureError
    (no endpoint, or budget exhausted) and adds one to the failure counter
    alone. *)
Theorem fetch_counters (world : nat -> Attempt) (target : string)
    (prefer_fast : bool) (s : PM) (fs : Files) :
  directory_ok s ->
  let e := fetch world target prefer_fast s fs in
  total_requests (stats (manager e)) = total_requests (stats s) + 1
  /\ ((exists body r, returned_value e = Returns (body, r)
        /\ successful_requests (stats (manager e))
           = successful_requests (stats s) + 1
        /\ failed_requests (stats (manager e)) = failed_requests (stats s))
      \/ (exists cause available total no_proxy,
            returned_value e
            = Raises (ProxyFailureError target cause available total no_proxy)
            /\ successful_requests (stats (manager e))
               = successful_requests (stats s)
            /\ failed_requests (stats (manager e))
               = failed_requests (stats s) + 1)).
Proof.
  intros Hok. unfold fetch.
  apply (attempts_counters world target prefer_fast (Z.to_nat (max_retries s))
           0%nat None (set_stats (add_total (stats s)) s) fs []).
  exact Hok.
Qed.

(** *** Loading the catalogue *)

Lemma orders_subset (keys keys' : list Float) :
  (forall x, x ∈ keys' -> x ∈ keys) -> orders keys -> orders keys'.
Proof.
  intros Hsub [Hasym Htrans]. split.
  - intros a b Ha Hb. apply Hasym; auto.
  - intros a b c Ha Hb Hc. apply Htrans; auto.
Qed.

Lemma insert_by_time_perm (p : ProxyRecord) (l : list ProxyRecord) :
  insert_by_time p l ≡ₚ p :: l.
Proof.
  induction l as [|q l IH]; simpl; [reflexivity|].
  destruct (float_lt (response_time_ms q) (response_time_ms p)); [|reflexivity].
  rewrite IH. apply Permutation_swap.
Qed.

Lemma sort_by_response_time_perm (l : list ProxyRecord) :
  sort_by_response_time l ≡ₚ l.
Proof.
  induction l as [|p l IH]; simpl; [reflexivity|].
  rewrite insert_by_time_perm, IH. reflexivity.
Qed.

Lemma insert_by_time_sorted (p : ProxyRecord) (l : list ProxyRecord) :
  orders (response_time_ms <$> p :: l) ->
  StronglySorted time_le l -> StronglySorted time_le (insert_by_time p l).
Proof.
  intros Hord Hsorted. induction Hsorted as [|q l Hsorted IH Hall]; simpl.
  - repeat constructor.
  - destruct Hord as [Hasym Htrans].
    assert (Hp : response_time_ms p ∈ response_time_ms <$> p :: q :: l) by left.
    assert (Hq : response_time_ms q ∈ response_time_ms <$> p :: q :: l)
      by (right; left).
    assert (Hl : forall x, x ∈ l ->
              response_time_ms x ∈ response_time_ms <$> p :: q :: l).
    { intros x Hx. right; right. apply list_elem_of_fmap. eauto. }
    destruct (float_lt (response_time_ms q) (response_time_ms p)) eqn:Hlt.
    + constructor.
      * apply IH. eapply orders_subset; [|split; [exact Hasym | exact Htrans]].
        intros x Hx. rewrite fmap_cons in Hx.
        apply elem_of_cons in Hx as [-> | Hx]; [left | right; right; exact Hx].
      * apply Forall_forall. intros x Hx.
        rewrite insert_by_time_perm in Hx.
        apply elem_of_cons in Hx as [-> | Hx].
        -- unfold time_le. apply Hasym; auto.
        -- rewrite Forall_forall in Hall. apply Hall, Hx.
    + constructor; [constructor; assumption|].
      constructor; [exact Hlt|].
      apply Forall_forall. intros x Hx.
      rewrite Forall_forall in Hall. specialize (Hall x Hx).
      unfold time_le in *. apply (Htrans _ (response_time_ms q)); auto.
Qed.

Lemma sort_by_response_time_sorted (l : list ProxyRecord) :
  orders (response_time_ms <$> l) ->
  StronglySorted time_le (sort_by_response_time l).
Proof.
  induction l as [|p l IH]; intros Hord; simpl; [constructor|].
  apply insert_by_time_sorted.
  - eapply orders_subset; [|exact Hord].
    intros x Hx. rewrite !fmap_cons in *.
    apply elem_of_cons in Hx as [-> | Hx]; [left|right].
    apply list_elem_of_fmap in Hx as (y & -> & Hy).
    apply list_elem_of_fmap. exists y. split; [reflexivity|].
    rewrite <- (sort_by_response_time_perm l). exact Hy.
  - apply IH. eapply orders_subset; [|exact Hord].
    intros x Hx. rewrite fmap_cons. right. exact Hx.
Qed.

Lemma truthy_nonempty (x : string) : truthy x = true -> x <> EmptyString.
Proof. intros Ht ->. discriminate. Qed.

Lemma load_row_record (r : Row) (p : ProxyRecord) :
  load_row r = Returns (Some p) ->
  eligible r = true /\ row p = Some r /\ status p = "working"
  /\ ip p <> EmptyString /\ port p <> EmptyString
  /\ url p = "socks5://" ++ ip p ++ ":" ++ port p
  /\ row_response_time r = Returns (response_time_ms p).
Proof.
  unfold load_row, eligible.
  destruct (row_get r "ip" _) as [host|]; simpl; [|discriminate].
  destruct (row_get r "port" _) as [prt|]; simpl; [|discriminate].
  destruct (row_get r "status" _) as [state|]; simpl; [|discriminate].
  destruct (truthy (strip host)) eqn:Hh; simpl; [|discriminate].
  destruct (truthy (strip prt)) eqn:Hp; simpl; [|discriminate].
  destruct (String.eqb (strip state) "working") eqn:Hs; simpl; [|discriminate].
  destruct (row_response_time r) as [x|e]; simpl; [|discriminate].
  intros Heq. inversion Heq; subst; simpl.
  apply String.eqb_eq in Hs.
  repeat split; auto using truthy_nonempty.
Qed.

Lemma load_row_skipped (r : Row) :
  load_row r = Returns None -> eligible r = false.
Proof.
  unfold load_row, eligible.
  destruct (row_get r "ip" _) as [host|]; simpl; [|discriminate].
  destruct (row_get r "port" _) as [prt|]; simpl; [|discriminate].
  destruct (row_get r "status" _) as [state|]; simpl; [|discriminate].
  destruct (truthy (strip host) && truthy (strip prt)
            && String.eqb (strip state) "working"); [|reflexivity].
  destruct (row_response_time r); simpl; discriminate.
Qed.

Lemma load_row_readable (r : Row) :
  readable r -> exists o, load_row r = Returns o.
Proof.
  intros ([host Hh] & [prt Hp] & [state Hs] & Hrt).
  unfold load_row, eligible in *. rewrite Hh, Hp, Hs in *. simpl.
  destruct (truthy (strip host) && truthy (strip prt)
            && String.eqb (strip state) "working"); [|eauto].
  destruct (Hrt eq_refl) as [x ->]. simpl. eauto.
Qed.

Lemma load_rows_readable (rows : list Row) :
  Forall readable rows -> load_rows rows = Returns (omap record_of rows).
Proof.
  induction 1 as [|r rows Hr _ IH]; [reflexivity|].
  destruct (load_row_readable r Hr) as [o Ho].
  assert (Hrec : record_of r = o) by (unfold record_of; rewrite Ho; reflexivity).
  change (omap record_of (r :: rows))
    with (match record_of r with
          | Some y => y :: omap record_of rows
          | None => omap record_of rows
          end).
  cbn [load_rows]. rewrite Ho, IH, Hrec. destruct o; reflexivity.
Qed.

Lemma record_of_eligible (r : Row) :
  readable r -> eligible r = true -> exists p, record_of r = Some p.
Proof.
  intros Hr He. unfold record_of.
  destruct (load_row_readable r Hr) as [[p|] Ho]; rewrite Ho; [eauto|].
  apply load_row_skipped in Ho. congruence.
Qed.

Lemma record_of_Some (r : Row) (p : ProxyRecord) :
  record_of r = Some p -> load_row r = Returns (Some p).
Proof.
  unfold record_of. destruct (load_row r) as [o|e]; [congruence | discriminate].
Qed.

Lemma load_rows_member (rows : list Row) :
  forall loaded p,
    load_rows rows = Returns loaded -> p ∈ loaded ->
    exists r, r ∈ rows /\ load_row r = Returns (Some p).
Proof.
  induction rows as [|r rows IH]; intros loaded p Hload Hin; cbn [load_rows] in Hload.
  - inversion Hload; subst. inversion Hin.
  - destruct (load_row r) as [o|e] eqn:Hr; [|discriminate].
    destruct (load_rows rows) as [more|e] eqn:Hmore; [|discriminate].
    cbn in Hload. inversion Hload; subst loaded; clear Hload.
    assert (Hrest : p ∈ more -> exists r0, r0 ∈ r :: rows
                                 /\ load_row r0 = Returns (Some p)).
    { intros Hp. destruct (IH more p eq_refl Hp) as (r0 & Hr0 & Hl0).
      exists r0. split; [right; exact Hr0 | exact Hl0]. }
    destruct o as [p0|]; [|auto].
    apply elem_of_cons in Hin as [-> | Hin]; [|auto].
    exists r. split; [left | exact Hr].
Qed.

Lemma fallback_has_no_row (PROXIES : list string) (p : ProxyRecord) :
  p ∈ _load_fallback_proxies PROXIES -> row p = None.
Proof.
  intros Hin. apply list_elem_of_omap in Hin as (u & _ & Hu).
  unfold fallback_record in Hu.
  destruct (split_on ":" _) as [|a [|b [|c l]]]; try discriminate.
  inversion Hu. reflexivity.
Qed.

Lemma load_row_returns (r : Row) (o : option ProxyRecord) :
  load_row r = Returns o -> readable r.
Proof.
  unfold load_row, readable, eligible.
  destruct (row_get r "ip" _) as [host|]; cbn; [|discriminate].
  destruct (row_get r "port" _) as [prt|]; cbn; [|discriminate].
  destruct (row_get r "status" _) as [state|]; cbn; [|discriminate].
  intros Hload. repeat split; eauto.
  intros He. rewrite He in Hload.
  destruct (row_response_time r) as [x|e]; [eauto | discriminate].
Qed.

Lemma load_rows_returns (rows : list Row) (loaded : list ProxyRecord) :
  load_rows rows = Returns loaded ->
  Forall readable rows /\ loaded = omap record_of rows.
Proof.
  revert loaded. induction rows as [|r rows IH]; intros loaded Hload;
    cbn [load_rows] in Hload.
  - inversion Hload. split; [constructor | reflexivity].
  - destruct (load_row r) as [o|e] eqn:Hr; [|discriminate].
    destruct (load_rows rows) as [more|e] eqn:Hmore; [|discriminate].
    destruct (IH more eq_refl) as [Hall ->].
    cbn in Hload. inversion Hload; subst loaded.
    split; [constructor; [eapply load_row_returns, Hr | exact Hall]|].
    assert (Hrec : record_of r = o) by (unfold record_of; rewrite Hr; reflexivity).
    change (omap record_of (r :: rows))
      with (match record_of r with
            | Some y => y :: omap record_of rows
            | None => omap record_of rows
            end).
    rewrite Hrec. reflexivity.
Qed.

(** Whatever the files hold, a record that [_load_proxies] returns with a
    row was made from an eligible row of the catalogue; the others are
    fallback records.  (The function is total: no exception leaves it.) *)
Lemma load_proxies_only_eligible (PROXIES : list string) (fs : Files)
    (p : ProxyRecord) :
  p ∈ _load_proxies PROXIES fs ->
  (p ∈ _load_fallback_proxies PROXIES /\ row p = None)
  \/ (exists file_content r,
        csv_file fs = Some file_content /\ r ∈ DictReader file_content
        /\ load_row r = Returns (Some p)).
Proof.
  assert (Hfb : p ∈ _load_fallback_proxies PROXIES ->
                p ∈ _load_fallback_proxies PROXIES /\ row p = None)
    by (intros Hin; split; [exact Hin | eapply fallback_has_no_row, Hin]).
  unfold _load_proxies.
  destruct (csv_file fs) as [file_content|]; [|auto].
  destruct (load_rows (DictReader file_content)) as [pd|e] eqn:Hload; [|auto].
  destruct pd as [|q pd]; [auto|].
  intros Hin. right. exists file_content.
  rewrite sort_by_response_time_perm in Hin.
  destruct (load_rows_member _ _ _ Hload Hin) as (r & Hr & Hl).
  exists r. auto.
Qed.

(** For a readable catalogue with an eligible row, [_load_proxies] sorts
    the records of the eligible rows; there is at least one. *)
Lemma load_proxies_readable (PROXIES : list string) (fs : Files)
    (file_content : list (list string)) :
  csv_file fs = Some file_content ->
  Forall readable (DictReader file_content) ->
  Exists (fun r => eligible r = true) (DictReader file_content) ->
  omap record_of (DictReader file_content) <> []
  /\ _load_proxies PROXIES fs
     = sort_by_response_time (omap record_of (DictReader file_content)).
Proof.
  intros Hfile Hread Hsome.
  set (rows := DictReader file_content) in *.
  assert (Hne : omap record_of rows <> []).
  { apply Exists_exists in Hsome as (r & Hin & He).
    rewrite Forall_forall in Hread.
    destruct (record_of_eligible r (Hread r Hin) He) as [p Hp].
    intros Hnil.
    assert (Hp' : p ∈ omap record_of rows)
      by (apply list_elem_of_omap; eauto).
    rewrite Hnil in Hp'. inversion Hp'. }
  split; [exact Hne|].
  unfold _load_proxies. rewrite Hfile.
  fold rows. rewrite (load_rows_readable rows Hread).
  destruct (omap record_of rows); [congruence | reflexivity].
Qed.

(** What the loop of [_load_proxies] makes from a row. *)
Lemma load_row_made_from (r : Row) (p : ProxyRecord) :
  load_row r = Returns (Some p) -> eligible r = true /\ made_from p r.
Proof.
  intros Hload.
  destruct (load_row_record r p Hload) as (He & Hrow & Hst & Hip & Hport & Hurl & Hrt).
  split; [exact He|].
  unfold load_row in Hload.
  destruct (row_get r "ip" _) as [host|] eqn:Hh; simpl in Hload; [|discriminate].
  destruct (row_get r "port" _) as [prt|] eqn:Hp; simpl in Hload; [|discriminate].
  destruct (row_get r "status" _) as [state|] eqn:Hs; simpl in Hload;
    [|discriminate].
  destruct (truthy (strip host) && truthy (strip prt)
            && String.eqb (strip state) "working"); [|discriminate].
  destruct (row_response_time r) as [x|e] eqn:Hx; simpl in Hload; [|discriminate].
  inversion Hload; subst p. cbn in *.
  exists host, prt, state. repeat split; auto.
Qed.

(** Whether a row can be read is decided by its cells. *)
Lemma readable_or_not (r : Row) : readable r \/ ~ readable r.
Proof.
  unfold readable.
  destruct (row_get r "ip" _) as [host|];
    [|right; intros ([? Habs] & _); discriminate].
  destruct (row_get r "port" _) as [prt|];
    [|right; intros (_ & [? Habs] & _); discriminate].
  destruct (row_get r "status" _) as [state|];
    [|right; intros (_ & _ & [? Habs] & _); discriminate].
  destruct (eligible r) eqn:He.
  - destruct (row_response_time r) as [x|e].
    + left. repeat split; eauto.
    + right. intros (_ & _ & _ & Hrt). destruct (Hrt eq_refl). discriminate.
  - left. repeat split; eauto. discriminate.
Qed.

Lemma rows_readable_or_not (rows : list Row) :
  Forall readable rows \/ Exists (fun r => ~ readable r) rows.
Proof.
  induction rows as [|r rows IH]; [left; constructor|].
  destruct (readable_or_not r) as [Hr | Hr]; [|right; left; exact Hr].
  destruct IH as [IH | IH]; [left; constructor; assumption | right; right; exact IH].
Qed.

Lemma rows_eligible_or_not (rows : list Row) :
  Exists (fun r => eligible r = true) rows
  \/ Forall (fun r => eligible r = false) rows.
Proof.
  induction rows as [|r rows IH]; [right; constructor|].
  destruct (eligible r) eqn:He; [left; left; exact He|].
  destruct IH as [IH | IH]; [left; right; exact IH | right; constructor; assumption].
Qed.

(** The catalogue is taken as a whole or not at all: without a file, with
    a row that cannot be read, or without an eligible row, [_load_proxies]
    returns the records of the built-in list. *)
Lemma load_proxies_other_cases (PROXIES : list string) (fs : Files) :
  (csv_file fs = None
   \/ exists file_content,
        csv_file fs = Some file_content
        /\ (Exists (fun r => ~ readable r) (DictReader file_content)
            \/ Forall (fun r => eligible r = false) (DictReader file_content))) ->
  _load_proxies PROXIES fs = _load_fallback_proxies PROXIES.
Proof.
  intros Hcase. unfold _load_proxies.
  destruct Hcase as [-> | (file_content & -> & Hrows)]; [reflexivity|].
  destruct (load_rows (DictReader file_content)) as [loaded|e] eqn:Hload;
    [|reflexivity].
  apply load_rows_returns in Hload as [Hread ->].
  destruct Hrows as [Hbad | Hnone].
  - apply Exists_exists in Hbad as (r & Hr & Hnot).
    rewrite Forall_forall in Hread. destruct (Hnot (Hread r Hr)).
  - assert (Hnil : omap record_of (DictReader file_content) = []).
    { induction Hnone as [|r rows Hr _ IH]; [reflexivity|].
      apply Forall_cons in Hread as [Hr1 Hread].
      cbn. destruct (record_of r) as [p|] eqn:Hp; [|apply IH, Hread].
      apply record_of_Some, load_row_record in Hp. destruct Hp as [He _].
      congruence. }
    rewrite Hnil. reflexivity.
Qed.

(** Every case is one of the two. *)
Lemma catalogue_usable_or_not (fs : Files) :
  catalogue_usable fs
  \/ csv_file fs = None
  \/ exists file_content,
       csv_file fs = Some file_content
       /\ (Exists (fun r => ~ readable r) (DictReader file_content)
           \/ Forall (fun r => eligible r = false) (DictReader file_content)).
Proof.
  destruct (csv_file fs) as [file_content|] eqn:Hfile; [|right; left; reflexivity].
  destruct (rows_readable_or_not (DictReader file_content)) as [Hread | Hbad];
    [|right; right; exists file_content; auto].
  destruct (rows_eligible_or_not (DictReader file_content)) as [Hsome | Hnone];
    [|right; right; exists file_content; auto].
  left. exists file_content. auto.
Qed.

(** C7, as the code has it.  A row is eligible when its host and port are
    not empty and its status is "working", all after trimming, a row of a
    catalogue without a status column counting as working; a row can be
    read when none of the three values is missing and, for an eligible
    row, the latency parses.

    For a catalogue whose rows can all be read and at least one of which
    is eligible, [_load_proxies] returns a non-empty list that holds
    exactly the records of the eligible rows, each made from its row with
    the trimmed host, port and status.  The list is sorted by latency,
    ascending, when [<] orders the latencies.  In every other case (no
    file, a row that cannot be read, no eligible row) it returns the
    built-in list, whose records have no row.  For every catalogue, a
    record that is returned is a built-in one or was made from an eligible
    row.  (The function is total: no exception leaves it.) *)
Theorem load_proxies_catalogue (PROXIES : list string) (fs : Files) :
  let loaded := _load_proxies PROXIES fs in
  (forall file_content,
      csv_file fs = Some file_content ->
      Forall readable (DictReader file_content) ->
      Exists (fun r => eligible r = true) (DictReader file_content) ->
      loaded <> []
      /\ loaded ≡ₚ omap record_of (DictReader file_content)
      /\ Forall (fun p => exists r, r ∈ DictReader file_content
                                    /\ eligible r = true /\ made_from p r)
           loaded
      /\ (forall r, r ∈ DictReader file_content -> eligible r = true ->
            exists p, p ∈ loaded /\ row p = Some r)
      /\ (orders (response_time_ms <$> loaded) -> StronglySorted time_le loaded))
  /\ (~ catalogue_usable fs ->
      loaded = _load_fallback_proxies PROXIES
      /\ Forall (fun p => row p = None) loaded)
  /\ Forall (fun p => (p ∈ _load_fallback_proxies PROXIES /\ row p = None)
                      \/ exists file_content r,
                           csv_file fs = Some file_content
                           /\ r ∈ DictReader file_content
                           /\ eligible r = true /\ made_from p r)
       loaded.
Proof.
  intros loaded. split; [|split].
  - intros file_content Hfile Hread Hsome.
    destruct (load_proxies_readable PROXIES fs _ Hfile Hread Hsome)
      as [Hne Hloaded].
    fold loaded in Hloaded.
    set (rows := DictReader file_content) in *.
    assert (Hperm : loaded ≡ₚ omap record_of rows)
      by (rewrite Hloaded; apply sort_by_response_time_perm).
    split; [|split; [exact Hperm | split; [|split]]].
    + intros Hnil. rewrite Hnil in Hperm.
      apply Permutation_nil_l in Hperm. congruence.
    + apply Forall_forall. intros p Hp. rewrite Hperm in Hp.
      apply list_elem_of_omap in Hp as (r & Hr & Hrec).
      apply record_of_Some, load_row_made_from in Hrec as [He Hmade].
      exists r. auto.
    + intros r Hr He. rewrite Forall_forall in Hread.
      destruct (record_of_eligible r (Hread r Hr) He) as [p Hp].
      exists p. split.
      * rewrite Hperm. apply list_elem_of_omap. eauto.
      * apply record_of_Some, load_row_record in Hp. tauto.
    + intros Hord. rewrite Hloaded. apply sort_by_response_time_sorted.
      eapply orders_subset; [|exact Hord].
      intros x Hx. apply list_elem_of_fmap in Hx as (y & -> & Hy).
      apply list_elem_of_fmap. exists y. split; [reflexivity|].
      rewrite Hperm. exact Hy.
  - intros Hnot.
    assert (Hfb : loaded = _load_fallback_proxies PROXIES).
    { destruct (catalogue_usable_or_not fs) as [Huse | Hother];
        [destruct (Hnot Huse)|].
      apply load_proxies_other_cases, Hother. }
    split; [exact Hfb|]. rewrite Hfb.
    apply Forall_forall. intros p Hp. eapply fallback_has_no_row, Hp.
  - apply Forall_forall. intros p Hp.
    destruct (load_proxies_only_eligible PROXIES fs p Hp)
      as [Hfb | (file_content & r & Hfile & Hr & Hload)]; [left; exact Hfb|].
    right. exists file_content, r.
    apply load_row_made_from in Hload as [He Hmade]. auto.
Qed.

(** *** Persisting and reloading *)
















(** Records without a row are passed over by the writing loop. *)
Lemma write_rows_skips_fallback (l : list ProxyRecord) :
  write_rows l = write_rows (filter (fun p => has_row p = true) l).
Proof.
  induction l as [|p l IH]; [reflexivity|].
  destruct (has_row p) eqn:Hrow.
  - rewrite filter_cons_True by exact Hrow. cbn [write_rows].
    rewrite IH. reflexivity.
  - rewrite filter_cons_False by (rewrite Hrow; discriminate).
    cbn [write_rows]. unfold has_row in Hrow.
    destruct (row p); [discriminate | exact IH].
Qed.



End ProxyFacts.

(** ** The proxy manager on the concrete models *)

Section ProxyExamples.
Import PyStr Helpers Proxy Models MoreModels.

Lemma whole_numbers_ordered (keys : list Z) : orders keys.
Proof.
  split.
  - intros a b _ _ Hlt. apply Z.ltb_lt in Hlt. apply Z.ltb_ge. lia.
  - intros a b c _ _ _ Hab Hbc.
    apply Z.ltb_ge in Hab, Hbc. apply Z.ltb_ge. lia.
Qed.

Lemma readableb_sound (rows : list Row) :
  forallb readableb rows = true -> Forall readable rows.
Proof.
  induction rows as [|r rows IH]; simpl; [constructor|].
  intros Hall. apply andb_prop in Hall as [Hr Hrows].
  constructor; [|apply IH, Hrows].
  unfold readableb in Hr.
  apply andb_prop in Hr as [Hr Hrt]. apply andb_prop in Hr as [Hr Hst].
  apply andb_prop in Hr as [Hip Hport].
  apply bool_decide_eq_true in Hip, Hport, Hst.
  repeat split; auto.
  intros He. rewrite He in Hrt. simpl in Hrt.
  destruct (row_response_time r) as [x|e]; [eauto | discriminate].
Qed.

(** The theorem at the manager of an empty directory. *)
Lemma get_proxy_none_iff_empty_witness :
  directory_ok (manager_over [] no_files)
  /\ (get_proxy first_fastest true (manager_over [] no_files)).1 = Returns None.
Proof.
  assert (Hok : directory_ok (manager_over [] no_files)) by reflexivity.
  split; [exact Hok|].
  apply (get_proxy_none_iff_empty first_fastest true _ Hok). reflexivity.
Defined.

(** With every endpoint quarantined the selector still answers, and the
    quarantine set is empty afterwards. *)
Example get_proxy_all_quarantined :
  get_proxy first_fastest true all_quarantined
  = (Returns (Some (endpoint "10.0.0.2")), three_manager).
Proof. vm_compute. reflexivity. Qed.

(** C2, as stated, fails on a 204: the response has a 2xx status and its
    body is not blocked, yet no attempt is a success; the three endpoints
    are tried and quarantined, and the call raises. *)
Lemma fetch_204_is_not_a_success :
  200 <= 204 < 300
  /\ is_search_blocked "ok" = false
  /\ returned (returned_value (fetch (always 204 "ok") about_url true
                                 three_manager three_files)) = false
  /\ successful_requests
       (stats (manager (fetch (always 204 "ok") about_url true
                          three_manager three_files))) = 0
  /\ tried (fetch (always 204 "ok") about_url true three_manager three_files)
     = [endpoint "10.0.0.2"; endpoint "10.0.0.3"; endpoint "10.0.0.1"]
  /\ bad_proxies (manager (fetch (always 204 "ok") about_url true
                             three_manager three_files))
     = {[ endpoint "10.0.0.1"; endpoint "10.0.0.2"; endpoint "10.0.0.3" ]}.
Proof.
  split; [lia|].
  repeat split; vm_compute; reflexivity.
Qed.

(** The theorem at the first attempt of a search that is answered 503. *)
Lemma fetch_attempt_by_status_witness :
  get_proxy (dice (only_first_host 0)) true three_manager
  = (Returns (Some (endpoint "10.0.0.2")), three_manager)
  /\ endpoint "10.0.0.2" <> EmptyString
  /\ requests_get (only_first_host 0) search_url (endpoint "10.0.0.2")
     = Got {| status_code := 503; text := EmptyString |}
  /\ endpoint "10.0.0.2"
     ∈ bad_proxies (mark_proxy_bad three_manager three_files
                      (endpoint "10.0.0.2")).1.
Proof.
  assert (Hget : get_proxy (dice (only_first_host 0)) true three_manager
                 = (Returns (Some (endpoint "10.0.0.2")), three_manager))
    by (vm_compute; reflexivity).
  assert (Hne : endpoint "10.0.0.2" <> EmptyString) by (vm_compute; discriminate).
  assert (Hreply : requests_get (only_first_host 0) search_url (endpoint "10.0.0.2")
                   = Got {| status_code := 503; text := EmptyString |})
    by (vm_compute; reflexivity).
  split; [exact Hget|]. split; [exact Hne|]. split; [exact Hreply|].
  apply (fetch_attempt_by_status only_first_host search_url true 2 0 None
           three_manager three_manager three_files [] _ _ Hget Hne Hreply).
  simpl. lia.
Defined.

(** C3, as stated, fails for a URL that does not contain duckduckgo.com:
    the body matches the block indicators, and it is returned as a
    success at the first attempt, with nothing quarantined. *)
Lemma fetch_blocked_body_is_returned :
  is_search_blocked "Please solve this CAPTCHA" = true
  /\ is_duckduckgo about_url = false
  /\ returned_value (fetch (always 200 "Please solve this CAPTCHA") about_url
                       true three_manager three_files)
     = Returns ("Please solve this CAPTCHA",
                {| status_code := 200; text := "Please solve this CAPTCHA" |})
  /\ successful_requests
       (stats (manager (fetch (always 200 "Please solve this CAPTCHA") about_url
                          true three_manager three_files))) = 1
  /\ bad_proxies (manager (fetch (always 200 "Please solve this CAPTCHA")
                             about_url true three_manager three_files)) = ∅.
Proof. repeat split; vm_compute; reflexivity. Qed.

(** The theorem at the first attempt of a search that is answered with a
    challenge page. *)
Lemma fetch_attempt_blocked_witness :
  get_proxy (dice (always 200 "Please solve this CAPTCHA" 0)) true three_manager
  = (Returns (Some (endpoint "10.0.0.2")), three_manager)
  /\ endpoint "10.0.0.2" <> EmptyString
  /\ is_search_blocked (lower "Please solve this CAPTCHA") = true
  /\ is_duckduckgo search_url = true
  /\ endpoint "10.0.0.2"
     ∈ bad_proxies (mark_proxy_bad three_manager three_files
                      (endpoint "10.0.0.2")).1.
Proof.
  assert (Hget : get_proxy (dice (always 200 "Please solve this CAPTCHA" 0)) true
                   three_manager
                 = (Returns (Some (endpoint "10.0.0.2")), three_manager))
    by (vm_compute; reflexivity).
  assert (Hne : endpoint "10.0.0.2" <> EmptyString) by (vm_compute; discriminate).
  assert (Hblocked : is_search_blocked (lower "Please solve this CAPTCHA") = true)
    by (vm_compute; reflexivity).
  assert (Hddg : is_duckduckgo search_url = true) by (vm_compute; reflexivity).
  split; [exact Hget|]. split; [exact Hne|]. split; [exact Hblocked|].
  split; [exact Hddg|].
  apply (fetch_attempt_blocked (always 200 "Please solve this CAPTCHA")
           search_url true 2 0 None three_manager three_manager three_files []
           (endpoint "10.0.0.2")
           {| status_code := 200; text := "Please solve this CAPTCHA" |}
           Hget Hne eq_refl eq_refl Hblocked).
  exact Hddg.
Defined.

(** The theorem at the manager of the three working proxies. *)
Lemma fetch_counters_witness :
  directory_ok three_manager
  /\ total_requests
       (stats (manager (fetch only_first_host search_url true
                          three_manager three_files)))
     = total_requests (stats three_manager) + 1.
Proof.
  assert (Hok : directory_ok three_manager) by reflexivity.
  split; [exact Hok|].
  apply (fetch_counters only_first_host search_url true three_manager
           three_files Hok).
Defined.

(** The scenario of the specification: three working proxies, two answer
    503 and the third answers with a page. *)
Example fetch_two_fail_one_succeeds :
  returned_value (fetch only_first_host search_url true three_manager three_files)
  = Returns ("<html>results</html>",
             {| status_code := 200; text := "<html>results</html>" |})
  /\ stats (manager (fetch only_first_host search_url true three_manager
                       three_files))
     = {| total_requests := 1; successful_requests := 1;
          failed_requests := 0; proxies_marked_bad := 2 |}
  /\ tried (fetch only_first_host search_url true three_manager three_files)
     = [endpoint "10.0.0.2"; endpoint "10.0.0.3"; endpoint "10.0.0.1"]
  /\ size (bad_proxies (manager (fetch only_first_host search_url true
                                   three_manager three_files))) = 2%nat.
Proof. repeat split; vm_compute; reflexivity. Qed.

(** The theorem at an endpoint of the three working proxies. *)
Lemma mark_proxy_bad_idempotent_witness :
  mark_proxy_bad
    (mark_proxy_bad three_manager three_files (endpoint "10.0.0.3")).1
    (mark_proxy_bad three_manager three_files (endpoint "10.0.0.3")).2
    (endpoint "10.0.0.3")
  = mark_proxy_bad three_manager three_files (endpoint "10.0.0.3").
Proof.
  pose proof (mark_proxy_bad_idempotent three_manager three_files
                (endpoint "10.0.0.3")) as Htwice.
  cbv zeta in Htwice. destruct Htwice as [Hagain _]. exact Hagain.
Defined.

(** A fallback record is quarantined without touching the files. *)
Example mark_fallback_record_bad :
  (mark_proxy_bad (manager_over ["socks5://192.0.2.7:1080"] no_files) no_files
     "socks5://192.0.2.7:1080").2 = no_files
  /\ proxies_marked_bad
       (stats (mark_proxy_bad (manager_over ["socks5://192.0.2.7:1080"] no_files)
                 no_files "socks5://192.0.2.7:1080").1) = 1.
Proof. split; vm_compute; reflexivity. Qed.

(** A catalogue whose only working row has no host: whatever the
    built-in list, [_load_proxies] returns the built-in records and nothing
    of the catalogue, so with an empty built-in list nothing is loaded. *)
Example load_proxies_working_row_without_host :
  Exists (fun r => cells r !! "status" = Some (Some "working"))
    (DictReader working_without_host)
  /\ _load_proxies [] (only_catalogue working_without_host) = []
  /\ forall PROXIES,
       _load_proxies PROXIES (only_catalogue working_without_host)
       = _load_fallback_proxies PROXIES.
Proof.
  split; [|split].
  - apply Exists_cons_hd. vm_compute. reflexivity.
  - vm_compute. reflexivity.
  - intros PROXIES. unfold _load_proxies. cbn [csv_file only_catalogue].
    replace (load_rows (DictReader working_without_host)) with
      (Returns (@nil ProxyRecord)) by (vm_compute; reflexivity).
    reflexivity.
Qed.

(** A latency that does not parse sends the whole catalogue to the
    fallback, the valid rows included. *)
Example load_proxies_unparsable_latency :
  forall PROXIES,
    _load_proxies PROXIES
      (only_catalogue [ fieldnames;
                        catalogue_row "10.0.0.1" "30" "working";
                        catalogue_row "10.0.0.2" "fast" "working" ])
    = _load_fallback_proxies PROXIES.
Proof.
  intros PROXIES. unfold _load_proxies. cbn [csv_file only_catalogue].
  replace (load_rows (DictReader [ fieldnames;
                                   catalogue_row "10.0.0.1" "30" "working";
                                   catalogue_row "10.0.0.2" "fast" "working" ]))
    with (@Raises (list ProxyRecord) ValueError) by (vm_compute; reflexivity).
  reflexivity.
Qed.

(** C7, as stated, fails for a catalogue with a working row and a line
    that lacks its port: the line is not skipped, the whole catalogue is
    given up.  Whatever the built-in list, [_load_proxies] returns the
    built-in records and nothing of the catalogue, although the catalogue
    without that line gives the record of its working row.  It fails as
    well where it ties eligibility to a status field equal to "working":
    a row whose status field is " working" is loaded beside a working
    row, and so is the row of a catalogue without a status column. *)
Lemma load_proxies_line_without_port :
  Exists (fun r => cells r !! "status" = Some (Some "working")
                   /\ eligible r = true)
    (DictReader working_and_short)
  /\ (forall PROXIES,
        _load_proxies PROXIES (only_catalogue working_and_short)
        = _load_fallback_proxies PROXIES
        /\ Forall (fun p => row p = None)
             (_load_proxies PROXIES (only_catalogue working_and_short)))
  /\ _load_proxies [builtin_endpoint] (only_catalogue working_and_short)
     = [builtin_record]
  /\ url <$> _load_proxies [builtin_endpoint]
               (only_catalogue [fieldnames; catalogue_row "10.0.0.1" "30" "working"])
     = [endpoint "10.0.0.1"]
  /\ (DictReader working_and_padded !! 1%nat
      ≫= (fun r => cells r !! "status") = Some (Some " working")
      /\ url <$> _load_proxies [builtin_endpoint] (only_catalogue working_and_padded)
         = [endpoint "10.0.0.2"; endpoint "10.0.0.1"])
  /\ Forall (fun r => cells r !! "status" = None)
       (DictReader without_status_column)
  /\ url <$> _load_proxies [builtin_endpoint] (only_catalogue without_status_column)
     = [endpoint "10.0.0.1"].
Proof.
  assert (Hfallback : forall PROXIES,
             _load_proxies PROXIES (only_catalogue working_and_short)
             = _load_fallback_proxies PROXIES).
  { intros PROXIES. unfold _load_proxies. cbn [csv_file only_catalogue].
    replace (load_rows (DictReader working_and_short)) with
      (@Raises (list ProxyRecord) AttributeError) by (vm_compute; reflexivity).
    reflexivity. }
  split; [|split; [|split; [|split; [|split; [|split]]]]].
  - apply Exists_cons_hd. split; vm_compute; reflexivity.
  - intros PROXIES. split; [apply Hfallback|]. rewrite Hfallback.
    apply Forall_forall. intros p Hp. eapply fallback_has_no_row, Hp.
  - vm_compute. reflexivity.
  - vm_compute. reflexivity.
  - split; vm_compute; reflexivity.
  - apply Forall_cons. split; [vm_compute; reflexivity | apply Forall_nil_2].
  - vm_compute. reflexivity.
Qed.

(** The theorem at the catalogue of the three working proxies. *)
Lemma load_proxies_catalogue_witness :
  csv_file three_files = Some three_working
  /\ Forall readable (DictReader three_working)
  /\ Exists (fun r => eligible r = true) (DictReader three_working)
  /\ url <$> _load_proxies [] three_files
     = [endpoint "10.0.0.2"; endpoint "10.0.0.3"; endpoint "10.0.0.1"]
  /\ StronglySorted time_le (_load_proxies [] three_files).
Proof.
  assert (Hread : Forall readable (DictReader three_working))
    by (apply readableb_sound; vm_compute; reflexivity).
  assert (Hsome : Exists (fun r => eligible r = true) (DictReader three_working))
    by (apply Exists_cons_hd; vm_compute; reflexivity).
  split; [reflexivity|]. split; [exact Hread|]. split; [exact Hsome|].
  split; [vm_compute; reflexivity|].
  pose proof (load_proxies_catalogue [] three_files) as Hthm.
  cbv zeta in Hthm. destruct Hthm as [Hcatalogue _].
  apply (Hcatalogue three_working eq_refl Hread Hsome).
  apply whole_numbers_ordered.
Defined.



(** After the reload the endpoint is gone and the other record is back as
    it was. *)
Example reload_after_mark_bad :
  proxies (reload_proxies []
             (mark_proxy_bad mixed_manager mixed_files (endpoint "10.0.0.2")).1
             (mark_proxy_bad mixed_manager mixed_files (endpoint "10.0.0.2")).2).2
  = [endpoint "10.0.0.1"].
Proof. vm_compute. reflexivity. Qed.

End ProxyExamples.

(** * Further properties *)

(** ** The link extractor and the page scraper *)

Section MoreScraperFacts.
Import PyStr Helpers Scraper.
Context `{Bs4} `{Urllib}.

Lemma collect_links_take (max_links : Z) (results : list Tag) :
  forall out out',
    Z.of_nat (List.length out) < max_links ->
    collect_links max_links results out = Returns out' ->
    out' = (out ++ take (Z.to_nat max_links - List.length out)
                     (omap link_of results))%list.
Proof.
  induction results as [|a results IH]; intros out out' Hlt Hrun;
    cbn [collect_links] in Hrun.
  - inversion Hrun; subst. cbn. rewrite take_nil, app_nil_r. reflexivity.
  - assert (Hskip : link_of a = None ->
              collect_links max_links results out = Returns out' ->
              out' = (out ++ take (Z.to_nat max_links - List.length out)
                               (omap link_of (a :: results)))%list).
    { intros Hnone Hrest. cbn [omap list_omap]. rewrite Hnone.
      apply IH; assumption. }
    unfold link_of in Hskip.
    destruct (tag_get a "href") as [href|] eqn:Hhref; [|auto].
    destruct (is_empty href) eqn:Hempty; [auto|].
    clear Hskip.
    destruct (extract_real_url href) as [real|e] eqn:Hreal; cbn in Hrun;
      [|discriminate].
    set (l := {| url := real; title := get_text a;
                 snippet := match find_next a "a" with
                            | Some snippet_el => get_text snippet_el
                            | None => EmptyString
                            end |}) in *.
    assert (Hl : link_of a = Some l).
    { unfold link_of. rewrite Hhref, Hempty, Hreal. reflexivity. }
    cbn [omap list_omap]. rewrite Hl.
    assert (Hlen : List.length (out ++ [l]) = S (List.length out))
      by (rewrite length_app; simpl; lia).
    destruct (Z.of_nat (List.length (out ++ [l])) >=? max_links) eqn:Hcap.
    + inversion Hrun; subst out'.
      rewrite Z.geb_leb in Hcap. apply Z.leb_le in Hcap.
      replace (Z.to_nat max_links - List.length out)%nat with 1%nat by lia.
      cbn. rewrite take_0. reflexivity.
    + rewrite Z.geb_leb in Hcap. apply Z.leb_gt in Hcap.
      rewrite (IH _ _ Hcap Hrun), Hlen.
      replace (Z.to_nat max_links - List.length out)%nat
        with (S (Z.to_nat max_links - S (List.length out)))%nat by lia.
      cbn. rewrite <- app_assoc. reflexivity.
Qed.

(** X1.  With a cap of at least one, what [extract_links] returns for a page
    that it parses is exactly the first [max_links] links of the result
    anchors, in document order, the anchors without an href left out. *)
Theorem extract_links_first_links (html : string) (max_links : Z)
    (out : list Link) :
  1 <= max_links ->
  extract_links html max_links = Returns out ->
  (is_empty html || is_search_blocked html = true /\ out = [])
  \/ (exists soup,
        BeautifulSoup html = Returns soup
        /\ out = take (Z.to_nat max_links) (omap link_of (result_anchors soup))
        /\ Z.of_nat (List.length out) <= max_links).
Proof.
  unfold extract_links. intros Hpos Hrun.
  destruct (is_empty html || is_search_blocked html).
  - left. split; [reflexivity | congruence].
  - right. destruct (BeautifulSoup html) as [soup|e]; cbn in Hrun; [|discriminate].
    exists soup. split; [reflexivity|].
    apply collect_links_take in Hrun; [|simpl; lia].
    cbn in Hrun. rewrite Nat.sub_0_r in Hrun. subst out.
    split; [reflexivity|]. rewrite length_take. lia.
Qed.

(** *** extract_relevant_content *)

Lemma gathered_ok_nothing : gathered_ok nothing_gathered.
Proof.
  unfold gathered_ok, nothing_gathered; simpl.
  repeat split; try constructor; intros Hin; inversion Hin.
Qed.

Lemma foldr_len_app (l : list string) (t : string) :
  foldr (fun t n => len t + n) 0 (l ++ [t]) = foldr (fun t n => len t + n) 0 l + len t.
Proof. induction l as [|x l IH]; simpl; lia. Qed.

Lemma scan_paragraphs_ok (max_chars : Z) (paragraphs : list Tag) :
  forall g, gathered_ok g ->
    gathered_ok (scan_paragraphs max_chars paragraphs g)
    /\ forall t, t ∈ useful_content (scan_paragraphs max_chars paragraphs g) ->
                 t ∈ useful_content g \/ t ∈ get_text <$> paragraphs.
Proof.
  induction paragraphs as [|p rest IH]; intros g Hg; cbn [scan_paragraphs].
  - split; [exact Hg | auto].
  - assert (Hrest : forall g', gathered_ok g' ->
              (forall t, t ∈ useful_content g' ->
                         t ∈ useful_content g \/ t = get_text p) ->
              gathered_ok (scan_paragraphs max_chars rest g')
              /\ forall t, t ∈ useful_content (scan_paragraphs max_chars rest g') ->
                           t ∈ useful_content g \/ t ∈ get_text <$> p :: rest).
    { intros g' Hg' Hfrom. destruct (IH g' Hg') as [Hok Hin].
      split; [exact Hok|]. intros t Ht.
      rewrite fmap_cons.
      destruct (Hin t Ht) as [Hold | Hnew]; [|right; right; exact Hnew].
      destruct (Hfrom t Hold) as [Hg0 | ->]; [left; exact Hg0 | right; left]. }
    destruct (qualifies (get_text p)) eqn:Hq; cbn [negb].
    2: { apply Hrest; auto. }
    destruct (bool_decide (get_text p ∈ seen_texts g)) eqn:Hseen.
    { apply Hrest; auto. }
    apply bool_decide_eq_false in Hseen.
    set (g' := {| useful_content := (useful_content g ++ [get_text p])%list;
                  seen_texts := {[get_text p]} ∪ seen_texts g;
                  total_length := total_length g + len (get_text p) |}).
    assert (Hg' : gathered_ok g').
    { destruct Hg as (Hall & Hnd & Hset & Htot).
      unfold gathered_ok, g'; simpl. repeat split.
      - apply Forall_app. split; [exact Hall | repeat constructor; exact Hq].
      - apply NoDup_app. repeat split; [exact Hnd | | apply NoDup_singleton].
        intros t Ht Ht'. apply list_elem_of_singleton in Ht'. subst t.
        apply Hseen, Hset, Ht.
      - intros Ht. apply elem_of_app.
        apply elem_of_union in Ht as [Ht | Ht].
        + right. apply elem_of_singleton in Ht. subst. left.
        + left. apply Hset, Ht.
      - intros Ht. apply elem_of_app in Ht as [Ht | Ht].
        + apply elem_of_union_r, Hset, Ht.
        + apply list_elem_of_singleton in Ht. subst.
          apply elem_of_union_l, elem_of_singleton. reflexivity.
      - rewrite foldr_len_app, Htot. reflexivity. }
    assert (Hfrom : forall t, t ∈ useful_content g' ->
                              t ∈ useful_content g \/ t = get_text p).
    { intros t Ht. unfold g' in Ht; simpl in Ht.
      apply elem_of_app in Ht as [Ht | Ht]; [left; exact Ht|].
      apply list_elem_of_singleton in Ht. right; exact Ht. }
    fold g'.
    destruct (total_length g' >=? max_chars).
    + split; [exact Hg'|]. intros t Ht. rewrite fmap_cons.
      destruct (Hfrom t Ht) as [Hold | ->]; [left; exact Hold | right; left].
    + apply Hrest; assumption.
Qed.

Lemma scan_selectors_ok (max_chars : Z) (soup : Soup) (selectors : list string) :
  forall g, gathered_ok g ->
    gathered_ok (scan_selectors max_chars soup selectors g)
    /\ forall t, t ∈ useful_content (scan_selectors max_chars soup selectors g) ->
                 t ∈ useful_content g
                 \/ t ∈ get_text <$> List.concat ((fun sel => select soup sel) <$> selectors).
Proof.
  induction selectors as [|sel rest IH]; intros g Hg; cbn [scan_selectors].
  - split; [exact Hg | auto].
  - destruct (total_length g >=? max_chars); [split; [exact Hg | auto]|].
    destruct (scan_paragraphs_ok max_chars (select soup sel) g Hg) as [Hg1 Hin1].
    assert (Hfirst : forall t,
              t ∈ useful_content (scan_paragraphs max_chars (select soup sel) g) ->
              t ∈ useful_content g
              \/ t ∈ get_text <$> List.concat ((fun sel => select soup sel) <$> sel :: rest)).
    { intros t Ht. destruct (Hin1 t Ht) as [Hold | Hnew]; [left; exact Hold|].
      right. rewrite fmap_cons. cbn [List.concat]. rewrite fmap_app.
      apply elem_of_app. left. exact Hnew. }
    destruct (total_length (scan_paragraphs max_chars (select soup sel) g)
              >=? max_chars).
    + split; [exact Hg1 | exact Hfirst].
    + destruct (IH _ Hg1) as [Hg2 Hin2]. split; [exact Hg2|].
      intros t Ht. destruct (Hin2 t Ht) as [Hmid | Hnew]; [apply Hfirst, Hmid|].
      right. rewrite fmap_cons. cbn [List.concat]. rewrite fmap_app.
      apply elem_of_app. right. exact Hnew.
Qed.

(** X2.  What [extract_relevant_content] returns for a document that it parses
    is the join, cut at the budget, of fragments that are texts of selected
    nodes, each with at least ten characters, a keyword and no navigational
    phrase in five or more words, and no two of them equal. *)
Theorem extract_relevant_content_fragments (html : string) (max_chars : Z)
    (c : string) :
  html <> EmptyString ->
  extract_relevant_content html max_chars = Returns c ->
  exists soup fragments,
    BeautifulSoup html = Returns soup
    /\ NoDup fragments
    /\ Forall (fun t => t ∈ selected_texts soup
                        /\ 10 <= len t
                        /\ contains_keywords (lower t) = true
                        /\ is_navigational_content t 5 = false) fragments
    /\ c = if len (join " " fragments) >? max_chars
           then slice_to max_chars (join " " fragments)
           else join " " fragments.
Proof.
  intros Hne Hrun. unfold extract_relevant_content in Hrun.
  destruct html as [|ch html]; [congruence|]. cbn [is_empty] in Hrun.
  destruct (BeautifulSoup (String ch html)) as [soup|e];
    unfold mbind, outcome_bind in Hrun; [|discriminate].
  destruct (scan_selectors_ok max_chars soup content_selectors nothing_gathered
              gathered_ok_nothing) as [(Hall & Hnd & _) Hin].
  exists soup, (useful_content
                  (scan_selectors max_chars soup content_selectors nothing_gathered)).
  split; [reflexivity|]. split; [exact Hnd|].
  split; [|inversion Hrun; reflexivity].
  apply Forall_forall. intros t Ht.
  rewrite Forall_forall in Hall. specialize (Hall t Ht).
  split.
  - destruct (Hin t Ht) as [Hnil | Hsel]; [inversion Hnil | exact Hsel].
  - unfold qualifies in Hall.
    destruct (is_empty t || (len t <? 10)) eqn:Hshort; [discriminate|].
    apply orb_false_elim in Hshort as [_ Hlen]. apply Z.ltb_ge in Hlen.
    destruct (is_navigational_content t 5); [discriminate|].
    destruct (contains_keywords (lower t)); [auto | discriminate].
Qed.

(** X3.  The budget at its edges: the content never exceeds a budget that is not
    negative, and a budget of zero or less gives the empty string. *)
Theorem extract_relevant_content_budget_edges (html : string) (max_chars : Z)
    (c : string) :
  extract_relevant_content html max_chars = Returns c ->
  (0 <= max_chars -> len c <= max_chars)
  /\ (max_chars <= 0 -> c = EmptyString).
Proof.
  intros Hrun. split.
  - intros Hpos. eapply extract_relevant_content_budget; eassumption.
  - intros Hneg. unfold extract_relevant_content in Hrun.
    destruct (is_empty html); [congruence|].
    destruct (BeautifulSoup html) as [soup|e]; cbn in Hrun; [|discriminate].
    unfold content_selectors in Hrun. cbn [scan_selectors] in Hrun.
    unfold nothing_gathered in Hrun at 1. cbn [total_length] in Hrun.
    assert (Hge : (0 >=? max_chars) = true)
      by (rewrite Z.geb_leb; apply Z.leb_le; exact Hneg).
    rewrite Hge in Hrun. cbn in Hrun.
    inversion Hrun as [Hc].
    destruct (len "" >? max_chars); [|reflexivity].
    unfold slice_to. destruct (0 <=? max_chars); destruct (Z.to_nat _);
      reflexivity.
Qed.

(** *** Fetching one page *)

Section MoreBatch.
Variable session_get : string -> nat -> get_result.
Variable py_int : string -> option Z.
Variable as_completed :
  Z -> list (Link * option ScrapedPage) -> list (Link * option ScrapedPage).

Lemma read_response_body (r : PageResponse) (body : string) :
  read_response py_int r = TierReturn body -> body <> EmptyString ->
  status_code r = 200 /\ text r = Body body
  /\ forall cl, content_length r = Some cl -> cl <> EmptyString ->
                exists n, py_int cl = Some n /\ n <= 2000000.
Proof.
  unfold read_response. intros Hread Hne.
  assert (Hbody : (if status_code r =? 200
                   then match text r with
                        | Body s => TierReturn s
                        | BodyTimeout => TierTimeout
                        | BodyError => TierOtherError
                        end
                   else TierFallsThrough) = TierReturn body ->
                  status_code r = 200 /\ text r = Body body).
  { destruct (status_code r =? 200) eqn:Hcode; [|discriminate].
    apply Z.eqb_eq in Hcode. destruct (text r); try discriminate.
    intros Heq. inversion Heq. auto. }
  destruct (content_length r) as [cl|].
  - destruct (truthy cl) eqn:Ht.
    + destruct (py_int cl) as [n|] eqn:Hn; [|discriminate].
      destruct (n >? 2000000) eqn:Hbig.
      * inversion Hread. congruence.
      * destruct (Hbody Hread) as [Hc Hb]. repeat split; auto.
        intros cl' Hcl _. inversion Hcl; subst cl'. exists n.
        split; [exact Hn|].
          rewrite Z.gtb_ltb in Hbig. apply Z.ltb_ge in Hbig. exact Hbig.
    + destruct (Hbody Hread) as [Hc Hb]. repeat split; auto.
      intros cl' Hcl Hcl'. inversion Hcl; subst cl'.
      destruct cl; [congruence | discriminate].
  - destruct (Hbody Hread) as [Hc Hb]. repeat split; auto.
    intros cl Hcl. discriminate.
Qed.

(** X4.  A page text that is not empty was the body of a response with status
    200 whose declared length, if any, parsed and did not exceed 2,000,000:
    the response of the first request, or that of the retry, and the retry
    is made only when the first attempt timed out. *)
Theorem fetch_with_session_body (target : string) (body : string) :
  _fetch_with_session session_get py_int target = body ->
  body <> EmptyString ->
  exists n r,
    (n = 0%nat \/ n = 1%nat /\ tier session_get py_int target 0 = TierTimeout)
    /\ session_get target n = GotResponse r
    /\ status_code r = 200 /\ text r = Body body
    /\ forall cl, content_length r = Some cl -> cl <> EmptyString ->
                  exists k, py_int cl = Some k /\ k <= 2000000.
Proof.
  unfold _fetch_with_session. intros Hrun Hne.
  assert (Htier : forall n, tier session_get py_int target n = TierReturn body ->
            exists r, session_get target n = GotResponse r
                      /\ status_code r = 200 /\ text r = Body body
                      /\ forall cl, content_length r = Some cl -> cl <> EmptyString ->
                                    exists k, py_int cl = Some k /\ k <= 2000000).
  { intros n Hn. unfold tier in Hn.
    destruct (session_get target n) as [r| |]; try discriminate.
    exists r. split; [reflexivity|]. apply read_response_body; assumption. }
  destruct (tier session_get py_int target 0) as [s| | |] eqn:Hfirst;
    try (subst body; congruence).
  - subst s. destruct (Htier 0%nat Hfirst) as (r & Hr). exists 0%nat, r.
    split; [left; reflexivity | exact Hr].
  - destruct (tier session_get py_int target 1) as [s| | |] eqn:Hretry;
      try (subst body; congruence).
    subst s. destruct (Htier 1%nat Hretry) as (r & Hr). exists 1%nat, r.
    split; [right; split; reflexivity | exact Hr].
Qed.

(** X5.  [extract_and_scrape] with a cap of at least one: it raises only what
    [extract_links] raises (the pool of ten workers never refuses), and
    when it returns, its pages are at most [max_links], each with the URL
    of an extracted link and at most 2000 characters of content. *)
Theorem extract_and_scrape_bounded (search_html : string) (max_links : Z) :
  (forall w futures, as_completed w futures ≡ₚ futures) ->
  1 <= max_links ->
  match extract_and_scrape session_get py_int as_completed search_html max_links with
  | Returns pages =>
      exists links,
        extract_links search_html max_links = Returns links
        /\ Z.of_nat (List.length pages) <= max_links
        /\ Forall (fun pg => page_url pg ∈ url <$> links
                             /\ len (content pg) <= 2000) pages
  | Raises e => extract_links search_html max_links = Raises e
  end.
Proof.
  intros Hperm Hpos. unfold extract_and_scrape.
  destruct (extract_links search_html max_links) as [links|e] eqn:Hlinks;
    cbn; [|reflexivity].
  pose proof (extract_links_cap _ _ _ Hpos Hlinks) as Hcap.
  unfold scrape_links_content.
  destruct links as [|l0 links].
  { exists []. split; [reflexivity|]. split; [simpl; lia | constructor]. }
  set (all := l0 :: links) in *.
  destruct (Z.min 10 (Z.of_nat (List.length all)) <=? 0) eqn:Hw.
  { apply Z.leb_le in Hw. subst all. simpl List.length in Hw. lia. }
  exists all. split; [reflexivity|].
  assert (Hout : omap snd (as_completed (Z.min 10 (Z.of_nat (List.length all)))
                             (map (fun link =>
                                     (link, _scrape_single_link session_get py_int link))
                                  all))
                 ≡ₚ omap (_scrape_single_link session_get py_int) all).
  { rewrite <- omap_snd_scraped. apply omap_Permutation, Hperm. }
  split.
  - rewrite Hout.
    assert (Hle : forall l : list Link,
              (List.length (omap (_scrape_single_link session_get py_int) l)
               <= List.length l)%nat).
    { induction l as [|x l IH]; [simpl; lia|].
      cbn. destruct (_scrape_single_link session_get py_int x); simpl; lia. }
    specialize (Hle all). lia.
  - apply Forall_forall. intros pg Hin. rewrite Hout in Hin.
    apply list_elem_of_omap in Hin as (link & Hlink & Hpg).
    destruct (scrape_single_link_page _ _ _ _ Hpg) as (Hurl & Hlen & _).
    split; [|exact Hlen].
    rewrite Hurl. apply list_elem_of_fmap. exists link. auto.
Qed.

End MoreBatch.
End MoreScraperFacts.

(** ** White space, [split] and [join] *)

Section MoreStringFacts.
Import PyStr.

Local Abbreviation no_space := (all_chars (fun c => negb (is_space c))).

Lemma append_cons (c : ascii) (s t : string) :
  String c s ++ t = String c (s ++ t).
Proof. reflexivity. Qed.

Lemma append_empty (s : string) : s ++ EmptyString = s.
Proof.
  induction s as [|c s IH]; [reflexivity|]. rewrite append_cons, IH. reflexivity.
Qed.

Lemma append_assoc (a b c : string) : (a ++ b) ++ c = a ++ (b ++ c).
Proof.
  induction a as [|x a IH]; [reflexivity|]. rewrite !append_cons, IH. reflexivity.
Qed.

Lemma append_length (a b : string) :
  String.length (a ++ b) = (String.length a + String.length b)%nat.
Proof.
  induction a as [|x a IH]; [reflexivity|]. rewrite append_cons. simpl.
  rewrite IH. reflexivity.
Qed.

Lemma lower_length (s : string) : String.length (lower s) = String.length s.
Proof. induction s as [|c s IH]; simpl; [reflexivity | rewrite IH; reflexivity]. Qed.

Lemma lower_append (a b : string) : lower (a ++ b) = lower a ++ lower b.
Proof.
  induction a as [|x a IH]; [reflexivity|]. rewrite append_cons. simpl.
  rewrite IH. reflexivity.
Qed.

Lemma append_empty_l (t : string) : EmptyString ++ t = t.
Proof. reflexivity. Qed.

Lemma starts_with_empty (s : string) : starts_with EmptyString s = true.
Proof. destruct s; reflexivity. Qed.

Lemma starts_with_append (p s t : string) :
  starts_with p s = true -> starts_with p (s ++ t) = true.
Proof.
  revert s; induction p as [|a p IH]; intros s Hs.
  - apply starts_with_empty.
  - destruct s as [|b s]; [discriminate|].
    rewrite append_cons. simpl in *.
    destruct (Ascii.eqb a b); [apply IH, Hs | discriminate].
Qed.

Lemma contains_append_l (needle s t : string) :
  contains needle s = true -> contains needle (s ++ t) = true.
Proof.
  induction s as [|c s IH]; intros Hc.
  - simpl in Hc. rewrite orb_false_r in Hc.
    destruct needle; [|discriminate].
    rewrite append_empty_l. destruct t; reflexivity.
  - rewrite append_cons. simpl in Hc. apply orb_prop in Hc as [Hs | Hc].
    + pose proof (starts_with_append needle (String c s) t Hs) as Hst.
      rewrite append_cons in Hst. simpl. rewrite Hst. reflexivity.
    + simpl. rewrite (IH Hc). apply orb_true_r.
Qed.

Lemma contains_append_r (needle s t : string) :
  contains needle t = true -> contains needle (s ++ t) = true.
Proof.
  induction s as [|c s IH]; intros Hc; [exact Hc|].
  rewrite append_cons. simpl. rewrite (IH Hc). apply orb_true_r.
Qed.

(** The head of [words_from] has no white space, the other pieces are
    words. *)
Lemma words_from_shape (s : string) :
  exists h r, words_from s = h :: r /\ no_space h = true /\ Forall is_word r.
Proof.
  induction s as [|c s (h & r & Hw & Hh & Hr)]; cbn [words_from].
  - exists EmptyString, []. repeat split. constructor.
  - rewrite Hw. destruct (is_space c) eqn:Hc.
    + exists EmptyString. destruct (is_empty h) eqn:He.
      * exists r. repeat split. exact Hr.
      * exists (h :: r). repeat split. constructor; [|exact Hr].
        split; [intros ->; discriminate | exact Hh].
    + exists (String c h), r. repeat split; [|exact Hr].
      simpl. rewrite Hc, Hh. reflexivity.
Qed.

Lemma split_words (s : string) : Forall is_word (split s).
Proof.
  unfold split. destruct (words_from_shape s) as (h & r & -> & Hh & Hr).
  destruct (is_empty h) eqn:He; [exact Hr|].
  constructor; [|exact Hr]. split; [intros ->; discriminate | exact Hh].
Qed.

Lemma words_from_no_space (w s : string) :
  no_space w = true ->
  words_from (w ++ s)
  = match words_from s with
    | h :: r => (w ++ h) :: r
    | [] => [w]
    end.
Proof.
  induction w as [|c w IH]; intros Hw.
  - rewrite append_empty_l.
    destruct (words_from_shape s) as (h & r & -> & _). reflexivity.
  - simpl in Hw. apply andb_prop in Hw as [Hc Hw].
    rewrite append_cons. cbn [words_from].
    rewrite (IH Hw).
    destruct (words_from_shape s) as (h & r & -> & _).
    destruct (is_space c); [discriminate | reflexivity].
Qed.

Lemma join_cons (sep w : string) (ws : list string) :
  ws <> [] -> join sep (w :: ws) = w ++ sep ++ join sep ws.
Proof. destruct ws; [congruence | reflexivity]. Qed.

(** [" ".join(words).split()] gives the words back. *)
Lemma split_join_words (ws : list string) :
  Forall is_word ws -> split (join " " ws) = ws.
Proof.
  induction 1 as [|w ws [Hne Hw] Hws IH]; [reflexivity|].
  destruct ws as [|w2 ws].
  - cbn [join]. unfold split. rewrite <- (append_empty w) at 1.
    rewrite (words_from_no_space w EmptyString Hw). cbn [words_from].
    rewrite append_empty. destruct w; [congruence | reflexivity].
  - rewrite join_cons by congruence.
    unfold split. rewrite (words_from_no_space w _ Hw).
    change (" " ++ join " " (w2 :: ws)) with (String " " (join " " (w2 :: ws))).
    cbn [words_from].
    unfold split in IH.
    destruct (words_from_shape (join " " (w2 :: ws))) as (h & r & Hj & _).
    rewrite Hj in *. change (is_space " ") with true. cbn iota.
    rewrite append_empty. rewrite IH.
    destruct w; [congruence | reflexivity].
Qed.

Lemma join_words_nonempty (w : string) (ws : list string) :
  w <> EmptyString -> join " " (w :: ws) <> EmptyString.
Proof.
  intros Hne. destruct ws; cbn [join]; [exact Hne|].
  destruct w; [congruence | discriminate].
Qed.

Lemma rstrip_no_space (w : string) : no_space w = true -> rstrip w = w.
Proof.
  induction w as [|c w IH]; simpl; [reflexivity|].
  intros Hw. apply andb_prop in Hw as [Hc Hw].
  rewrite (IH Hw). destruct (is_space c); [discriminate | reflexivity].
Qed.

Lemma rstrip_append (a b : string) :
  rstrip b <> EmptyString -> rstrip (a ++ b) = a ++ rstrip b.
Proof.
  intros Hb. induction a as [|c a IH]; simpl; [reflexivity|].
  rewrite IH.
  assert (He : is_empty (a ++ rstrip b) = false).
  { destruct a; simpl; [|reflexivity]. destruct (rstrip b); [congruence | reflexivity]. }
  rewrite He, andb_false_r. reflexivity.
Qed.

Lemma rstrip_join_words (ws : list string) :
  Forall is_word ws -> rstrip (join " " ws) = join " " ws.
Proof.
  induction 1 as [|w ws [Hne Hw] Hws IH]; [reflexivity|].
  destruct ws as [|w2 ws]; [apply rstrip_no_space, Hw|].
  rewrite join_cons by congruence.
  assert (Hrest : rstrip (join " " (w2 :: ws)) <> EmptyString).
  { rewrite IH. apply join_words_nonempty.
    inversion Hws as [|? ? [Hne2 _] _]. exact Hne2. }
  rewrite <- append_assoc, (rstrip_append _ _ Hrest), IH. reflexivity.
Qed.

Lemma lstrip_join_words (ws : list string) :
  Forall is_word ws -> lstrip (join " " ws) = join " " ws.
Proof.
  intros Hws. destruct Hws as [|w ws [Hne Hw] Hws]; [reflexivity|].
  destruct w as [|c w]; [congruence|].
  simpl in Hw. apply andb_prop in Hw as [Hc _].
  destruct ws; cbn [join]; simpl; destruct (is_space c);
    try discriminate; reflexivity.
Qed.

(** A space-joined sequence of words has nothing to strip. *)
Lemma strip_join_words (ws : list string) :
  Forall is_word ws -> strip (join " " ws) = join " " ws.
Proof.
  intros Hws. unfold strip.
  rewrite (lstrip_join_words ws Hws). apply rstrip_join_words, Hws.
Qed.

Lemma join_append (a b : list string) :
  a <> [] -> b <> [] ->
  join " " (a ++ b) = join " " a ++ " " ++ join " " b.
Proof.
  intros Ha Hb. induction a as [|x a IH]; [congruence|].
  destruct a as [|y a].
  - cbn [app]. rewrite join_cons by exact Hb. reflexivity.
  - change ((x :: y :: a) ++ b)%list with (x :: ((y :: a) ++ b))%list.
    rewrite join_cons by (destruct b; discriminate).
    rewrite IH by congruence.
    rewrite (join_cons " " x (y :: a)) by congruence.
    rewrite !append_assoc. reflexivity.
Qed.

Lemma join_length_head (p : string) (rest : list string) :
  (String.length p <= String.length (join " " (p :: rest)))%nat.
Proof.
  destruct rest; cbn [join]; [lia|]. rewrite append_length. lia.
Qed.

End MoreStringFacts.

(** ** modules/filter.py *)

Section FilterFacts.
Import PyStr Helpers Sufficiency FilterModule.

Lemma clean_cleaned (text t : string) :
  clean text = Some t -> cleaned_text t /\ t = join " " (split text).
Proof.
  unfold clean. destruct (is_empty text); [discriminate|].
  destruct (len (join " " (split text)) <? 200) eqn:Hlen; [discriminate|].
  intros Heq. inversion Heq; subst t. split; [|reflexivity].
  apply Z.ltb_ge in Hlen.
  exists (split text). repeat split; auto using split_words.
  intros Hnil. rewrite Hnil in Hlen. unfold len in Hlen. simpl in Hlen. lia.
Qed.

(** X6.  [clean] normalises: what it returns has at least 200 characters, has
    the words of the text it was given, has no white space to strip, and
    is left as it is by a second [clean]. *)
Theorem clean_normalises (text t : string) :
  clean text = Some t ->
  200 <= len t
  /\ split t = split text
  /\ strip t = t
  /\ clean t = Some t.
Proof.
  intros Hclean.
  destruct (clean_cleaned text t Hclean) as [(ws & Hne & Hws & Ht & Hlen) Hsplit].
  assert (Hwords : split t = split text).
  { rewrite Hsplit. apply split_join_words, split_words. }
  split; [exact Hlen|]. split; [exact Hwords|].
  split; [rewrite Ht; apply strip_join_words, Hws|].
  unfold clean. rewrite Hwords, <- Hsplit.
  destruct t; [unfold len in Hlen; simpl in Hlen; lia|]. cbn [is_empty].
  apply Z.ltb_ge in Hlen. rewrite Hlen. reflexivity.
Qed.

Lemma clean_parts_cleaned (pages : list (gmap string string)) :
  Forall (fun part => cleaned_text part
                      /\ exists page, page ∈ pages
                           /\ clean (default " " (page !! "content")) = Some part)
    (clean_parts pages).
Proof.
  induction pages as [|page pages IH]; cbn [clean_parts]; [constructor|].
  assert (Hrest : Forall (fun part => cleaned_text part
                    /\ exists pg, pg ∈ page :: pages
                         /\ clean (default " " (pg !! "content")) = Some part)
                    (clean_parts pages)).
  { eapply Forall_impl; [exact IH|]. intros part (Hc & pg & Hpg & Hcl).
    split; [exact Hc|]. exists pg. split; [right; exact Hpg | exact Hcl]. }
  destruct (clean (default " " (page !! "content"))) as [cleaned|] eqn:Hclean;
    [|exact Hrest].
  destruct (truthy cleaned); [|exact Hrest].
  constructor; [|exact Hrest].
  split; [apply (clean_cleaned _ _ Hclean)|].
  exists page. split; [left | exact Hclean].
Qed.

(** The join of cleaned parts is again a space-joined sequence of words. *)
Lemma join_cleaned (parts : list string) :
  parts <> [] -> Forall cleaned_text parts ->
  exists ws, ws <> [] /\ Forall is_word ws /\ join " " parts = join " " ws.
Proof.
  intros Hne Hparts. induction Hparts as [|p parts (ws & Hws & Hw & Hp & _) Hrest IH];
    [congruence|].
  destruct parts as [|q parts].
  - exists ws. cbn [join]. auto.
  - destruct (IH ltac:(congruence)) as (ws' & Hws' & Hw' & Hj).
    exists (ws ++ ws')%list. repeat split.
    + destruct ws; [congruence | discriminate].
    + apply Forall_app. auto.
    + rewrite join_cons by congruence.
      rewrite join_append by assumption. rewrite Hj, Hp. reflexivity.
Qed.

(** X7.  [filter_page_contents] drops every page whose normalised content has
    fewer than 200 characters, however many such pages there are.  With no
    page left it raises InsufficientContentError; otherwise the length test
    of [is_sufficient_content] cannot fail, and the joined content is
    returned unless it contains "no useful content" or "not found", in any
    case of the letters. *)
Theorem filter_page_contents_cases (pages : list (gmap string string))
    (topic : string) :
  let parts := clean_parts pages in
  let content := join " " parts in
  Forall (fun part => 200 <= len part
                      /\ exists page, page ∈ pages
                           /\ clean (default " " (page !! "content")) = Some part)
    parts
  /\ (parts = [] ->
      filter_page_contents pages topic = inl (InsufficientContentError topic))
  /\ (parts <> [] ->
      filter_page_contents pages topic
      = if contains "no useful content" (lower content)
           || contains "not found" (lower content)
        then inl (InsufficientContentError topic)
        else inr content).
Proof.
  intros parts content.
  pose proof (clean_parts_cleaned pages) as Hparts. fold parts in Hparts.
  split; [|split].
  - eapply Forall_impl; [exact Hparts|].
    intros part ((ws & _ & _ & _ & Hlen) & Hpage). auto.
  - intros Hnil. unfold filter_page_contents. fold parts. rewrite Hnil.
    reflexivity.
  - intros Hne. unfold filter_page_contents. fold parts. fold content.
    assert (Hclean : Forall cleaned_text parts)
      by (eapply Forall_impl; [exact Hparts | intros part [Hc _]; exact Hc]).
    destruct (join_cleaned parts Hne Hclean) as (ws & Hws & Hw & Hj).
    fold content in Hj.
    assert (Hstrip : strip content = content)
      by (rewrite Hj; apply strip_join_words, Hw).
    assert (Hlen : 200 <= len content).
    { destruct parts as [|p rest]; [congruence|].
      inversion Hclean as [|? ? (ws0 & _ & _ & _ & Hp) _]; subst.
      pose proof (join_length_head p rest) as Hhead.
      unfold content, len in *. lia. }
    unfold is_sufficient_content. rewrite Hstrip.
    destruct content as [|c content'] eqn:Hcontent;
      [unfold len in Hlen; simpl in Hlen; lia|].
    cbn [is_empty]. rewrite <- Hcontent in *.
    assert (Hlong : (len (lower content) <? MIN_CONTENT_WORDS) = false).
    { apply Z.ltb_ge. unfold len, MIN_CONTENT_WORDS in *.
      rewrite lower_length. lia. }
    rewrite Hlong.
    destruct (contains "no useful content" (lower content)
              || contains "not found" (lower content)); reflexivity.
Qed.

End FilterFacts.

(** ** The proxy manager, further *)

Section MoreProxyFacts.
Import PyStr Helpers Proxy.
Context `{PyFloat}.

(** *** What a successful fetch returns *)

Lemma classify_response (target : string) (g : get_result) (r : Response) :
  classify target g = inr r ->
  g = Got r /\ status_code r = 200
  /\ is_duckduckgo target && is_search_blocked (text r) = false.
Proof.
  unfold classify. destruct g as [r0|e]; [|discriminate].
  destruct (status_code r0 =? 200) eqn:Hcode; cbn [negb]; [|discriminate].
  destruct (is_duckduckgo target && is_search_blocked (text r0)) eqn:Hb;
    [discriminate|].
  intros Heq. inversion Heq; subst r0. apply Z.eqb_eq in Hcode. auto.
Qed.

Lemma attempts_success (world : nat -> Attempt) (target : string)
    (prefer_fast : bool) (budget : nat) :
  forall attempt last_error s fs done_so_far body r,
    returned_value (attempts world target prefer_fast budget attempt last_error
                      s fs done_so_far) = Returns (body, r) ->
    body = text r /\ status_code r = 200
    /\ is_duckduckgo target && is_search_blocked body = false
    /\ exists earlier p,
         tried (attempts world target prefer_fast budget attempt last_error
                  s fs done_so_far)
         = (done_so_far ++ earlier ++ [p])%list
         /\ p <> EmptyString
         /\ requests_get (world (attempt + List.length earlier)%nat) target p = Got r.
Proof.
  induction budget as [|budget IH];
    intros attempt last_error s fs done_so_far body r Hret; cbn [attempts] in *.
  - discriminate.
  - destruct (get_proxy (dice (world attempt)) prefer_fast s) as [[proxy|e] s1];
      cbn beta iota zeta in *; [|discriminate].
    destruct (truthy (default EmptyString proxy)) eqn:Htruthy; [|discriminate].
    set (p := default EmptyString proxy) in *.
    destruct (classify target (requests_get (world attempt) target p))
      as [err|r0] eqn:Hclass.
    + destruct (mark_proxy_bad s1 fs p) as [s2 fs2].
      destruct (IH _ _ _ _ _ _ _ Hret) as (Hb & Hc & Hu & earlier & q & Ht & Hq & Hg).
      repeat split; auto.
      exists (p :: earlier), q. rewrite Ht, <- app_assoc. cbn.
      repeat split; auto.
      replace (attempt + S (List.length earlier))%nat
        with (S attempt + List.length earlier)%nat by lia.
      exact Hg.
    + cbn in Hret. inversion Hret; subst body r0.
      destruct (classify_response _ _ _ Hclass) as (Hg & Hc & Hu).
      repeat split; auto.
      exists [], p. cbn. rewrite Nat.add_0_r. repeat split; auto.
      intros Hp. rewrite Hp in Htruthy. discriminate.
Qed.

(** X8.  What [fetch] returns is the body of a response with status 200 that
    came through the last proxy it tried, at the attempt that followed the
    earlier ones; for a URL with duckduckgo.com in it the body does not
    match the block indicators. *)
Theorem fetch_returns_unblocked_200 (world : nat -> Attempt) (target : string)
    (prefer_fast : bool) (s : PM) (fs : Files) (body : string) (r : Response) :
  returned_value (fetch world target prefer_fast s fs) = Returns (body, r) ->
  body = text r /\ status_code r = 200
  /\ (is_duckduckgo target = true -> is_search_blocked body = false)
  /\ exists earlier p,
       tried (fetch world target prefer_fast s fs) = (earlier ++ [p])%list
       /\ p <> EmptyString
       /\ requests_get (world (List.length earlier)) target p = Got r.
Proof.
  unfold fetch. intros Hret.
  destruct (attempts_success _ _ _ _ _ _ _ _ _ _ _ Hret)
    as (Hb & Hc & Hu & earlier & p & Ht & Hp & Hg).
  repeat split; auto.
  - intros Hddg. rewrite Hddg in Hu. exact Hu.
  - exists earlier, p. auto.
Qed.

(** *** The number of attempts and of quarantines *)

Lemma get_proxy_stats (d : Dice) (prefer_fast : bool) (s : PM) :
  stats (get_proxy d prefer_fast s).2 = stats s.
Proof.
  unfold get_proxy. destruct (proxies s); [reflexivity|].
  destruct (filter _ (proxy_data s)); reflexivity.
Qed.

Lemma choice_raises {A} (d : Dice) (l : list A) (e : exn) :
  choice d l = Raises e -> e = IndexError.
Proof.
  unfold choice. destruct (l !! _); [discriminate|]. congruence.
Qed.

(** The only exception that leaves [get_proxy] is the IndexError of
    [random.choice]. *)
Lemma get_proxy_raises (d : Dice) (prefer_fast : bool) (s : PM) (e : exn) :
  (get_proxy d prefer_fast s).1 = Raises e -> e = IndexError.
Proof.
  unfold get_proxy. destruct (proxies s); [discriminate|].
  assert (Hsel : forall av : list ProxyRecord,
            (x ← (if prefer_fast then
                    if coin d then
                      choice d (take (Nat.max 1 (List.length av / 3)) av)
                    else choice d av
                  else choice d av); Returns (Some (url x))) = Raises e ->
            e = IndexError).
  { intros av Hl.
    destruct prefer_fast; [destruct (coin d)|];
      match type of Hl with
      | context [choice d ?seq] =>
          destruct (choice d seq) eqn:Hc; [discriminate|];
          cbn in Hl; inversion Hl; subst; eapply choice_raises, Hc
      end. }
  destruct (filter _ (proxy_data s)); cbn [fst]; apply Hsel.
Qed.

Lemma mark_proxy_bad_counter (s : PM) (fs : Files) (proxy : string) :
  proxies_marked_bad (stats (mark_proxy_bad s fs proxy).1)
  = proxies_marked_bad (stats s)
    + (if is_empty proxy || bool_decide (proxy ∈ bad_proxies s) then 0 else 1).
Proof.
  pose proof (quarantined_frame s proxy) as (_ & _ & Hq3 & _).
  pose proof (save_frame (quarantined s proxy) fs) as (_ & _ & Hs3 & _).
  destruct (mark_proxy_bad_cases s fs proxy)
    as [[Hskip Heq] | [(Hne & Hfresh & _ & Heq) | (Hne & Hfresh & _ & Heq)]];
    rewrite Heq; cbn [fst].
  - destruct Hskip as [-> | Hin]; [simpl; lia|].
    rewrite (bool_decide_eq_true_2 _ Hin), orb_true_r. lia.
  - rewrite Hs3, Hq3. rewrite (bool_decide_eq_false_2 _ Hfresh).
    destruct proxy; [congruence | reflexivity].
  - rewrite Hq3. rewrite (bool_decide_eq_false_2 _ Hfresh).
    destruct proxy; [congruence | reflexivity].
Qed.

Lemma attempts_bounded (world : nat -> Attempt) (target : string)
    (prefer_fast : bool) (budget : nat) :
  forall attempt last_error s fs done_so_far,
    let e := attempts world target prefer_fast budget attempt last_error s fs
               done_so_far in
    exists sent,
      tried e = (done_so_far ++ sent)%list
      /\ (List.length sent <= budget)%nat
      /\ (forall u cause a t,
            returned_value e = Raises (ProxyFailureError u cause a t false) ->
            List.length sent = budget)
      /\ proxies_marked_bad (stats s) <= proxies_marked_bad (stats (manager e))
      /\ proxies_marked_bad (stats (manager e))
         + (if returned (returned_value e) then 1 else 0)
         <= proxies_marked_bad (stats s) + Z.of_nat (List.length sent).
Proof.
  induction budget as [|budget IH]; intros attempt last_error s fs done_so_far;
    cbn [attempts].
  - exists []. cbn. rewrite app_nil_r. repeat split; auto; lia.
  - pose proof (get_proxy_stats (dice (world attempt)) prefer_fast s) as Hstats.
    pose proof (get_proxy_raises (dice (world attempt)) prefer_fast s) as Hraises.
    destruct (get_proxy (dice (world attempt)) prefer_fast s) as [[proxy|e] s1];
      cbn [fst snd] in Hstats, Hraises.
    2: { exists []. cbn. rewrite app_nil_r, Hstats.
         repeat split; auto; try lia.
         intros u cause a t Heq. rewrite (Hraises e eq_refl) in Heq. discriminate. }
    destruct (truthy (default EmptyString proxy)) eqn:Htruthy.
    2: { exists []. cbn. rewrite app_nil_r, Hstats.
         repeat split; auto; try lia. intros; discriminate. }
    set (p := default EmptyString proxy) in *.
    destruct (classify target (requests_get (world attempt) target p)) as [err|r].
    + pose proof (mark_proxy_bad_counter s1 fs p) as Hcount.
      destruct (mark_proxy_bad s1 fs p) as [s2 fs2]. cbn [fst] in Hcount.
      destruct (IH (S attempt) (Some err) s2 fs2 (done_so_far ++ [p])%list)
        as (sent & Ht & Hlen & Hex & Hlow & Hhigh).
      exists (p :: sent). rewrite Ht, <- app_assoc. cbn [app List.length].
      rewrite Hstats in Hcount.
      assert (Hstep : proxies_marked_bad (stats s)
                      <= proxies_marked_bad (stats s2)
                      <= proxies_marked_bad (stats s) + 1).
      { rewrite Hcount.
        destruct (is_empty p || bool_decide (p ∈ bad_proxies s1)); lia. }
      split; [reflexivity|]. split; [lia|].
      split; [intros u cause a t Hraise; rewrite (Hex u cause a t Hraise); reflexivity|].
      split; [lia|]. destruct (returned _); lia.
    + exists [p]. cbn. rewrite Hstats.
      split; [reflexivity|]. split; [lia|].
      split; [intros; discriminate|]. split; lia.
Qed.

(** X9.  [fetch] sends at most [max_retries] requests.  When it gives up for
    want of success, it has sent exactly that many.  Each request that
    fails adds at most one to the counter of proxies marked bad, and the
    request that succeeds adds none. *)
Theorem fetch_attempts_bounded (world : nat -> Attempt) (target : string)
    (prefer_fast : bool) (s : PM) (fs : Files) :
  let e := fetch world target prefer_fast s fs in
  (List.length (tried e) <= Z.to_nat (max_retries s))%nat
  /\ (forall u cause a t,
        returned_value e = Raises (ProxyFailureError u cause a t false) ->
        List.length (tried e) = Z.to_nat (max_retries s))
  /\ proxies_marked_bad (stats s) <= proxies_marked_bad (stats (manager e))
  /\ proxies_marked_bad (stats (manager e))
     + (if returned (returned_value e) then 1 else 0)
     <= proxies_marked_bad (stats s) + Z.of_nat (List.length (tried e)).
Proof.
  unfold fetch.
  destruct (attempts_bounded world target prefer_fast (Z.to_nat (max_retries s))
              0%nat None (set_stats (add_total (stats s)) s) fs [])
    as (sent & Ht & Hlen & Hex & Hlow & Hhigh).
  cbn [app] in Ht. rewrite Ht. cbn in Hlow, Hhigh.
  split; [exact Hlen|]. split; [exact Hex|]. split; [exact Hlow | exact Hhigh].
Qed.

(** *** The records that are loaded *)

Lemma fallback_record_url (u : string) (p : ProxyRecord) :
  fallback_record u = Some p ->
  url p = u /\ u <> EmptyString /\ status p = "working" /\ row p = None
  /\ response_time_ms p = float_zero.
Proof.
  unfold fallback_record. intros Hrec.
  destruct u as [|c u]; [vm_compute in Hrec; discriminate|].
  destruct (split_on ":" _) as [|a [|b [|? ?]]]; try discriminate.
  inversion Hrec; subst; simpl.
  split; [reflexivity|]. split; [discriminate|]. repeat split.
Qed.

(** X10.  Whatever the files hold, a record that [_load_proxies] returns
    has the status "working" and an endpoint that is not empty.  It is
    either a record of the built-in list, without a row and with latency
    zero, or the record made from an eligible row of the catalogue: its
    host, port and status are those of the row with the white space around
    them removed (the status of a row counting as "working" when the
    catalogue has no status column), its endpoint is socks5://host:port,
    and its latency is the parsed latency of the row. *)
Theorem load_proxies_records (PROXIES : list string) (fs : Files)
    (p : ProxyRecord) :
  p ∈ _load_proxies PROXIES fs ->
  status p = "working" /\ url p <> EmptyString
  /\ ((row p = None /\ url p ∈ PROXIES /\ response_time_ms p = float_zero)
      \/ (exists file_content r,
            csv_file fs = Some file_content /\ r ∈ DictReader file_content
            /\ eligible r = true /\ row p = Some r
            /\ url p = "socks5://" ++ ip p ++ ":" ++ port p
            /\ ip p <> EmptyString /\ port p <> EmptyString
            /\ exists host prt state,
                 row_get r "ip" (Some EmptyString) = Some host
                 /\ row_get r "port" (Some EmptyString) = Some prt
                 /\ row_get r "status" (Some "working") = Some state
                 /\ ip p = strip host /\ port p = strip prt
                 /\ status p = strip state
                 /\ row_response_time r = Returns (response_time_ms p))).
Proof.
  intros Hin.
  destruct (load_proxies_only_eligible PROXIES fs p Hin)
    as [[Hfb _] | (file_content & r & Hfile & Hr & Hload)].
  - apply list_elem_of_omap in Hfb as (u & Hu & Hrec).
    apply fallback_record_url in Hrec as (Hurl & Hne & Hst & Hrow & Hrt).
    repeat split; try congruence.
    left. rewrite Hurl. auto.
  - apply load_row_made_from in Hload as [He Hmade].
    destruct Hmade as (host & prt & state & Hh & Hp & Hs & Hip & Hipne & Hport
                       & Hportne & Hstate & Hworking & Hurl & Hrt & Hrow).
    split; [exact Hworking|]. split; [rewrite Hurl; discriminate|].
    right. exists file_content, r.
    split; [exact Hfile|]. split; [exact Hr|]. split; [exact He|].
    split; [exact Hrow|]. split; [exact Hurl|]. split; [exact Hipne|].
    split; [exact Hportne|].
    exists host, prt, state. auto 10.
Qed.

(** X11.  The catalogue is taken as a whole or not at all: without a file, with
    a row that cannot be read (a value missing in host, port or status, or
    a latency of an eligible row that does not parse), or without an
    eligible row, [_load_proxies] returns the records of the built-in list
    and none of the catalogue. *)
Theorem load_proxies_falls_back (PROXIES : list string) (fs : Files) :
  (csv_file fs = None
   \/ exists file_content,
        csv_file fs = Some file_content
        /\ (Exists (fun r => ~ readable r) (DictReader file_content)
            \/ Forall (fun r => eligible r = false) (DictReader file_content))) ->
  _load_proxies PROXIES fs = _load_fallback_proxies PROXIES
  /\ Forall (fun p => row p = None) (_load_proxies PROXIES fs).
Proof.
  intros Hcase.
  pose proof (load_proxies_other_cases PROXIES fs Hcase) as Hfb.
  split; [exact Hfb|]. rewrite Hfb.
  apply Forall_forall. intros p Hp. eapply fallback_has_no_row, Hp.
Qed.

(** *** The invariant with the endpoints *)

Lemma listed_ok_init (PROXIES : list string) (fs : Files) (r t : Z) :
  listed_ok (init PROXIES fs r t).
Proof.
  split; [reflexivity|]. cbn [proxies init].
  apply Forall_fmap, Forall_forall. intros p Hp.
  destruct (load_proxies_only_eligible PROXIES fs p Hp)
    as [[Hfb _] | (file_content & row0 & _ & _ & Hload)].
  - apply list_elem_of_omap in Hfb as (u & _ & Hrec).
    apply fallback_record_url in Hrec as (Hurl & Hne & _). simpl. congruence.
  - apply load_row_record in Hload as (_ & _ & _ & _ & _ & Hurl & _).
    simpl. rewrite Hurl. discriminate.
Qed.

Lemma listed_ok_mark (s : PM) (fs : Files) (proxy : string) :
  listed_ok s -> listed_ok (mark_proxy_bad s fs proxy).1.
Proof.
  intros [Hok Hne]. split; [apply mark_proxy_bad_ok, Hok|].
  pose proof (mark_proxy_bad_frame s fs proxy) as (Hp & _).
  rewrite Hp. exact Hne.
Qed.

Lemma listed_ok_selection (s : PM) : listed_ok s -> listed_ok (after_selection s).
Proof.
  unfold after_selection. destruct (filter _ (proxy_data s)); auto.
Qed.

Lemma proxies_after_selection (s : PM) : proxies (after_selection s) = proxies s.
Proof. unfold after_selection. destruct (filter _ (proxy_data s)); reflexivity. Qed.

Lemma proxies_after_mark (s : PM) (fs : Files) (proxy : string) :
  proxies (mark_proxy_bad s fs proxy).1 = proxies s.
Proof. apply mark_proxy_bad_frame. Qed.

Lemma attempts_listed (world : nat -> Attempt) (target : string)
    (prefer_fast : bool) (budget : nat) :
  forall attempt last_error s fs done_so_far u cause a t,
    listed_ok s -> proxies s <> [] ->
    returned_value (attempts world target prefer_fast budget attempt last_error
                      s fs done_so_far)
    <> Raises (ProxyFailureError u cause a t true).
Proof.
  induction budget as [|budget IH];
    intros attempt last_error s fs done_so_far u cause a t Hok Hne;
    cbn [attempts].
  - cbn. congruence.
  - destruct (get_proxy_selects (dice (world attempt)) prefer_fast s
                (proj1 Hok) Hne) as (p & Hp & Hget).
    rewrite Hget.
    assert (Hurl : url p <> EmptyString).
    { destruct Hok as [Hdir Hall]. rewrite Forall_forall in Hall.
      apply Hall. rewrite Hdir. apply list_elem_of_fmap. exists p.
      split; [reflexivity | apply candidates_subset, Hp]. }
    change (default EmptyString (Some (url p))) with (url p).
    destruct (url p) as [|c rest] eqn:Hu; [congruence|].
    cbn [truthy is_empty negb].
    destruct (classify target _) as [err|r]; [|cbn; congruence].
    pose proof (listed_ok_mark (after_selection s) fs (String c rest)
                  (listed_ok_selection s Hok)) as Hok2.
    pose proof (proxies_after_mark (after_selection s) fs (String c rest)) as Hsame.
    destruct (mark_proxy_bad (after_selection s) fs (String c rest)) as [s2 fs2].
    cbn [fst] in Hok2, Hsame.
    apply IH; [exact Hok2|]. rewrite Hsame, proxies_after_selection. exact Hne.
Qed.

(** X12.  For a directory that lists its endpoints, none of them empty, [fetch]
    raises the error of the missing proxy exactly when the directory is
    empty and the budget is positive; it has then sent no request and left
    the files alone. *)
Theorem fetch_no_proxy_iff_empty (world : nat -> Attempt) (target : string)
    (prefer_fast : bool) (s : PM) (fs : Files) :
  listed_ok s ->
  let e := fetch world target prefer_fast s fs in
  ((exists u cause a t,
      returned_value e = Raises (ProxyFailureError u cause a t true))
   <-> proxies s = [] /\ 0 < max_retries s)
  /\ (proxies s = [] -> tried e = [] /\ files e = fs
      /\ exists cause no_proxy,
           returned_value e = Raises (ProxyFailureError target cause 0 0 no_proxy)).
Proof.
  intros Hok e. subst e. unfold fetch.
  set (s0 := set_stats (add_total (stats s)) s).
  assert (Hok0 : listed_ok s0) by exact Hok.
  assert (Hempty : proxies s = [] ->
            forall budget,
              attempts world target prefer_fast budget 0 None s0 fs []
              = {| returned_value :=
                     Raises (ProxyFailureError target None 0 0
                               (negb (Nat.eqb budget 0)));
                   manager := set_stats (add_failed (stats s0)) s0;
                   files := fs; tried := [] |}).
  { intros Hnil budget.
    assert (Hcount : get_available_proxy_count
                       (set_stats (add_failed (stats s0)) s0) = 0%nat
                     /\ get_proxy_count (set_stats (add_failed (stats s0)) s0) = 0%nat).
    { unfold get_available_proxy_count, get_proxy_count. cbn [proxies set_stats s0].
      rewrite Hnil. split; reflexivity. }
    destruct Hcount as [Hav Hcnt].
    destruct budget as [|budget]; cbn [attempts].
    - rewrite Hav, Hcnt. reflexivity.
    - unfold get_proxy. cbn [proxies set_stats s0]. rewrite Hnil.
      change (default EmptyString None) with EmptyString.
      cbn [truthy is_empty negb]. rewrite Hav, Hcnt. reflexivity. }
  split.
  - split.
    + intros (u & cause & a & t & Hraise).
      destruct (proxies s) as [|x l] eqn:Hp.
      * split; [reflexivity|].
        rewrite (Hempty eq_refl) in Hraise. cbn in Hraise.
        destruct (Z.to_nat (max_retries s)) eqn:Hb; [discriminate | lia].
      * exfalso. eapply (attempts_listed world target prefer_fast); [exact Hok0 | | exact Hraise].
        cbn [proxies set_stats s0]. rewrite Hp. discriminate.
    + intros [Hnil Hpos]. rewrite (Hempty Hnil). cbn.
      destruct (Z.to_nat (max_retries s)) eqn:Hb; [lia|].
      exists target, None, 0%nat, 0%nat. reflexivity.
  - intros Hnil. rewrite (Hempty Hnil). cbn. repeat split. eauto.
Qed.

(** *** Selection among live endpoints *)

Lemma choice_lookup {A} (d : Dice) (l : list A) (x : A) :
  choice d l = Returns x -> l !! (pick d mod List.length l)%nat = Some x.
Proof.
  unfold choice. destruct (l !! _) as [y|]; [|discriminate]. congruence.
Qed.

(** X13.  While an endpoint of the directory is not quarantined, [get_proxy]
    returns a listed endpoint that is not quarantined and leaves the
    manager as it is.  With [prefer_fast] and the 80 percent branch taken,
    the endpoint is that of one of the first max(1, n // 3) of the n live
    records, in the order of the directory. *)
Theorem get_proxy_returns_live (d : Dice) (prefer_fast : bool) (s : PM) :
  directory_ok s ->
  Exists (fun p => url p ∉ bad_proxies s) (proxy_data s) ->
  let live := filter (fun p => url p ∉ bad_proxies s) (proxy_data s) in
  exists i p,
    live !! i = Some p
    /\ get_proxy d prefer_fast s = (Returns (Some (url p)), s)
    /\ url p ∈ proxies s /\ (url p ∉ bad_proxies s)
    /\ (prefer_fast = true -> coin d = true ->
        (i < Nat.max 1 (List.length live / 3))%nat).
Proof.
  intros Hok Hlive live.
  assert (Hne : live <> []).
  { apply Exists_exists in Hlive as (q & Hq & Hfree).
    intros Hnil.
    assert (Hin : q ∈ live) by (apply list_elem_of_filter; auto).
    rewrite Hnil in Hin. inversion Hin. }
  assert (Hmem : forall i p, live !! i = Some p ->
            url p ∈ proxies s /\ url p ∉ bad_proxies s).
  { intros i p Hi. apply list_elem_of_lookup_2 in Hi.
    apply list_elem_of_filter in Hi as [Hfree Hin].
    split; [|exact Hfree]. rewrite Hok. apply list_elem_of_fmap. eauto. }
  assert (Hp : proxies s <> []).
  { intros Hnil. rewrite Hok in Hnil. apply fmap_nil_inv in Hnil.
    subst live. rewrite Hnil in Hne. apply Hne. reflexivity. }
  unfold get_proxy. destruct (proxies s) as [|u us] eqn:Hps; [congruence|].
  fold live. destruct live as [|q l] eqn:Hl; [congruence|]. rewrite <- Hl in *.
  assert (Hslow : exists i p, live !! i = Some p /\ choice d live = Returns p).
  { destruct (choice_member d live Hne) as (x & Hx & _).
    exists (pick d mod List.length live)%nat, x.
    split; [apply choice_lookup, Hx | exact Hx]. }
  destruct prefer_fast; [destruct (coin d) eqn:Hcoin|].
  - destruct (choice_member d _ (take_top_nonempty live Hne)) as (x & Hx & _).
    pose proof (choice_lookup d _ x Hx) as Hi.
    apply lookup_take_Some in Hi as [Hi Hlt].
    eexists _, x. split; [exact Hi|]. rewrite Hx. cbn.
    destruct (Hmem _ _ Hi). repeat split; auto.
  - destruct Hslow as (i & p & Hi & Hx). exists i, p.
    rewrite Hx. cbn. destruct (Hmem _ _ Hi). repeat split; auto; congruence.
  - destruct Hslow as (i & p & Hi & Hx). exists i, p.
    rewrite Hx. cbn. destruct (Hmem _ _ Hi). repeat split; auto; congruence.
Qed.

(** *** Saving *)

Lemma writerow_fields (r : Row) (line : list string) :
  writerow r = Returns line -> List.length line = 8%nat.
Proof.
  unfold writerow. destruct (_ || _); [discriminate|].
  intros Heq. inversion Heq. reflexivity.
Qed.

Lemma write_rows_lines (l : list ProxyRecord) :
  forall lines,
    write_rows l = Returns lines ->
    Forall (fun line => List.length line = 8%nat) lines
    /\ (List.length lines <= List.length l)%nat.
Proof.
  induction l as [|p l IH]; intros lines Hw; cbn [write_rows] in Hw.
  - inversion Hw. split; [constructor | simpl; lia].
  - assert (Hskip : write_rows l = Returns lines ->
              Forall (fun line => List.length line = 8%nat) lines
              /\ (List.length lines <= List.length (p :: l))%nat).
    { intros Hl. destruct (IH lines Hl). split; [assumption | simpl; lia]. }
    destruct (row p) as [r|]; [|auto].
    destruct (row_truthy r); [|auto].
    destruct (writerow r) as [line|e] eqn:Hline; [|discriminate].
    destruct (write_rows l) as [more|e]; [|discriminate].
    cbn in Hw. inversion Hw; subst lines.
    destruct (IH more eq_refl) as [Hall Hlen].
    split; [constructor; [eapply writerow_fields, Hline | exact Hall] | simpl; lia].
Qed.

(** X14.  [_save_proxies_to_csv] replaces the catalogue or leaves it
    alone: when it returns False the catalogue has the content it had;
    when it returns True the catalogue is the header of the eight columns
    followed by lines of eight fields, at most one for each record.
    Whenever it touches the files no temporary file is left.  The backup
    is best effort: a catalogue that existed is the backup when the copy
    is made, and a copy that fails changes neither the flag returned, nor
    the manager, nor the catalogue written.  The save changes neither the
    listed endpoints nor the quarantine set nor the counters. *)
Theorem save_replaces_or_keeps (s : PM) (fs : Files) :
  let saved := _save_proxies_to_csv s fs in
  (saved.1.1 = false -> csv_file saved.2 = csv_file fs)
  /\ (saved.1.1 = true ->
      exists lines,
        csv_file saved.2 = Some (fieldnames :: lines)
        /\ Forall (fun line => List.length line = 8%nat) lines
        /\ (List.length lines <= List.length (proxy_data s))%nat)
  /\ (saved.2 <> fs ->
      temp_file saved.2 = None
      /\ backup_file saved.2
         = match csv_file fs, backup_copies fs 0 with
           | Some previous, Copied => Some previous
           | Some _, CopyFailed left_behind => left_behind
           | None, _ => backup_file fs
           end)
  /\ (forall copies,
        let other :=
          _save_proxies_to_csv s
            {| csv_file := csv_file fs; backup_file := backup_file fs;
               temp_file := temp_file fs; backup_copies := copies |} in
        other.1 = saved.1 /\ csv_file other.2 = csv_file saved.2)
  /\ proxies saved.1.2 = proxies s
  /\ bad_proxies saved.1.2 = bad_proxies s
  /\ stats saved.1.2 = stats s.
Proof.
  intros saved.
  pose proof (save_frame s fs) as (Hp & Hb & Hst & _). fold saved in Hp, Hb, Hst.
  assert (Hbackup : (create_backup fs).1
                    = match csv_file fs, backup_copies fs 0 with
                      | Some previous, Copied => Some previous
                      | Some _, CopyFailed left_behind => left_behind
                      | None, _ => backup_file fs
                      end).
  { unfold create_backup. destruct (csv_file fs); [|reflexivity].
    cbn [file_exists fst]. destruct (backup_copies fs 0); reflexivity. }
  subst saved. unfold _save_proxies_to_csv in *. cbn [csv_file].
  destruct (filter (fun p => has_row p = true) (proxy_data s)) as [|q l] eqn:Hf.
  { cbn. split; [reflexivity|]. split; [discriminate|].
    split; [congruence|]. split; [intros copies; split; reflexivity|].
    split; [reflexivity|]. split; reflexivity. }
  destruct (write_rows _) as [lines|e] eqn:Hw; cbn [fst snd csv_file].
  - split; [discriminate|]. split.
    { intros _. exists lines. split; [reflexivity|].
      destruct (write_rows_lines _ _ Hw) as [Hall Hlen].
      split; [exact Hall|].
      etransitivity; [exact Hlen|].
      etransitivity; [apply length_filter|]. rewrite length_fmap. lia. }
    split; [intros _; split; [reflexivity | exact Hbackup]|].
    split; [intros copies; split; reflexivity|].
    split; [exact Hp|]. split; [exact Hb | exact Hst].
  - split; [reflexivity|]. split; [discriminate|].
    split; [intros _; split; [reflexivity | exact Hbackup]|].
    split; [intros copies; split; reflexivity|].
    split; [exact Hp|]. split; [exact Hb | exact Hst].
Qed.

(** *** Quarantine and the counts *)

Lemma filter_quarantine_length (proxy : string) (b : gset string) (l : list string) :
  proxy ∈ l -> proxy ∉ b ->
  (List.length (filter (fun p => p ∉ {[proxy]} ∪ b) l)
   < List.length (filter (fun p => p ∉ b) l))%nat.
Proof.
  intros Hin Hfree. induction l as [|x l IH]; [inversion Hin|].
  assert (Hle : (List.length (filter (fun p => p ∉ {[proxy]} ∪ b) l)
                 <= List.length (filter (fun p => p ∉ b) l))%nat).
  { clear. induction l as [|y l IH]; [simpl; lia|].
    destruct (decide (y ∈ b)) as [Hy | Hy].
    - rewrite !filter_cons_False; [exact IH | tauto | set_solver].
    - rewrite (filter_cons_True (fun p => p ∉ b)) by exact Hy.
      destruct (decide (y ∈ {[proxy]} ∪ b)).
      + rewrite filter_cons_False by tauto. simpl. lia.
      + rewrite filter_cons_True by assumption. simpl. lia. }
  apply elem_of_cons in Hin as [<- | Hin].
  - rewrite filter_cons_False by set_solver.
    rewrite filter_cons_True by exact Hfree. simpl. lia.
  - specialize (IH Hin). destruct (decide (x ∈ b)) as [Hx | Hx].
    + rewrite !filter_cons_False; [exact IH | tauto | set_solver].
    + rewrite (filter_cons_True (fun p => p ∉ b)) by exact Hx.
      destruct (decide (x ∈ {[proxy]} ∪ b)).
      * rewrite filter_cons_False by tauto. simpl. lia.
      * rewrite filter_cons_True by assumption. simpl. lia.
Qed.

Lemma status_persisted (b : gset string) (p : ProxyRecord) :
  status p = "failed" -> status (persisted b p) = "failed".
Proof.
  unfold persisted. destruct (_ && _); [reflexivity | auto].
Qed.

(** X15.  Marking a listed endpoint that is not yet quarantined lowers the
    number of available proxies and keeps the number of proxies; the
    record found for the endpoint is still in its place, with the status
    "failed". *)
Theorem mark_proxy_bad_lowers_available (s : PM) (fs : Files) (proxy : string) :
  directory_ok s ->
  proxy ∈ proxies s -> proxy <> EmptyString -> proxy ∉ bad_proxies s ->
  let s' := (mark_proxy_bad s fs proxy).1 in
  (get_available_proxy_count s' < get_available_proxy_count s)%nat
  /\ get_proxy_count s' = get_proxy_count s
  /\ exists i p p',
       list_find (fun q => url q = proxy) (proxy_data s) = Some (i, p)
       /\ proxy_data s' !! i = Some p'
       /\ url p' = proxy /\ status p' = "failed"
       /\ response_time_ms p' = response_time_ms p.
Proof.
  intros Hok Hin Hne Hfresh s'.
  pose proof (quarantined_frame s proxy) as (Hq1 & Hq2 & _).
  pose proof (save_frame (quarantined s proxy) fs) as (Hs1 & Hs2 & _).
  assert (Hfind : exists i p,
            list_find (fun q => url q = proxy) (proxy_data s) = Some (i, p)).
  { rewrite Hok in Hin. apply list_elem_of_fmap in Hin as (p0 & Hu & Hp0).
    destruct (list_find_elem_of (fun q => url q = proxy) (proxy_data s) p0 Hp0
                (eq_sym Hu)) as [[i p] Hip].
    eauto. }
  destruct Hfind as (i & p & Hfind).
  assert (Hquar : proxy_data (quarantined s proxy) !! i = Some (set_failed p)).
  { unfold quarantined. rewrite Hfind. cbn [proxy_data set_proxy_data set_stats
                                            set_bad_proxies].
    apply list_find_Some in Hfind as (Hi & _ & _).
    apply list_lookup_insert_eq. eapply lookup_lt_Some, Hi. }
  assert (Hurl : url p = proxy) by (apply list_find_Some in Hfind; tauto).
  assert (Hstate : proxies s' = proxies s
                   /\ bad_proxies s' = {[proxy]} ∪ bad_proxies s
                   /\ exists p', proxy_data s' !! i = Some p'
                                 /\ url p' = proxy /\ status p' = "failed"
                                 /\ response_time_ms p' = response_time_ms p).
  { subst s'.
    destruct (mark_proxy_bad_cases s fs proxy)
      as [[Hskip _] | [(_ & _ & _ & Heq) | (_ & _ & _ & Heq)]].
    - destruct Hskip; contradiction.
    - rewrite Heq. cbn [fst]. rewrite Hs1, Hs2, Hq1, Hq2.
      split; [reflexivity|]. split; [reflexivity|].
      unfold _save_proxies_to_csv.
      destruct (filter _ (proxy_data (quarantined s proxy))) eqn:Hf.
      + cbn [fst snd]. exists (set_failed p). auto.
      + fold (persisted (bad_proxies (quarantined s proxy))).
        exists (persisted (bad_proxies (quarantined s proxy)) (set_failed p)).
        split.
        * destruct (write_rows _); cbn [fst snd proxy_data set_proxy_data];
            rewrite list_lookup_fmap, Hquar; reflexivity.
        * unfold persisted.
          destruct (_ && _); cbn; auto.
    - rewrite Heq. cbn [fst]. rewrite Hq1, Hq2.
      split; [reflexivity|]. split; [reflexivity|].
      exists (set_failed p). auto. }
  destruct Hstate as (Hp & Hb & Hrec).
  split; [|split].
  - unfold get_available_proxy_count. rewrite Hp, Hb.
    apply filter_quarantine_length; assumption.
  - unfold get_proxy_count. rewrite Hp. reflexivity.
  - destruct Hrec as (p' & Hrec). exists i, p, p'. split; [exact Hfind | exact Hrec].
Qed.

(** *** A directory of the built-in list *)

Lemma no_rows_after_mark (s : PM) (fs : Files) (proxy : string) :
  Forall (fun p => row p = None) (proxy_data s) ->
  (mark_proxy_bad s fs proxy).2 = fs
  /\ Forall (fun p => row p = None) (proxy_data (mark_proxy_bad s fs proxy).1).
Proof.
  intros Hnone.
  assert (Hq : Forall (fun p => row p = None) (proxy_data (quarantined s proxy))).
  { unfold quarantined.
    destruct (list_find _ (proxy_data s)) as [[i p]|] eqn:Hfind;
      cbn [proxy_data set_proxy_data set_stats set_bad_proxies]; [|exact Hnone].
    apply Forall_insert; [exact Hnone|].
    apply list_find_Some in Hfind as (Hi & _ & _).
    rewrite Forall_forall in Hnone.
    pose proof (Hnone p (list_elem_of_lookup_2 _ _ _ Hi)) as Hp.
    unfold set_failed. cbn. rewrite Hp. reflexivity. }
  destruct (mark_proxy_bad_cases s fs proxy)
    as [[_ Heq] | [(_ & _ & Hcat & _) | (_ & _ & _ & Heq)]].
  - rewrite Heq. split; [reflexivity | exact Hnone].
  - destruct Hcat as (j & q & r & Hj & Hr).
    apply list_find_Some in Hj as (Hj & _ & _).
    rewrite Forall_forall in Hnone.
    rewrite (Hnone q (list_elem_of_lookup_2 _ _ _ Hj)) in Hr. discriminate.
  - rewrite Heq. split; [reflexivity | exact Hq].
Qed.

Lemma attempts_no_rows (world : nat -> Attempt) (target : string)
    (prefer_fast : bool) (budget : nat) :
  forall attempt last_error s fs done_so_far,
    Forall (fun p => row p = None) (proxy_data s) ->
    files (attempts world target prefer_fast budget attempt last_error s fs
             done_so_far) = fs.
Proof.
  induction budget as [|budget IH]; intros attempt last_error s fs done_so_far Hnone;
    cbn [attempts]; [reflexivity|].
  assert (Hsel : Forall (fun p => row p = None)
                   (proxy_data (get_proxy (dice (world attempt)) prefer_fast s).2)).
  { unfold get_proxy. destruct (proxies s); [exact Hnone|].
    destruct (filter _ (proxy_data s)); exact Hnone. }
  destruct (get_proxy (dice (world attempt)) prefer_fast s) as [[proxy|e] s1];
    cbn [snd] in Hsel; [|reflexivity].
  destruct (truthy (default EmptyString proxy)); [|reflexivity].
  destruct (classify target _) as [err|r]; [|reflexivity].
  destruct (no_rows_after_mark s1 fs (default EmptyString proxy) Hsel) as [Hfs Hrows].
  destruct (mark_proxy_bad s1 fs (default EmptyString proxy)) as [s2 fs2].
  cbn [fst snd] in Hfs, Hrows. subst fs2. apply IH, Hrows.
Qed.

(** X16.  With a directory made of the built-in list alone (no record has a
    row), [fetch] never creates or changes a file, whatever fails on the
    way. *)
Theorem fetch_fallback_keeps_files (world : nat -> Attempt) (target : string)
    (prefer_fast : bool) (s : PM) (fs : Files) :
  Forall (fun p => row p = None) (proxy_data s) ->
  files (fetch world target prefer_fast s fs) = fs.
Proof. intros Hnone. unfold fetch. apply attempts_no_rows. exact Hnone. Qed.

End MoreProxyFacts.

(** ** The block test and modules/search.py *)

Section SearchFacts.
Import PyStr Helpers Proxy Search FilterModule.
Context `{UrllibQuote} `{PyFloat}.

Lemma existsb_weaken {A} (f g : A -> bool) (l : list A) :
  (forall x, f x = true -> g x = true) ->
  existsb f l = true -> existsb g l = true.
Proof.
  intros Hfg. induction l as [|x l IH]; simpl; [auto|].
  intros Hx. apply orb_prop in Hx as [Hx | Hx].
  - rewrite (Hfg x Hx). reflexivity.
  - rewrite (IH Hx). apply orb_true_r.
Qed.

(** X17.  A page that contains a blocked page is blocked: the indicators are
    looked for anywhere in the text. *)
Theorem is_search_blocked_embedded (before page after : string) :
  is_search_blocked page = true ->
  is_search_blocked (before ++ page ++ after) = true.
Proof.
  unfold is_search_blocked.
  destruct page as [|c page]; [discriminate|]. cbn [is_empty].
  intros Hblocked.
  assert (Hne : is_empty (before ++ String c page ++ after) = false).
  { destruct before; [rewrite append_empty_l|]; rewrite append_cons; reflexivity. }
  rewrite Hne, !lower_append.
  revert Hblocked. apply existsb_weaken. intros i Hi.
  apply contains_append_r, contains_append_l, Hi.
Qed.

Lemma search_url_is_duckduckgo (q : string) (offset : Z) :
  is_duckduckgo (_format_search_url q offset) = true.
Proof.
  unfold is_duckduckgo, _format_search_url. rewrite lower_append.
  apply contains_append_l. vm_compute. reflexivity.
Qed.

(** X18.  What [search] returns is never a blocked page, so the filter that the
    workflow applies to it cannot raise SearchBlockedError.  What it raises,
    on a directory that lists its endpoints, is a ProxyFailureError that
    carries the topic.  Either way one request was counted and at most
    [max_retries] were sent. *)
Theorem search_never_blocked (world : nat -> Attempt) (topic : string)
    (mode : option string) (s : PM) (fs : Files) :
  directory_ok s ->
  let e := search world topic mode s fs in
  (forall content, search_result e = Returns content ->
     is_search_blocked content = false
     /\ forall t, filter_insufficient_and_blocked_content content t
                  <> inl (SearchBlockedError t))
  /\ (forall x, search_result e = Raises x ->
        exists cause a t no_proxy, x = ProxyFailureError topic cause a t no_proxy)
  /\ total_requests (stats (search_manager e)) = total_requests (stats s) + 1
  /\ (List.length (search_tried e) <= Z.to_nat (max_retries s))%nat.
Proof.
  intros Hok e. subst e. unfold search, _fetch, fetch.
  cbn [search_result search_manager search_tried].
  set (target := _format_search_url (_build_queries topic mode) 0).
  set (run := attempts world target true (Z.to_nat (max_retries s)) 0 None
                (set_stats (add_total (stats s)) s) fs []).
  pose proof (attempts_counters world target true (Z.to_nat (max_retries s))
                0%nat None (set_stats (add_total (stats s)) s) fs [] Hok)
    as [Htotal Hcases].
  fold run in Htotal, Hcases.
  destruct (attempts_bounded world target true (Z.to_nat (max_retries s))
              0%nat None (set_stats (add_total (stats s)) s) fs [])
    as (sent & Ht & Hlen & _).
  fold run in Ht. cbn [app] in Ht.
  split; [|split; [|split]].
  - intros content Hret.
    destruct (returned_value run) as [[body r]|x] eqn:Hrun.
    + inversion Hret; subst content.
      destruct (attempts_success _ _ _ _ _ _ _ _ _ _ _ Hrun) as (_ & _ & Hu & _).
      pose proof (search_url_is_duckduckgo (_build_queries topic mode) 0) as Hddg.
      fold target in Hddg. rewrite Hddg in Hu. cbn [andb] in Hu. split; [exact Hu|].
      intros t. unfold filter_insufficient_and_blocked_content. rewrite Hu.
      destruct (negb _); discriminate.
    + destruct x; discriminate.
  - intros x Hraise.
    destruct Hcases as [(body & r & Hrun & _) | (cause & a & t & np & Hrun & _)];
      rewrite Hrun in Hraise; [discriminate|].
    inversion Hraise. eauto.
  - exact Htotal.
  - rewrite Ht. exact Hlen.
Qed.

End SearchFacts.

Section QueryFacts.
Import PyStr Search.

Lemma contains_here (needle hay : string) :
  starts_with needle hay = true -> contains needle hay = true.
Proof. intros Hs. destruct hay; simpl; rewrite Hs; reflexivity. Qed.

Lemma contains_later (needle : string) (c : ascii) (hay : string) :
  contains needle hay = true -> contains needle (String c hay) = true.
Proof. intros Hc. simpl. rewrite Hc. apply orb_true_r. Qed.

Lemma starts_with_self (p t : string) : starts_with p (p ++ t) = true.
Proof.
  induction p as [|c p IH]; [apply starts_with_empty|].
  rewrite append_cons. simpl. rewrite Ascii.eqb_refl. exact IH.
Qed.

Lemma templates_of_other_mode (m : string) :
  m <> "lead" -> m <> "research" -> m <> "general" ->
  SEARCH_TEMPLATES !! m = None.
Proof.
  intros Hl Hr Hg. unfold SEARCH_TEMPLATES. cbn [list_to_map foldr uncurry fst snd].
  rewrite !lookup_insert_ne by congruence. apply lookup_empty.
Qed.

Lemma general_queries (topic : string) :
  _build_queries topic None
  = join " + " [topic ++ " about"; topic ++ " latest news"; topic ++ " key updates"].
Proof.
  unfold _build_queries.
  change (SEARCH_TEMPLATES !! "general")
    with (Some ["{topic} about"; "{topic} latest news"; "{topic} key updates"]).
  cbn -[String.append]. reflexivity.
Qed.

(** X19.  The query built for a topic mentions the topic, whatever the mode; a
    mode that is no key of the table, and no mode at all, give the query
    of the mode "general". *)
Theorem build_queries_mentions_topic (topic : string) (mode : option string) :
  contains topic (_build_queries topic mode) = true
  /\ (mode <> Some "lead" /\ mode <> Some "research" ->
      _build_queries topic mode
      = join " + " [topic ++ " about"; topic ++ " latest news";
                    topic ++ " key updates"]).
Proof.
  assert (Hother : mode <> Some "lead" /\ mode <> Some "research" ->
            _build_queries topic mode = _build_queries topic None).
  { intros [Hl Hr]. destruct mode as [m|]; [|reflexivity].
    destruct (decide (m = "general")) as [-> | Hg]; [reflexivity|].
    unfold _build_queries.
    rewrite (templates_of_other_mode m) by congruence. reflexivity. }
  assert (Hfirst : forall rest, contains topic ((topic ++ rest)) = true).
  { intros rest. apply contains_here, starts_with_self. }
  split.
  - destruct (decide (mode = Some "lead")) as [-> | Hl].
    { unfold _build_queries.
      change (SEARCH_TEMPLATES !! "lead")
        with (Some [ "{topic} company profile"; "{topic} services";
                     "{topic} CEO founder"; "hiring"; "{topic} LinkedIn";
                     "Instagram"; "Facebook" ]).
      cbn -[String.append]. rewrite append_assoc. apply Hfirst. }
    destruct (decide (mode = Some "research")) as [-> | Hr].
    { unfold _build_queries.
      change (SEARCH_TEMPLATES !! "research")
        with (Some [ "What is {topic}"; "{topic} latest advancements";
                     "{topic} benefits and challenges"; "{topic} statistics" ]).
      cbn -[String.append]. rewrite !append_cons.
      do 8 apply contains_later. rewrite append_assoc. apply Hfirst. }
    rewrite (Hother (conj Hl Hr)), general_queries.
    cbn -[String.append]. rewrite append_assoc. apply Hfirst.
  - intros Hmode. rewrite (Hother Hmode). apply general_queries.
Qed.

End QueryFacts.

(** ** utils/helpers.py: the request headers *)

Section HeaderFacts.
Import PyStr Headers.

Lemma choose_in {A} (pick : nat) (seq : list A) (dflt : A) :
  seq <> [] -> choose pick seq dflt ∈ seq.
Proof.
  intros Hne. unfold choose. apply list_elem_of_In, nth_In.
  apply Nat.mod_upper_bound. destruct seq; [congruence | simpl; lia].
Qed.

Lemma lookup_without_none (m : gmap string (option string)) (k : string) :
  omap id m !! k = m !! k ≫= id.
Proof. apply lookup_omap. Qed.

Ltac name_choices H :=
  repeat match type of H with
  | context [choose ?p ?l ?d] =>
      let v := fresh "v" in
      let Hv := fresh "Hv" in
      pose proof (choose_in p l d ltac:(discriminate)) as Hv;
      generalize dependent (choose p l d); intros v H Hv
  end.

Ltac look_up :=
  match goal with
  | |- context [?m !! ?k ≫= id] =>
      let r := eval vm_compute in (m !! k ≫= id) in
      change (m !! k ≫= id) with r
  end.

Ltac split_optional :=
  repeat match goal with
  | Hv : ?v ∈ [Some _; None] |- _ =>
      apply elem_of_cons in Hv as [-> | Hv];
      [|apply list_elem_of_singleton in Hv; subst v]
  end.

Ltac wildcard_choice :=
  repeat match goal with
  | Hv : ?v ∈ _ :: _ |- contains _ ?v = true =>
      apply elem_of_cons in Hv as [-> | Hv]; [vm_compute; reflexivity|]
  | Hv : ?v ∈ [] |- _ => inversion Hv
  end.

(** X20.  Whatever the random choices, the headers of a request hold the
    nine fixed names, a User-Agent taken from USER_AGENTS, and no name
    outside the fifteen known ones; Referer and DNT are there exactly when
    their random test succeeds, and so are Pragma and TE, with their fixed
    values.  With [block_resources] the Accept header is the fixed list of
    text types; without it, it is a list with a wildcard. *)
Theorem search_headers_shape (rng : Rng) (block_resources : bool) :
  let headers := search_headers rng block_resources in
  (exists ua, headers !! "User-Agent" = Some ua /\ ua ∈ USER_AGENTS)
  /\ Forall (fun name => is_Some (headers !! name)) fixed_header_names
  /\ dom headers ⊆ header_names
  /\ (is_Some (headers !! "Referer") <-> flips rng 0 = true)
  /\ (is_Some (headers !! "DNT") <-> flips rng 1 = true)
  /\ (headers !! "Pragma"
      = if flips rng 2 then Some "no-cache" else None)
  /\ (headers !! "TE" = if flips rng 3 then Some "trailers" else None)
  /\ (exists accept,
        headers !! "Accept" = Some accept
        /\ if block_resources
           then accept
                = "text/html,application/xhtml+xml,application/xml;q=0.9,text/plain;q=0.8"
           else contains "*/*" accept = true).
Proof.
  intros headers. subst headers.
  remember (search_headers rng block_resources) as headers eqn:Hh.
  unfold search_headers, choose_ua, choose_lang in Hh.
  destruct (flips rng 0); destruct (flips rng 1); destruct (flips rng 2);
    destruct (flips rng 3); destruct block_resources.
  all: cbn beta iota zeta in Hh.
  all: name_choices Hh.
  all: (match type of Hh with
    | _ = omap id ?M => set (m := M) in Hh
    end; subst headers; unfold fixed_header_names).
  all: (split; [rewrite lookup_without_none; look_up; eexists;
                split; [reflexivity | assumption]|]).
  all: (split; [repeat (apply Forall_cons; split;
                        [cbn beta; rewrite lookup_without_none; vm_compute;
                         solve [eauto]|]);
                apply Forall_nil_2|]).
  all: (split; [subst m; split_optional; apply (bool_decide_unpack _);
                vm_compute; exact I|]).
  all: (split; [rewrite lookup_without_none; vm_compute;
                split; [intros [? Hf] | intros Hf];
                first [discriminate Hf | exact (ex_intro _ _ eq_refl)
                      | reflexivity]|]).
  all: (split; [rewrite lookup_without_none; vm_compute;
                split; [intros [? Hf] | intros Hf];
                first [discriminate Hf | exact (ex_intro _ _ eq_refl)
                      | reflexivity]|]).
  all: (split; [rewrite lookup_without_none; vm_compute; reflexivity|]).
  all: (split; [rewrite lookup_without_none; vm_compute; reflexivity|]).
  all: (rewrite lookup_without_none; look_up; eexists;
        (split; [reflexivity|]); wildcard_choice; reflexivity).
Qed.

End HeaderFacts.

(** ** Instances of the further properties *)

Section MoreScraperExamples.
Import PyStr Helpers Scraper Models MoreModels.

Lemma extract_links_first_links_witness :
  1 <= 1
  /\ extract_links "RESULTS" 1
     = Returns [ {| url := "https://one.example/"; title := "One";
                    snippet := "first snippet" |} ]
  /\ (is_empty "RESULTS" || is_search_blocked "RESULTS" = true
      /\ [ {| url := "https://one.example/"; title := "One";
              snippet := "first snippet" |} ] = []
      \/ exists soup,
           BeautifulSoup "RESULTS" = Returns soup
           /\ [ {| url := "https://one.example/"; title := "One";
                   snippet := "first snippet" |} ]
              = take (Z.to_nat 1) (omap link_of (result_anchors soup))
           /\ Z.of_nat (List.length
                          [ {| url := "https://one.example/"; title := "One";
                               snippet := "first snippet" |} ]) <= 1).
Proof.
  assert (Hcap : 1 <= 1) by lia.
  assert (Hrun : extract_links "RESULTS" 1
                 = Returns [ {| url := "https://one.example/"; title := "One";
                                snippet := "first snippet" |} ])
    by reflexivity.
  split; [exact Hcap|]. split; [exact Hrun|].
  exact (extract_links_first_links "RESULTS" 1 _ Hcap Hrun).
Defined.

Lemma extract_relevant_content_fragments_witness :
  "SHORT" <> EmptyString
  /\ extract_relevant_content "SHORT" 2000 = Returns "login services"
  /\ exists soup fragments,
       BeautifulSoup "SHORT" = Returns soup
       /\ NoDup fragments
       /\ Forall (fun t => t ∈ selected_texts soup
                           /\ 10 <= len t
                           /\ contains_keywords (lower t) = true
                           /\ is_navigational_content t 5 = false) fragments
       /\ "login services"
          = if len (join " " fragments) >? 2000
            then slice_to 2000 (join " " fragments)
            else join " " fragments.
Proof.
  assert (Hne : "SHORT" <> EmptyString) by discriminate.
  assert (Hrun : extract_relevant_content "SHORT" 2000 = Returns "login services")
    by reflexivity.
  split; [exact Hne|]. split; [exact Hrun|].
  exact (extract_relevant_content_fragments "SHORT" 2000 _ Hne Hrun).
Defined.

Lemma extract_relevant_content_budget_edges_witness :
  extract_relevant_content "SHORT" 5 = Returns "login"
  /\ (0 <= 5 -> len "login" <= 5)
  /\ (5 <= 0 -> "login" = EmptyString).
Proof.
  assert (Hrun : extract_relevant_content "SHORT" 5 = Returns "login")
    by reflexivity.
  split; [exact Hrun|].
  exact (extract_relevant_content_budget_edges "SHORT" 5 _ Hrun).
Defined.

Lemma fetch_with_session_body_witness :
  _fetch_with_session toy_session_get whole_number "https://one.example/" = "SHORT"
  /\ "SHORT" <> EmptyString
  /\ exists n r,
       (n = 0%nat
        \/ n = 1%nat
           /\ tier toy_session_get whole_number "https://one.example/" 0
              = TierTimeout)
       /\ toy_session_get "https://one.example/" n = GotResponse r
       /\ status_code r = 200 /\ text r = Body "SHORT"
       /\ forall cl, content_length r = Some cl -> cl <> EmptyString ->
                     exists k, whole_number cl = Some k /\ k <= 2000000.
Proof.
  assert (Hrun : _fetch_with_session toy_session_get whole_number
                   "https://one.example/" = "SHORT") by reflexivity.
  assert (Hne : "SHORT" <> EmptyString) by discriminate.
  split; [exact Hrun|]. split; [exact Hne|].
  exact (fetch_with_session_body toy_session_get whole_number
           "https://one.example/" "SHORT" Hrun Hne).
Defined.

Lemma extract_and_scrape_bounded_witness :
  (forall (w : Z) (futures : list (Link * option ScrapedPage)),
      (fun _ l => l) w futures ≡ₚ futures)
  /\ 1 <= 2
  /\ match extract_and_scrape toy_session_get whole_number (fun _ l => l)
             "RESULTS" 2 with
     | Returns pages =>
         exists links,
           extract_links "RESULTS" 2 = Returns links
           /\ Z.of_nat (List.length pages) <= 2
           /\ Forall (fun pg => page_url pg ∈ url <$> links
                                /\ len (content pg) <= 2000) pages
     | Raises e => extract_links "RESULTS" 2 = Raises e
     end.
Proof.
  assert (Hperm : forall (w : Z) (futures : list (Link * option ScrapedPage)),
             (fun _ l => l) w futures ≡ₚ futures) by (intros; reflexivity).
  assert (Hcap : 1 <= 2) by lia.
  split; [exact Hperm|]. split; [exact Hcap|].
  exact (extract_and_scrape_bounded toy_session_get whole_number (fun _ l => l)
           "RESULTS" 2 Hperm Hcap).
Defined.

Example extract_and_scrape_results :
  extract_and_scrape toy_session_get whole_number (fun _ l => l) "RESULTS" 2
  = Returns [ {| page_url := "https://one.example/"; page_title := "One";
                 page_snippet := "first snippet";
                 content := "login services" |} ].
Proof. reflexivity. Qed.

End MoreScraperExamples.

Section MoreFilterExamples.
Import PyStr Helpers Sufficiency FilterModule Models MoreModels.

Lemma clean_normalises_witness :
  clean wordy_text = Some tidy_text
  /\ 200 <= len tidy_text
  /\ split tidy_text = split wordy_text
  /\ strip tidy_text = tidy_text
  /\ clean tidy_text = Some tidy_text.
Proof.
  assert (Hclean : clean wordy_text = Some tidy_text) by (vm_compute; reflexivity).
  split; [exact Hclean|].
  exact (clean_normalises wordy_text tidy_text Hclean).
Defined.

(** A page with a few words of content is dropped, and the content of the
    other page is what the filter returns. *)
Example filter_page_contents_drops_thin_page :
  filter_page_contents [thin_page; wordy_page] "acme" = inr tidy_text
  /\ filter_page_contents [thin_page] "acme"
     = inl (InsufficientContentError "acme").
Proof. split; vm_compute; reflexivity. Qed.

End MoreFilterExamples.

Section MoreProxyExamples.
Import PyStr Helpers Proxy Models MoreModels.

Lemma fetch_returns_unblocked_200_witness :
  returned_value (fetch only_first_host search_url true three_manager three_files)
  = Returns ("<html>results</html>",
             {| status_code := 200; text := "<html>results</html>" |})
  /\ "<html>results</html>"
     = text {| status_code := 200; text := "<html>results</html>" |}
  /\ status_code {| status_code := 200; text := "<html>results</html>" |} = 200
  /\ (is_duckduckgo search_url = true ->
      is_search_blocked "<html>results</html>" = false)
  /\ exists earlier p,
       tried (fetch only_first_host search_url true three_manager three_files)
       = (earlier ++ [p])%list
       /\ p <> EmptyString
       /\ requests_get (only_first_host (List.length earlier)) search_url p
          = Got {| status_code := 200; text := "<html>results</html>" |}.
Proof.
  assert (Hrun : returned_value
                   (fetch only_first_host search_url true three_manager three_files)
                 = Returns ("<html>results</html>",
                            {| status_code := 200;
                               text := "<html>results</html>" |}))
    by (vm_compute; reflexivity).
  split; [exact Hrun|].
  exact (fetch_returns_unblocked_200 only_first_host search_url true three_manager
           three_files _ _ Hrun).
Defined.

Lemma load_proxies_records_witness :
  padded_record ∈ _load_proxies [builtin_endpoint] (only_catalogue padded_catalogue)
  /\ ip padded_record = "10.0.0.2"
  /\ status padded_record = "working" /\ url padded_record <> EmptyString
  /\ ((row padded_record = None /\ url padded_record ∈ [builtin_endpoint]
       /\ response_time_ms padded_record = float_zero)
      \/ (exists file_content r,
            csv_file (only_catalogue padded_catalogue) = Some file_content
            /\ r ∈ DictReader file_content
            /\ eligible r = true /\ row padded_record = Some r
            /\ url padded_record
               = "socks5://" ++ ip padded_record ++ ":" ++ port padded_record
            /\ ip padded_record <> EmptyString
            /\ port padded_record <> EmptyString
            /\ exists host prt state,
                 row_get r "ip" (Some EmptyString) = Some host
                 /\ row_get r "port" (Some EmptyString) = Some prt
                 /\ row_get r "status" (Some "working") = Some state
                 /\ ip padded_record = strip host
                 /\ port padded_record = strip prt
                 /\ status padded_record = strip state
                 /\ row_response_time r
                    = Returns (response_time_ms padded_record))).
Proof.
  assert (Hin : padded_record
                ∈ _load_proxies [builtin_endpoint] (only_catalogue padded_catalogue))
    by apply list_elem_of_here.
  split; [exact Hin|]. split; [reflexivity|].
  exact (load_proxies_records [builtin_endpoint] (only_catalogue padded_catalogue)
           _ Hin).
Defined.

(** The record of the built-in list is a record of the first kind. *)
Example load_proxies_builtin_record :
  _load_proxies [builtin_endpoint] no_files = [builtin_record]
  /\ row builtin_record = None.
Proof. split; reflexivity. Qed.

Lemma load_proxies_falls_back_witness :
  (csv_file no_files = None
   \/ exists file_content,
        csv_file no_files = Some file_content
        /\ (Exists (fun r => ~ readable r) (DictReader file_content)
            \/ Forall (fun r => eligible r = false) (DictReader file_content)))
  /\ _load_proxies [builtin_endpoint] no_files
     = _load_fallback_proxies [builtin_endpoint]
  /\ Forall (fun p => row p = None) (_load_proxies [builtin_endpoint] no_files).
Proof.
  assert (Hfiles : csv_file no_files = None
            \/ exists file_content,
                 csv_file no_files = Some file_content
                 /\ (Exists (fun r => ~ readable r) (DictReader file_content)
                     \/ Forall (fun r => eligible r = false)
                          (DictReader file_content)))
    by (left; reflexivity).
  split; [exact Hfiles|].
  exact (load_proxies_falls_back [builtin_endpoint] no_files Hfiles).
Defined.

(** A catalogue whose rows have all failed gives the built-in list. *)
Example load_proxies_all_failed :
  _load_proxies [builtin_endpoint]
    (only_catalogue [fieldnames; catalogue_row "10.0.0.9" "5" "failed"])
  = [builtin_record].
Proof. vm_compute. reflexivity. Qed.

(** When the backup copy fails, the catalogue is rewritten all the same
    and no backup exists. *)
Example mark_proxy_bad_without_backup :
  csv_file (mark_proxy_bad (manager_over [] three_files_no_backup)
              three_files_no_backup (endpoint "10.0.0.2")).2
  = Some [ fieldnames;
           catalogue_row "10.0.0.2" "10" "failed";
           catalogue_row "10.0.0.3" "20" "working";
           catalogue_row "10.0.0.1" "30" "working" ]
  /\ backup_file (mark_proxy_bad (manager_over [] three_files_no_backup)
                    three_files_no_backup (endpoint "10.0.0.2")).2
     = None
  /\ backup_file (mark_proxy_bad three_manager three_files (endpoint "10.0.0.2")).2
     = Some three_working.
Proof. split; [|split]; vm_compute; reflexivity. Qed.

Lemma fetch_no_proxy_iff_empty_witness :
  listed_ok (manager_over [] no_files)
  /\ let e := fetch only_first_host search_url true (manager_over [] no_files)
                no_files in
     ((exists u cause a t,
         returned_value e = Raises (ProxyFailureError u cause a t true))
      <-> proxies (manager_over [] no_files) = []
          /\ 0 < max_retries (manager_over [] no_files))
     /\ (proxies (manager_over [] no_files) = [] ->
         tried e = [] /\ files e = no_files
         /\ exists cause no_proxy,
              returned_value e
              = Raises (ProxyFailureError search_url cause 0 0 no_proxy)).
Proof.
  assert (Hok : listed_ok (manager_over [] no_files))
    by (split; [reflexivity | apply Forall_nil_2]).
  split; [exact Hok|].
  exact (fetch_no_proxy_iff_empty only_first_host search_url true
           (manager_over [] no_files) no_files Hok).
Defined.

Lemma get_proxy_returns_live_witness :
  directory_ok three_manager
  /\ Exists (fun p => url p ∉ bad_proxies three_manager) (proxy_data three_manager)
  /\ let live := filter (fun p => url p ∉ bad_proxies three_manager)
                   (proxy_data three_manager) in
     exists i p,
       live !! i = Some p
       /\ get_proxy first_fastest true three_manager
          = (Returns (Some (url p)), three_manager)
       /\ url p ∈ proxies three_manager /\ (url p ∉ bad_proxies three_manager)
       /\ (true = true -> coin first_fastest = true ->
           (i < Nat.max 1 (List.length live / 3))%nat).
Proof.
  assert (Hok : directory_ok three_manager) by reflexivity.
  assert (Hlive : Exists (fun p => url p ∉ bad_proxies three_manager)
                    (proxy_data three_manager))
    by (apply (bool_decide_unpack _); vm_compute; exact I).
  split; [exact Hok|]. split; [exact Hlive|].
  exact (get_proxy_returns_live first_fastest true three_manager Hok Hlive).
Defined.

Lemma mark_proxy_bad_lowers_available_witness :
  directory_ok three_manager
  /\ endpoint "10.0.0.1" ∈ proxies three_manager
  /\ endpoint "10.0.0.1" <> EmptyString
  /\ (endpoint "10.0.0.1" ∉ bad_proxies three_manager)
  /\ let s' := (mark_proxy_bad three_manager three_files (endpoint "10.0.0.1")).1 in
     (get_available_proxy_count s' < get_available_proxy_count three_manager)%nat
     /\ get_proxy_count s' = get_proxy_count three_manager
     /\ exists i p p',
          list_find (fun q => url q = endpoint "10.0.0.1") (proxy_data three_manager)
          = Some (i, p)
          /\ proxy_data s' !! i = Some p'
          /\ url p' = endpoint "10.0.0.1" /\ status p' = "failed"
          /\ response_time_ms p' = response_time_ms p.
Proof.
  assert (Hok : directory_ok three_manager) by reflexivity.
  assert (Hin : endpoint "10.0.0.1" ∈ proxies three_manager)
    by (apply (bool_decide_unpack _); vm_compute; exact I).
  assert (Hne : endpoint "10.0.0.1" <> EmptyString) by discriminate.
  assert (Hlive : endpoint "10.0.0.1" ∉ bad_proxies three_manager)
    by (apply (bool_decide_unpack _); vm_compute; exact I).
  split; [exact Hok|]. split; [exact Hin|]. split; [exact Hne|].
  split; [exact Hlive|].
  exact (mark_proxy_bad_lowers_available three_manager three_files
           (endpoint "10.0.0.1") Hok Hin Hne Hlive).
Defined.

Lemma fetch_fallback_keeps_files_witness :
  Forall (fun p => row p = None) (proxy_data builtin_manager)
  /\ files (fetch (always 503 EmptyString) search_url true builtin_manager no_files)
     = no_files.
Proof.
  assert (Hrows : Forall (fun p => row p = None) (proxy_data builtin_manager))
    by (apply Forall_cons; split; [reflexivity | apply Forall_nil_2]).
  split; [exact Hrows|].
  exact (fetch_fallback_keeps_files (always 503 EmptyString) search_url true
           builtin_manager no_files Hrows).
Defined.

End MoreProxyExamples.

Section MoreSearchExamples.
Import PyStr Helpers Proxy Search FilterModule Headers Models MoreModels.

Lemma is_search_blocked_embedded_witness :
  is_search_blocked "Captcha" = true
  /\ is_search_blocked ("<html>" ++ "Captcha" ++ "</html>") = true.
Proof.
  assert (Hblocked : is_search_blocked "Captcha" = true) by reflexivity.
  split; [exact Hblocked|].
  exact (is_search_blocked_embedded "<html>" "Captcha" "</html>" Hblocked).
Defined.

Lemma search_never_blocked_witness :
  directory_ok three_manager
  /\ let e := search only_first_host "acme robotics" None three_manager
                three_files in
     (forall content, search_result e = Returns content ->
        is_search_blocked content = false
        /\ forall t, filter_insufficient_and_blocked_content content t
                     <> inl (SearchBlockedError t))
     /\ (forall x, search_result e = Raises x ->
           exists cause a t no_proxy,
             x = ProxyFailureError "acme robotics" cause a t no_proxy)
     /\ total_requests (stats (search_manager e))
        = total_requests (stats three_manager) + 1
     /\ (List.length (search_tried e) <= Z.to_nat (max_retries three_manager))%nat.
Proof.
  assert (Hok : directory_ok three_manager) by reflexivity.
  split; [exact Hok|].
  exact (search_never_blocked only_first_host "acme robotics" None three_manager
           three_files Hok).
Defined.

(** The URL of a search without a mode, and what the search returns in a
    world where the fastest proxy gets through. *)
Example search_for_acme :
  _format_search_url (_build_queries "acme robotics" None) 0
  = "https://duckduckgo.com/html/?q=acme+robotics+about+++acme+robotics+latest+news+++acme+robotics+key+updates&s=0"
  /\ search_result (search only_first_host "acme robotics" None three_manager
                      three_files)
     = Returns "<html>results</html>".
Proof. split; vm_compute; reflexivity. Qed.

(** The headers of one call, with the elements taken in turn. *)
Example search_headers_in_turn :
  dom (search_headers turn_by_turn true)
  = {[ "User-Agent"; "Accept-Language"; "Accept"; "Cache-Control";
       "Accept-Encoding"; "Upgrade-Insecure-Requests"; "Sec-Fetch-Site";
       "Sec-Fetch-Mode"; "Sec-Fetch-Dest"; "Connection"; "Referer"; "Pragma" ]}
  /\ search_headers turn_by_turn true !! "Sec-Fetch-User" = None
  /\ search_headers turn_by_turn true !! "Cache-Control" = Some "no-store".
Proof. split; [|split]; vm_compute; reflexivity. Qed.

End MoreSearchExamples.
